(** * zap-shift-server: the payment routes of [src/index.js]

    A shallow embedding of the Express handlers of the parcel-delivery
    backend: [POST /payments] (checkout initiation), [PATCH /payments]
    (checkout settlement), [GET /payments] and [GET /parcels] (owner-scoped
    listings behind [verifyFirebaseToken]).

    Documents are schemaless JavaScript objects, so they are finite maps from
    field names to BSON/JSON values.  A collection is the list of its
    documents in natural (insertion) order.  Every handler runs in a small
    monad that threads the two collections and a log of the calls made to the
    store and to the checkout provider, and that can throw; the handler's
    [try { ... } catch (err) { res.status(500) ... }] is the monad's
    [try_catch].

    What lies outside the process is an input of each request ([Env]): the
    provider's answer to [sessions.create] and [sessions.retrieve], the
    answer of Firebase's [verifyIdToken], the string [generateTrackingId()]
    returns (its module is not part of the sources at hand), the clock and
    the [_id] the driver draws for an inserted document.

    Scope of the model.  The store itself answers every call: a lost
    connection is not modelled.  Query-string parameters and the fields read
    from a checkout session are strings; [Session] is a session whose
    metadata carries both [parcelId] and [parcelName], and [AnySession],
    further down, one whose metadata may lack them.  The charge of a parcel
    and the amount computed from it are IEEE 754 binary64 numbers, with the
    operations of JavaScript on them ([/], [*], [Math.ceil]); the
    [amount_total] of a session is the integer the provider reports, and the
    quotient [amount_total / 100] is recorded as the rational it rounds. *)

From Stdlib Require Import QArith Qround Qreduction.
From Stdlib Require Qcanon.
From Stdlib Require Import SpecFloat.
From stdpp Require Import gmap strings list fin_maps.
From Stdlib Require Import Ascii String.

Local Open Scope Z_scope.
Local Open Scope string_scope.

(** ** ObjectId of the MongoDB driver *)

(** [new ObjectId(s)] on a string accepts exactly 24 hexadecimal characters,
    of either case, and holds the 12 bytes they denote; on any other string
    it throws.  The identifier is kept as its 24 nibbles. *)
Inductive ObjectId : Type := Oid (nibbles : list N).

#[global] Instance ObjectId_eq_dec : EqDecision ObjectId.
Proof. solve_decision. Defined.

Definition hex_val (a : ascii) : option N :=
  let n := N_of_ascii a in
  if (48 <=? n)%N && (n <=? 57)%N then Some (n - 48)%N
  else if (97 <=? n)%N && (n <=? 102)%N then Some (n - 87)%N
  else if (65 <=? n)%N && (n <=? 70)%N then Some (n - 55)%N
  else None.

Fixpoint hex_vals (s : string) : option (list N) :=
  match s with
  | EmptyString => Some []
  | String a s' =>
      match hex_val a, hex_vals s' with
      | Some n, Some ns => Some (n :: ns)
      | _, _ => None
      end
  end.

Definition ObjectId_error : string :=
  "input must be a 24 character hex string, 12 byte Uint8Array, or an integer".

Definition new_ObjectId (s : string) : option ObjectId :=
  if (String.length s =? 24)%nat then Oid <$> hex_vals s else None.

Definition ObjectId_isValid (s : string) : bool :=
  match new_ObjectId s with Some _ => true | None => false end.

(** ** Values and documents *)

(** A number held by a document is kept as the rational it stands for, in
    lowest terms ([Qred]); a date as its epoch milliseconds. *)
#[global] Instance Q_eq_dec : EqDecision Q.
Proof. solve_decision. Defined.

Inductive Value : Type :=
  | VNull
  | VBool (b : bool)
  | VNum (q : Q)
  | VStr (s : string)
  | VOid (o : ObjectId)
  | VDate (ms : Z).

#[global] Instance Value_eq_dec : EqDecision Value.
Proof. solve_decision. Defined.

Abbreviation Doc := (gmap string Value).

(** A MongoDB equality filter [{k1: v1, ...}] selects the documents that
    carry every listed field with the listed value; [{}] selects all. *)
Definition matches (filter doc : Doc) : bool :=
  bool_decide (map_Forall (λ k v, doc !! k = Some v) filter).

(** ** The store *)

Inductive Coll : Type := Parcels | Payments.

#[global] Instance Coll_eq_dec : EqDecision Coll.
Proof. solve_decision. Defined.

Record Db : Type := mkDb {
  parcelsCollection : list Doc;
  paymentsCollection : list Doc
}.

Definition coll (c : Coll) (d : Db) : list Doc :=
  match c with
  | Parcels => parcelsCollection d
  | Payments => paymentsCollection d
  end.

Definition set_coll (c : Coll) (l : list Doc) (d : Db) : Db :=
  match c with
  | Parcels => mkDb l (paymentsCollection d)
  | Payments => mkDb (parcelsCollection d) l
  end.

(** [findOne(filter)]: the first matching document in natural order. *)
Definition findOne (filter : Doc) (l : list Doc) : option Doc :=
  List.find (matches filter) l.

(** [updateOne(filter, {$set: fields})]: the first matching document gets
    the fields of [$set], which override the ones it has. *)
Fixpoint updateOne (filter set : Doc) (l : list Doc) : list Doc :=
  match l with
  | [] => []
  | d :: l' =>
      if matches filter d then (set ∪ d) :: l'
      else d :: updateOne filter set l'
  end.

(** [insertOne(doc)]: the driver adds an [_id] to a document that has none,
    and the document goes to the end of the collection. *)
Definition with_id (fresh : ObjectId) (doc : Doc) : Doc :=
  match doc !! "_id" with
  | Some _ => doc
  | None => <["_id" := VOid fresh]> doc
  end.

Definition insertOne (fresh : ObjectId) (doc : Doc) (l : list Doc) : list Doc :=
  l ++ [with_id fresh doc].

(** ** JavaScript numbers *)

(** A JavaScript number is an IEEE 754 binary64 value: a [spec_float] of
    the standard library at precision 53 and maximal exponent 1024, either
    a zero, an infinity, NaN, or [(-1)^s * m * 2^e].  Division and
    multiplication round to nearest, ties to even.  [number_of_Z] is the
    double of an integer literal, exact up to [2^53]. *)
Definition number_of_Z (z : Z) : spec_float :=
  binary_normalize 53 1024 z 0 false.

Definition js_div (x y : spec_float) : spec_float := SFdiv 53 1024 x y.

Definition js_mul (x y : spec_float) : spec_float := SFmul 53 1024 x y.

(** [Math.ceil]: the least integer that is not below the number; a number
    in [(-1, 0)] gives [-0], and zeros, infinities and NaN are returned as
    they are. *)
Definition Math_ceil (x : spec_float) : spec_float :=
  match x with
  | S754_finite s m e =>
      if (0 <=? e)%Z then x
      else
        let n := (- ((- cond_Zopp s (Zpos m)) / 2 ^ (- e)))%Z in
        if (n =? 0)%Z then S754_zero s else number_of_Z n
  | _ => x
  end.

(** The integer a number is, when it is one, and the rational a finite
    number is. *)
Definition integer_of (x : spec_float) : option Z :=
  match x with
  | S754_zero _ => Some 0
  | S754_finite s m e =>
      if (0 <=? e)%Z then Some (cond_Zopp s (Zpos m * 2 ^ e))
      else if (Zpos m mod 2 ^ (- e) =? 0)%Z
           then Some (cond_Zopp s (Zpos m / 2 ^ (- e)))
           else None
  | _ => None
  end.

Definition rational_of (x : spec_float) : option Q :=
  match x with
  | S754_zero _ => Some 0%Q
  | S754_finite s m e =>
      Some (if (0 <=? e)%Z then inject_Z (cond_Zopp s (Zpos m) * 2 ^ e)
            else Qmake (cond_Zopp s (Zpos m)) (Z.to_pos (2 ^ (- e))))
  | _ => None
  end.

(** ** The checkout provider *)

Record Metadata : Type := mkMetadata {
  parcelId : string;
  parcelName : string
}.

Record PriceData : Type := mkPriceData {
  price_currency : string;
  unit_amount : spec_float;
  product_data_name : string
}.

Record LineItem : Type := mkLineItem {
  price_data : PriceData;
  quantity : Z
}.

Record SessionCreateParams : Type := mkParams {
  line_items : list LineItem;
  mode : string;
  create_metadata : Metadata;
  create_customer_email : string;
  success_url : string;
  cancel_url : string
}.

(** The fields of a retrieved checkout session that the server reads.
    [amount_total] is in the currency's minor unit. *)
Record Session : Type := mkSession {
  url : string;
  payment_status : string;
  amount_total : Z;
  currency : Value;
  customer_email : Value;
  metadata : Metadata;
  payment_intent : Value
}.

(** ** Calls that leave the process *)

Inductive Event : Type :=
  | EvFindOne (c : Coll) (filter : Doc)
  | EvUpdateOne (c : Coll) (filter set : Doc)
  | EvInsertOne (c : Coll) (doc : Doc)
  | EvFind (c : Coll) (query : Doc) (sortField : string) (sortOrder : Z)
  | EvSessionsCreate (params : SessionCreateParams)
  | EvSessionsRetrieve (sessionId : option string).

(** What one request sees of the outside world: the provider's answers, the
    token verifier's answer, the tracking id [generateTrackingId()] returns,
    the clock, the [_id] the driver draws for an insert, and [SITE_DOMAIN].
    [retrieve_undefined] is the message of the error the provider's client
    raises when [sessions.retrieve] is called with [undefined]. *)
Record Env : Type := mkEnv {
  sessions_create : SessionCreateParams → string + Session;
  sessions_retrieve : string → string + Session;
  retrieve_undefined : string;
  verifyIdToken : string → option (option string);
  generateTrackingId : string;
  Date_now : Z;
  fresh_id : ObjectId;
  SITE_DOMAIN : string
}.

(** ** The handler monad *)

Record St : Type := mkSt {
  db : Db;
  log : list Event
}.

Definition M (A : Type) : Type := St → (string + A) * St.

#[global] Instance M_ret : MRet M := λ A (a : A) st, (inr a, st).

#[global] Instance M_bind : MBind M := λ A B (f : A → M B) (m : M A) st,
  match m st with
  | (inr a, st') => f a st'
  | (inl err, st') => (inl err, st')
  end.

Definition throw {A : Type} (message : string) : M A :=
  λ st, (inl message, st).

Definition try_catch {A : Type} (body : M A) (handler : string → M A) : M A :=
  λ st,
    match body st with
    | (inr a, st') => (inr a, st')
    | (inl err, st') => handler err st'
    end.

Definition emit (e : Event) : M unit :=
  λ st, (inr tt, mkSt (db st) (log st ++ [e])).

Definition read_coll (c : Coll) : M (list Doc) :=
  λ st, (inr (coll c (db st)), st).

Definition write_coll (c : Coll) (l : list Doc) : M unit :=
  λ st, (inr tt, mkSt (set_coll c l (db st)) (log st)).

Definition db_findOne (c : Coll) (filter : Doc) : M (option Doc) :=
  emit (EvFindOne c filter);;
  l ← read_coll c;
  mret (findOne filter l).

Definition db_updateOne (c : Coll) (filter set : Doc) : M unit :=
  emit (EvUpdateOne c filter set);;
  l ← read_coll c;
  write_coll c (updateOne filter set l).

Definition db_insertOne (env : Env) (c : Coll) (doc : Doc) : M unit :=
  emit (EvInsertOne c doc);;
  l ← read_coll c;
  write_coll c (insertOne (fresh_id env) doc l).

Definition construct_ObjectId (s : string) : M ObjectId :=
  match new_ObjectId s with
  | Some o => mret o
  | None => throw ObjectId_error
  end.

Definition stripe_retrieve (env : Env) (sessionId : option string) : M Session :=
  emit (EvSessionsRetrieve sessionId);;
  match sessionId with
  | None => throw (retrieve_undefined env)
  | Some sid =>
      match sessions_retrieve env sid with
      | inl err => throw err
      | inr session => mret session
      end
  end.

Definition stripe_create (env : Env) (params : SessionCreateParams) : M Session :=
  emit (EvSessionsCreate params);;
  match sessions_create env params with
  | inl err => throw err
  | inr session => mret session
  end.

(** ** Requests and responses *)

(** The parcel a client posts to [POST /payments]. *)
Module Parcel.
Record t : Type := mk {
  _id : string;
  charge : spec_float;
  parcelName : string;
  senderEmail : string
}.
End Parcel.

(** [req.headers] and [req.query] map names to strings; a name that is not
    there reads as [undefined]. *)
Record Request : Type := mkRequest {
  headers : gmap string string;
  query : gmap string string;
  body : Parcel.t
}.

Inductive Body : Type :=
  | JDoc (d : Doc)
  | JDocs (l : list Doc).

Record Response : Type := mkResponse {
  status : nat;
  json : Body
}.

Definition res_json (b : Body) : Response := mkResponse 200 b.

Definition message (s : string) : Body := JDoc {[ "message" := VStr s ]}.
Definition error (s : string) : Body := JDoc {[ "error" := VStr s ]}.

(** Runs a handler on a store; an error no handler caught ends in Express's
    own 500 response. *)
Definition serve (h : M Response) (d : Db) : Response * Db * list Event :=
  match h (mkSt d []) with
  | (inr r, st) => (r, db st, log st)
  | (inl err, st) => (mkResponse 500 (error err), db st, log st)
  end.

(** ** The routes *)

(** [authorization.split(" ")]. *)
Fixpoint split_space (s : string) : list string :=
  match s with
  | EmptyString => [EmptyString]
  | String a s' =>
      if Ascii.eqb a " "%char then EmptyString :: split_space s'
      else
        match split_space s' with
        | [] => [String a EmptyString]
        | w :: ws => String a w :: ws
        end
  end.

Definition set_email (email : option string) (h : gmap string string)
  : gmap string string :=
  match email with
  | Some e => <["email" := e]> h
  | None => delete "email" h
  end.

Definition unauthorized : Response :=
  mkResponse 401 (message "Unauthorized Access").

Definition verifyFirebaseToken (env : Env) (req : Request)
    (next : Request → M Response) : M Response :=
  match headers req !! "authorization" with
  | None => mret unauthorized
  | Some authorization =>
      if bool_decide (authorization = "") then mret unauthorized
      else
        match split_space authorization !! 1%nat with
        | None => mret unauthorized
        | Some token =>
            match verifyIdToken env token with
            | None => mret unauthorized
            | Some email =>
                next (mkRequest (set_email email (headers req)) (query req) (body req))
            end
        end
  end.

Definition payment_of (session : Session) (trackingId : string) (now : Z) : Doc :=
  {[ "amount" := VNum (Qred (inject_Z (amount_total session) / 100));
     "currency" := currency session;
     "customerEmail" := customer_email session;
     "parcelId" := VStr (parcelId (metadata session));
     "parcelName" := VStr (parcelName (metadata session));
     "paymentStatus" := VStr (payment_status session);
     "paidAt" := VDate now;
     "transactionId" := payment_intent session;
     "trackingId" := VStr trackingId ]}.

Section Routes.

(** [cursor.sort({[field]: order})] of the store, on the documents a
    [find] selected. *)
Variable cursor_sort : string → Z → list Doc → list Doc.

Definition db_find (c : Coll) (query : Doc) (sortField : string)
    (sortOrder : Z) : M (list Doc) :=
  emit (EvFind c query sortField sortOrder);;
  l ← read_coll c;
  mret (cursor_sort sortField sortOrder (List.filter (matches query) l)).

(** The loop over [allowedFields]: a field goes into the store query when
    the request's query string has a non-empty value for it. *)
Fixpoint build_query (allowedFields : list string) (q : gmap string string)
    (query : Doc) : Doc :=
  match allowedFields with
  | [] => query
  | key :: keys =>
      match q !! key with
      | Some v =>
          if bool_decide (v = "") then build_query keys q query
          else build_query keys q (<[key := VStr v]> query)
      | None => build_query keys q query
      end
  end.

(** [value || fallback] on a string that may be [undefined]: the empty
    string is falsy too. *)
Definition or_else (value : option string) (fallback : string) : string :=
  match value with
  | Some v => if bool_decide (v = "") then fallback else v
  | None => fallback
  end.

(** [GET /payments] and [GET /parcels] have the same body, on their own
    collection and owner field. *)
Definition listing (c : Coll) (ownerField : string) (req : Request)
    : M Response :=
  try_catch
    (let allowedFields := [ownerField] in
     let query_ := build_query allowedFields (query req) ∅ in
     let sortField := or_else (query req !! "sort") "createdAt" in
     let sortOrder := if bool_decide (query req !! "order" = Some "asc") then 1 else -1 in
     if bool_decide (query_ !! ownerField ≠ (VStr <$> headers req !! "email"))
     then mret (mkResponse 403 (message "Forbidden Access"))
     else
       docs ← db_find c query_ sortField sortOrder;
       mret (res_json (JDocs docs)))
    (λ err, mret (mkResponse 500 (error err))).

Definition get_payments (env : Env) (req : Request) : M Response :=
  verifyFirebaseToken env req (listing Payments "customerEmail").

Definition get_parcels (env : Env) (req : Request) : M Response :=
  verifyFirebaseToken env req (listing Parcels "senderEmail").

End Routes.

(** [POST /payments]: InitiateCheckout. *)
Definition usdAmount (bdtAmount : spec_float) : spec_float :=
  Math_ceil (js_div bdtAmount (number_of_Z 110)).

Definition create_params (env : Env) (parcel : Parcel.t) : SessionCreateParams :=
  let bdtAmount := Parcel.charge parcel in
  let amount := js_mul (usdAmount bdtAmount) (number_of_Z 100) in
  {| line_items :=
       [ {| price_data :=
              {| price_currency := "usd";
                 unit_amount := amount;
                 product_data_name := Parcel.parcelName parcel |};
            quantity := 1 |} ];
     mode := "payment";
     create_metadata :=
       {| parcelId := Parcel._id parcel;
          parcelName := Parcel.parcelName parcel |};
     create_customer_email := Parcel.senderEmail parcel;
     success_url :=
       SITE_DOMAIN env
         ++ "/dashboard/payment-success?sessionId={CHECKOUT_SESSION_ID}";
     cancel_url := SITE_DOMAIN env ++ "/dashboard/payment-cancelled" |}.

Definition post_payments (env : Env) (req : Request) : M Response :=
  try_catch
    (let parcel := body req in
     session ← stripe_create env (create_params env parcel);
     mret (res_json (JDoc {[ "url" := VStr (url session) ]})))
    (λ err, mret (mkResponse 500 (error err))).

(** [PATCH /payments?sessionId=...]: SettleCheckout. *)
Definition patch_payments (env : Env) (req : Request) : M Response :=
  try_catch
    (let sessionId := query req !! "sessionId" in
     session ← stripe_retrieve env sessionId;
     let paid := bool_decide (payment_status session = "paid") in
     let trackingId := generateTrackingId env in
     let payment := payment_of session trackingId (Date_now env) in
     let filter : Doc := {[ "parcelId" := VStr (parcelId (metadata session)) ]} in
     existingPayment ← db_findOne Payments filter;
     match existingPayment with
     | Some existing => mret (res_json (JDoc existing))
     | None =>
         if paid then
           oid ← construct_ObjectId (parcelId (metadata session));
           let filter : Doc := {[ "_id" := VOid oid ]} in
           let set : Doc :=
             {[ "paymentStatus" := VStr "paid";
                "trackingId" := VStr trackingId ]} in
           db_updateOne Parcels filter set;;
           db_insertOne env Payments payment;;
           mret (res_json (JDoc payment))
         else mret (res_json (JDoc {[ "success" := VBool false ]}))
     end)
    (λ err, mret (mkResponse 500 (error err))).

(** ** Sequences of settlement requests *)

Record Call : Type := mkCall {
  call_env : Env;
  call_req : Request
}.

Definition SettleCheckout (c : Call) (d : Db) : Response * Db * list Event :=
  serve (patch_payments (call_env c) (call_req c)) d.

Definition settle_db (d : Db) (c : Call) : Db := (SettleCheckout c d).1.2.

Definition settle_all (calls : list Call) (d : Db) : Db :=
  fold_left settle_db calls d.

(** The session a call retrieves, when the provider returns one. *)
Definition retrieved (c : Call) : option Session :=
  match query (call_req c) !! "sessionId" with
  | Some sid =>
      match sessions_retrieve (call_env c) sid with
      | inr session => Some session
      | inl _ => None
      end
  | None => None
  end.

(** ** Vocabulary of the statements *)

(** The filter, the payment record and the [$set] of a settlement request,
    and the calls every request that retrieves its session starts with. *)
Definition by_parcelId (s : Session) : Doc :=
  {[ "parcelId" := VStr (parcelId (metadata s)) ]}.

Definition payment_in (c : Call) (s : Session) : Doc :=
  payment_of s (generateTrackingId (call_env c)) (Date_now (call_env c)).

Definition paid_set (trackingId : string) : Doc :=
  {[ "paymentStatus" := VStr "paid"; "trackingId" := VStr trackingId ]}.

Definition retrieve_log (c : Call) (pid : string) : list Event :=
  [EvSessionsRetrieve (query (call_req c) !! "sessionId");
   EvFindOne Payments {[ "parcelId" := VStr pid ]}].

(** The payments of a collection that carry a given [parcelId], and the
    parcel an ObjectId selects. *)
Definition payments_for (pid : string) (l : list Doc) : list Doc :=
  List.filter (matches {[ "parcelId" := VStr pid ]}) l.

Definition parcel_of (o : ObjectId) (d : Db) : option Doc :=
  findOne {[ "_id" := VOid o ]} (parcelsCollection d).

Definition is_paid (p : Doc) : Prop :=
  p !! "paymentStatus" = Some (VStr "paid").

(** A Payment with this [parcelId] is stored; the parcel this ObjectId
    selects is [paid]. *)
Definition has_payment (pid : string) (d : Db) : Prop :=
  ∃ p, p ∈ paymentsCollection d ∧ p !! "parcelId" = Some (VStr pid).

Definition paid_parcel (o : ObjectId) (d : Db) : Prop :=
  ∃ p, parcel_of o d = Some p ∧ is_paid p.

(** A Payment is stored whose [parcelId] is some spelling of [o]. *)
Definition has_payment_of (o : ObjectId) (d : Db) : Prop :=
  ∃ p pid, p ∈ paymentsCollection d
           ∧ p !! "parcelId" = Some (VStr pid)
           ∧ new_ObjectId pid = Some o.

(** Every session of the sequence that names the parcel [o] spells its
    [parcelId] as [P]. *)
Definition spelled (P : string) (o : ObjectId) (calls : list Call) : Prop :=
  Forall (λ c, ∀ s, retrieved c = Some s →
                    new_ObjectId (parcelId (metadata s)) = Some o →
                    parcelId (metadata s) = P) calls.

(** The parcel [o] is stored, and a Payment with [parcelId = P] is stored
    exactly when that parcel is [paid]. *)
Definition payment_iff_paid (P : string) (o : ObjectId) (d : Db) : Prop :=
  is_Some (parcel_of o d) ∧ (has_payment P d ↔ paid_parcel o d).

(** The number of binary digits of a mantissa, the 53-digit mantissa of a
    positive integer below [2^53], and where the remainder of a division by
    110 lies between two quotients. *)
Definition bits (n : positive) : Z := Zpos (digits2_pos n).

Definition mantissa (n : positive) : positive :=
  Z.to_pos (Zpos n * 2 ^ (53 - bits n)).

Definition location_110 (t : Z) : location :=
  if (t mod 110 =? 0)%Z then loc_Exact
  else loc_Inexact (2 * (t mod 110) ?= 110)%Z.

(** The middleware lets the request through, with this email claim. *)
Definition authenticated (env : Env) (req : Request) (email : option string)
  : Prop :=
  ∃ authorization token,
    headers req !! "authorization" = Some authorization
    ∧ authorization ≠ ""
    ∧ split_space authorization !! 1%nat = Some token
    ∧ verifyIdToken env token = Some email.

Definition forbidden : Response := mkResponse 403 (message "Forbidden Access").

(** ** Concrete data for the examples *)

(** One parcel id in its two spellings, the ObjectId both denote, and the
    [_id] the driver draws. *)
Definition oid_a : string := "aaaaaaaaaaaaaaaaaaaaaaaa".
Definition oid_A : string := "AAAAAAAAAAAAAAAAAAAAAAAA".
Definition oid_of_a : ObjectId := Oid (repeat 10%N 24).
Definition oid_1 : ObjectId := Oid (repeat 1%N 24).

Definition session_of (status pid : string) (total : Z) : Session :=
  {| url := "https://checkout.stripe.com/c/pay/cs_test";
     payment_status := status;
     amount_total := total;
     currency := VStr "usd";
     customer_email := VStr "a@x.com";
     metadata := {| parcelId := pid; parcelName := "Box" |};
     payment_intent := VStr "pi_1" |}.

Definition paid_a : Session := session_of "paid" oid_a 2000.
Definition paid_A : Session := session_of "paid" oid_A 2000.
Definition paid_P1 : Session := session_of "paid" "P1" 2000.
Definition unpaid_a : Session := session_of "unpaid" oid_a 2000.

(** The provider knows the session [sess_1]; the verifier knows the token
    of [a@x.com] and a token that carries no email. *)
Definition env_of (session : Session) (tracking : string) (now : Z) : Env :=
  {| sessions_create := λ _, inr session;
     sessions_retrieve := λ sid,
       if bool_decide (sid = "sess_1") then inr session
       else inl ("No such checkout.session: " ++ sid);
     retrieve_undefined := "Stripe: no checkout session id";
     verifyIdToken := λ token,
       if bool_decide (token = "tok_a") then Some (Some "a@x.com")
       else if bool_decide (token = "tok_anon") then Some None
       else None;
     generateTrackingId := tracking;
     Date_now := now;
     fresh_id := oid_1;
     SITE_DOMAIN := "https://zap-shift.web.app" |}.

Definition env0 : Env := env_of paid_a "TRK-1" 1000.

Definition parcel_box : Parcel.t :=
  Parcel.mk "P1" (number_of_Z 2200) "Box" "a@x.com".

Definition parcel_1100 : Parcel.t :=
  Parcel.mk "P2" (number_of_Z 1100) "Crate" "b@x.com".

(** Charges at the two ends of the doubles: the least positive double,
    [2^-1074] (the JSON number [5e-324]), and [10^18]; and charges that are
    no amount of money at all. *)
Definition parcel_tiny : Parcel.t :=
  Parcel.mk "P4" (S754_finite false 1 (-1074)) "Pin" "a@x.com".

Definition parcel_large : Parcel.t :=
  Parcel.mk "P5" (number_of_Z (10 ^ 18)) "Ship" "a@x.com".

Definition parcel_with (charge : spec_float) : Parcel.t :=
  Parcel.mk "P3" charge "Void" "c@x.com".

Definition request_of (hs qs : list (string * string)) : Request :=
  mkRequest (list_to_map hs) (list_to_map qs) parcel_box.

Definition call_of (session : Session) (tracking : string) (now : Z) : Call :=
  mkCall (env_of session tracking now) (request_of [] [("sessionId", "sess_1")]).

(** A stored parcel: its [_id] is an ObjectId when the string denotes one,
    and the string itself otherwise. *)
Definition stored_parcel (id status : string) : Doc :=
  match new_ObjectId id with
  | Some o => {[ "_id" := VOid o; "paymentStatus" := VStr status;
                 "senderEmail" := VStr "a@x.com" ]}
  | None => {[ "_id" := VStr id; "paymentStatus" := VStr status;
               "senderEmail" := VStr "a@x.com" ]}
  end.

Definition db0 : Db := mkDb [stored_parcel oid_a "unpaid"] [].
Definition db_P1 : Db := mkDb [stored_parcel "P1" "unpaid"] [].
Definition db_paid : Db := settle_db db0 (call_of paid_a "TRK-1" 1000).

Definition keep_order (sortField : string) (sortOrder : Z) (l : list Doc)
  : list Doc := l.

Ltac bearer authorization token :=
  exists authorization, token;
  split; [reflexivity|]; split; [discriminate|]; split; reflexivity.

(** ** The account and parcel routes *)

(** The routes below also use the [users] and [riders] collections, read
    documents the client posts as JSON objects, take an [:id] from the path
    and may answer without a body.  Posted objects are flat: their values
    are scalars and their field names are plain (no [$] operators, no dotted
    paths). *)
Record Store : Type := mkStore {
  usersCollection : list Doc;
  ridersCollection : list Doc;
  settlement_db : Db
}.

Inductive Collection : Type := Users | Riders | Stored (c : Coll).

Definition docs_of (c : Collection) (s : Store) : list Doc :=
  match c with
  | Users => usersCollection s
  | Riders => ridersCollection s
  | Stored c => coll c (settlement_db s)
  end.

Definition set_docs (c : Collection) (l : list Doc) (s : Store) : Store :=
  match c with
  | Users => mkStore l (ridersCollection s) (settlement_db s)
  | Riders => mkStore (usersCollection s) l (settlement_db s)
  | Stored c => mkStore (usersCollection s) (ridersCollection s)
                  (set_coll c l (settlement_db s))
  end.

(** The filters these routes pass to [findOne], [updateOne] and
    [deleteOne]: [{_id: oid}], and [{field: value}] where the value was
    read off a document and may be [undefined].  The driver sends
    [undefined] as [null], and [{field: null}] selects the documents whose
    field is [null] or missing. *)
Inductive Filter : Type :=
  | ById (o : ObjectId)
  | ByField (k : string) (v : option Value).

Definition selects (f : Filter) (doc : Doc) : bool :=
  match f with
  | ById o => matches {[ "_id" := VOid o ]} doc
  | ByField k (Some VNull) | ByField k None =>
      bool_decide (doc !! k = None ∨ doc !! k = Some VNull)
  | ByField k (Some v) => bool_decide (doc !! k = Some v)
  end.

Definition first_selected (f : Filter) (l : list Doc) : option Doc :=
  List.find (selects f) l.

(** [insertOne]: the driver draws an [_id] for a document whose [_id] is
    [null] or missing; the server refuses an [_id] that a stored document
    already has. *)
Definition prepare_doc (fresh : ObjectId) (doc : Doc) : Doc :=
  match doc !! "_id" with
  | Some VNull | None => <["_id" := VOid fresh]> doc
  | Some _ => doc
  end.

Definition has_id (v : Value) (l : list Doc) : bool :=
  existsb (λ d, bool_decide (d !! "_id" = Some v)) l.

Definition duplicate_key : string := "E11000 duplicate key error collection".

Definition insert_checked (fresh : ObjectId) (doc : Doc) (l : list Doc)
  : string + (Value * list Doc) :=
  let doc' := prepare_doc fresh doc in
  let id := default VNull (doc' !! "_id") in
  if has_id id l then inl duplicate_key else inr (id, (l ++ [doc'])%list).

(** [updateOne(filter, {$set: fields})] with its [modifiedCount]: the
    first selected document is rewritten, and counted, only when the fields
    change it; [_id] cannot be given another value.  An empty [$set] changes
    nothing, as MongoDB 5.0 and later have it. *)
Definition immutable_id : string :=
  "Performing an update on the path '_id' would modify the immutable field '_id'".

Fixpoint replace_first (f : Filter) (d' : Doc) (l : list Doc) : list Doc :=
  match l with
  | [] => []
  | d :: l' => if selects f d then d' :: l' else d :: replace_first f d' l'
  end.

Definition update_counted (f : Filter) (set : Doc) (l : list Doc)
  : string + (Z * list Doc) :=
  match first_selected f l with
  | None => inr (0, l)
  | Some d =>
      match set !! "_id" with
      | Some v =>
          if bool_decide (d !! "_id" = Some v) then
            if bool_decide (set ∪ d = d) then inr (0, l)
            else inr (1, replace_first f (set ∪ d) l)
          else inl immutable_id
      | None =>
          if bool_decide (set ∪ d = d) then inr (0, l)
          else inr (1, replace_first f (set ∪ d) l)
      end
  end.

(** [deleteOne(filter)] with its [deletedCount]. *)
Fixpoint remove_first (f : Filter) (l : list Doc) : list Doc :=
  match l with
  | [] => []
  | d :: l' => if selects f d then l' else d :: remove_first f l'
  end.

Definition delete_counted (f : Filter) (l : list Doc) : Z * list Doc :=
  match first_selected f l with
  | Some _ => (1, remove_first f l)
  | None => (0, l)
  end.

Inductive StoreCall : Type :=
  | CallFindOne (c : Collection) (f : Filter)
  | CallFind (c : Collection) (query : Doc) (sortField : string) (sortOrder : Z)
  | CallInsertOne (c : Collection) (doc : Doc)
  | CallUpdateOne (c : Collection) (f : Filter) (set : Doc)
  | CallDeleteOne (c : Collection) (f : Filter).

Record World : Type := mkWorld {
  store : Store;
  calls : list StoreCall
}.

Definition H (A : Type) : Type := World → (string + A) * World.

#[global] Instance H_ret : MRet H := λ A (a : A) w, (inr a, w).

#[global] Instance H_bind : MBind H := λ A B (f : A → H B) (m : H A) w,
  match m w with
  | (inr a, w') => f a w'
  | (inl err, w') => (inl err, w')
  end.

Definition h_throw {A : Type} (message : string) : H A :=
  λ w, (inl message, w).

Definition h_try {A : Type} (body : H A) (handler : string → H A) : H A :=
  λ w,
    match body w with
    | (inr a, w') => (inr a, w')
    | (inl err, w') => handler err w'
    end.

Definition called (c : StoreCall) : H unit :=
  λ w, (inr tt, mkWorld (store w) (calls w ++ [c])).

Definition h_read (c : Collection) : H (list Doc) :=
  λ w, (inr (docs_of c (store w)), w).

Definition h_write (c : Collection) (l : list Doc) : H unit :=
  λ w, (inr tt, mkWorld (set_docs c l (store w)) (calls w)).

Definition h_findOne (c : Collection) (f : Filter) : H (option Doc) :=
  called (CallFindOne c f);;
  l ← h_read c;
  mret (first_selected f l).

Definition h_insertOne (env : Env) (c : Collection) (doc : Doc) : H Value :=
  called (CallInsertOne c doc);;
  l ← h_read c;
  match insert_checked (fresh_id env) doc l with
  | inl err => h_throw err
  | inr (id, l') => h_write c l';; mret id
  end.

Definition h_updateOne (c : Collection) (f : Filter) (set : Doc) : H Z :=
  called (CallUpdateOne c f set);;
  l ← h_read c;
  match update_counted f set l with
  | inl err => h_throw err
  | inr (modifiedCount, l') => h_write c l';; mret modifiedCount
  end.

Definition h_deleteOne (c : Collection) (f : Filter) : H Z :=
  called (CallDeleteOne c f);;
  l ← h_read c;
  let '(deletedCount, l') := delete_counted f l in
  h_write c l';; mret deletedCount.

Definition h_ObjectId (s : string) : H ObjectId :=
  match new_ObjectId s with
  | Some o => mret o
  | None => h_throw ObjectId_error
  end.

Record Reply : Type := mkReply {
  reply_status : nat;
  reply_json : option Body
}.

Definition insert_result (insertedId : Value) : Body :=
  JDoc {[ "acknowledged" := VBool true; "insertedId" := insertedId ]}.

Definition delete_result (deletedCount : Z) : Body :=
  JDoc {[ "acknowledged" := VBool true;
          "deletedCount" := VNum (inject_Z deletedCount) ]}.

Definition failed (err : string) : H Reply :=
  mret (mkReply 500 (Some (error err))).

Definition answer (h : H Reply) (s : Store) : Reply * Store * list StoreCall :=
  match h (mkWorld s []) with
  | (inr r, w) => (r, store w, calls w)
  | (inl err, w) => (mkReply 500 (Some (error err)), store w, calls w)
  end.

(** What [verifyFirebaseToken] decides: the request it hands to [next], or
    nothing when it answers 401. *)
Definition verified (env : Env) (req : Request) : option Request :=
  match headers req !! "authorization" with
  | None => None
  | Some authorization =>
      if bool_decide (authorization = "") then None
      else
        match split_space authorization !! 1%nat with
        | None => None
        | Some token =>
            match verifyIdToken env token with
            | None => None
            | Some email =>
                Some (mkRequest (set_email email (headers req)) (query req)
                        (body req))
            end
        end
  end.

Definition guarded (env : Env) (req : Request) (next : Request → H Reply)
  : H Reply :=
  match verified env req with
  | Some req' => next req'
  | None => mret (mkReply 401 (Some (message "Unauthorized Access")))
  end.

(** [POST /users]. *)
Definition post_users (env : Env) (body : Doc) : H Reply :=
  h_try
    (let user := <["createdAt" := VDate (Date_now env)]>
                   (<["role" := VStr "user"]> body) in
     existingUser ← h_findOne Users (ByField "email" (user !! "email"));
     match existingUser with
     | None =>
         createdUser ← h_insertOne env Users user;
         mret (mkReply 201 (Some (insert_result createdUser)))
     | Some _ => mret (mkReply 200 None)
     end)
    failed.

(** [POST /riders]. *)
Definition post_riders (env : Env) (body : Doc) : H Reply :=
  h_try
    (let rider := <["createdAt" := VDate (Date_now env)]>
                    (<["status" := VStr "pending"]> body) in
     existingRider ← h_findOne Riders (ByField "email" (rider !! "email"));
     match existingRider with
     | Some _ =>
         mret (mkReply 409
                 (Some (message "A rider with this email already exists")))
     | None =>
         createdRider ← h_insertOne env Riders rider;
         mret (mkReply 201 (Some (insert_result createdRider)))
     end)
    failed.

(** [DELETE /riders/:id] and [DELETE /parcels/:id] have the same body,
    message included, on their own collection. *)
Definition delete_by_id (c : Collection) (id : string) : H Reply :=
  h_try
    (oid ← h_ObjectId id;
     deletedCount ← h_deleteOne c (ById oid);
     if bool_decide (deletedCount = 1)
     then mret (mkReply 200 (Some (delete_result deletedCount)))
     else mret (mkReply 404 (Some (message "Parcel Not Found"))))
    failed.

Definition delete_riders (id : string) : H Reply := delete_by_id Riders id.

Definition delete_parcels (id : string) : H Reply :=
  delete_by_id (Stored Parcels) id.

(** [GET /parcels/:id]. *)
Definition get_parcel (id : string) : H Reply :=
  h_try
    (oid ← h_ObjectId id;
     parcel ← h_findOne (Stored Parcels) (ById oid);
     match parcel with
     | Some parcel => mret (mkReply 200 (Some (JDoc parcel)))
     | None => mret (mkReply 404 (Some (message "Parcel Not Found")))
     end)
    failed.

(** [POST /parcels]. *)
Definition post_parcels (env : Env) (body : Doc) : H Reply :=
  h_try
    (insertedParcel ←
       h_insertOne env (Stored Parcels)
         (<["createdAt" := VDate (Date_now env)]> body);
     mret (mkReply 201 (Some (insert_result insertedParcel))))
    failed.

(** [PATCH /riders/:id].  [rider] is [null] when no rider has the id, and
    reading [rider.email] then throws. *)
Definition patch_riders_handler (id : string) (body : Doc) (req : Request)
  : H Reply :=
  h_try
    (let set := body in
     oid ← h_ObjectId id;
     rider ← h_findOne Riders (ById oid);
     modifiedCount ← h_updateOne Riders (ById oid) set;
     if bool_decide (modifiedCount = 0)
     then mret (mkReply 404 (Some (message "Rider not found")))
     else
       (if bool_decide (body !! "status" = Some (VStr "approved")) then
          match rider with
          | Some rider =>
              h_updateOne Users (ByField "email" (rider !! "email"))
                {[ "role" := VStr "rider" ]};;
              mret tt
          | None => h_throw "Cannot read properties of null (reading 'email')"
          end
        else mret tt);;
       mret (mkReply 200 None))
    failed.

Definition patch_riders (env : Env) (req : Request) (id : string) (body : Doc)
  : H Reply :=
  guarded env req (patch_riders_handler id body).

Section RiderListing.

(** The store's [cursor.sort], as for the owner-scoped listings. *)
Variable cursor_sort : string → Z → list Doc → list Doc.

Definition h_find (c : Collection) (query : Doc) (sortField : string)
    (sortOrder : Z) : H (list Doc) :=
  called (CallFind c query sortField sortOrder);;
  l ← h_read c;
  mret (cursor_sort sortField sortOrder (List.filter (matches query) l)).

(** [GET /riders]. *)
Definition get_riders_handler (req : Request) : H Reply :=
  h_try
    (let allowedFields := ["status"] in
     let query_ := build_query allowedFields (query req) ∅ in
     let sortField := or_else (query req !! "sort") "createdAt" in
     let sortOrder :=
       if bool_decide (query req !! "order" = Some "asc") then 1 else -1 in
     riders ← h_find Riders query_ sortField sortOrder;
     mret (mkReply 200 (Some (JDocs riders))))
    failed.

Definition get_riders (env : Env) (req : Request) : H Reply :=
  guarded env req get_riders_handler.

End RiderListing.

(** ** Vocabulary of the further statements *)

Fixpoint has_space (s : string) : bool :=
  match s with
  | EmptyString => false
  | String a s' => Ascii.eqb a " "%char || has_space s'
  end.

(** The request [verifyFirebaseToken] hands on: [headers.email] is the
    token's email, everything else is as the client sent it. *)
Definition handed_on (req : Request) (email : option string) : Request :=
  mkRequest (set_email email (headers req)) (query req) (body req).

(** A paid session for a parcel that is not stored, and a provider that
    knows no session. *)
Definition oid_b : string := "bbbbbbbbbbbbbbbbbbbbbbbb".
Definition oid_of_b : ObjectId := Oid (repeat 11%N 24).
Definition paid_b : Session := session_of "paid" oid_b 2000.

Definition call_unknown : Call :=
  mkCall env0 (request_of [] [("sessionId", "sess_9")]).

(** The documents of a collection registered under an email, and the
    store after a sequence of registrations. *)
Definition by_email (v : option Value) : Filter := ByField "email" v.

Definition with_email (e : string) (l : list Doc) : list Doc :=
  List.filter (selects (by_email (Some (VStr e)))) l.

Definition new_user (env : Env) (body : Doc) : Doc :=
  <["createdAt" := VDate (Date_now env)]> (<["role" := VStr "user"]> body).

Definition new_rider (env : Env) (body : Doc) : Doc :=
  <["createdAt" := VDate (Date_now env)]> (<["status" := VStr "pending"]> body).

Definition after_post_users (s : Store) (r : Env * Doc) : Store :=
  (answer (post_users r.1 r.2) s).1.2.

Definition after_post_riders (s : Store) (r : Env * Doc) : Store :=
  (answer (post_riders r.1 r.2) s).1.2.

Definition store0 : Store := mkStore [] [] db0.

Definition body_ann : Doc :=
  {[ "email" := VStr "ann@x.com"; "name" := VStr "Ann";
     "role" := VStr "admin"; "status" := VStr "approved" ]}.

(** Example data of the account routes: a rider and the user of the same
    email, the body that approves, an authenticated request, and parcels as
    clients post them. *)
Definition rider_ann (status : string) : Doc :=
  {[ "_id" := VOid oid_of_a; "email" := VStr "ann@x.com";
     "status" := VStr status ]}.

Definition user_ann (role : string) : Doc :=
  {[ "_id" := VOid oid_1; "email" := VStr "ann@x.com"; "role" := VStr role ]}.

Definition store_ann (status role : string) : Store :=
  mkStore [user_ann role] [rider_ann status] db0.

Definition approve : Doc := {[ "status" := VStr "approved" ]}.

Definition request_a : Request :=
  request_of [("authorization", "Bearer tok_a")] [].

Definition body_box : Doc :=
  {[ "parcelName" := VStr "Box"; "senderEmail" := VStr "a@x.com";
     "paymentStatus" := VStr "unpaid"; "createdAt" := VStr "yesterday" ]}.

Definition body_P1 : Doc := <["_id" := VStr "P1"]> body_box.

Definition env_b : Env :=
  {| sessions_create := sessions_create env0;
     sessions_retrieve := sessions_retrieve env0;
     retrieve_undefined := retrieve_undefined env0;
     verifyIdToken := verifyIdToken env0;
     generateTrackingId := "TRK-9";
     Date_now := 9000;
     fresh_id := oid_of_b;
     SITE_DOMAIN := SITE_DOMAIN env0 |}.

(** ** Settlement of a session whose metadata may lack the parcel id *)

(** A checkout session as the provider's client returns it: [metadata]
    holds the keys that were set when the session was created, each with a
    string.  [POST /payments] sets [parcelId] to [parcel._id], so a body
    without [_id] creates a session whose metadata has no [parcelId];
    [session.metadata.parcelId] is then [undefined].  [Session] above is the
    case where both keys are there. *)
Record AnySession : Type := mkAnySession {
  any_payment_status : string;
  any_amount_total : Z;
  any_currency : Value;
  any_customer_email : Value;
  any_metadata : gmap string string;
  any_payment_intent : Value
}.

(** A field whose value may be [undefined]: [JSON.stringify] leaves it out
    of the response; the driver writes it to the store as [null]. *)
Definition set_field (as_null : bool) (k : string) (v : option string)
    (doc : Doc) : Doc :=
  match v with
  | Some s => <[k := VStr s]> doc
  | None => if as_null then <[k := VNull]> doc else doc
  end.

Definition any_payment (as_null : bool) (session : AnySession)
    (trackingId : string) (now : Z) : Doc :=
  <["amount" := VNum (Qred (inject_Z (any_amount_total session) / 100))]>
  (<["currency" := any_currency session]>
  (<["customerEmail" := any_customer_email session]>
  (set_field as_null "parcelId" (any_metadata session !! "parcelId")
  (set_field as_null "parcelName" (any_metadata session !! "parcelName")
  (<["paymentStatus" := VStr (any_payment_status session)]>
  (<["paidAt" := VDate now]>
  (<["transactionId" := any_payment_intent session]>
  {[ "trackingId" := VStr trackingId ]}))))))).

(** [stripe.checkout.sessions.retrieve(sessionId)], the [sessionId] being
    [undefined] when the query string has none. *)
Definition any_retrieve (retrieve : option string → string + AnySession)
    (sessionId : option string) : M AnySession :=
  emit (EvSessionsRetrieve sessionId);;
  match retrieve sessionId with
  | inl err => throw err
  | inr session => mret session
  end.

(** [findOne({field: value})] where the value may be [undefined]. *)
Definition db_findOne_field (c : Coll) (k : string) (v : option Value)
  : M (option Doc) :=
  emit (EvFindOne c {[ k := default VNull v ]});;
  l ← read_coll c;
  mret (first_selected (ByField k v) l).

(** [new ObjectId(input)]: on [undefined] the driver generates an id and
    does not throw. *)
Definition any_ObjectId (generated : ObjectId) (input : option string)
  : M ObjectId :=
  match input with
  | Some s => construct_ObjectId s
  | None => mret generated
  end.

(** [PATCH /payments?sessionId=...] on such a session. *)
Definition patch_payments_any (env : Env)
    (retrieve : option string → string + AnySession) (generated : ObjectId)
    (req : Request) : M Response :=
  try_catch
    (let sessionId := query req !! "sessionId" in
     session ← any_retrieve retrieve sessionId;
     let paid := bool_decide (any_payment_status session = "paid") in
     let trackingId := generateTrackingId env in
     let parcelId_ := any_metadata session !! "parcelId" in
     existingPayment ← db_findOne_field Payments "parcelId" (VStr <$> parcelId_);
     match existingPayment with
     | Some existing => mret (res_json (JDoc existing))
     | None =>
         if paid then
           oid ← any_ObjectId generated parcelId_;
           let filter : Doc := {[ "_id" := VOid oid ]} in
           let set : Doc :=
             {[ "paymentStatus" := VStr "paid";
                "trackingId" := VStr trackingId ]} in
           db_updateOne Parcels filter set;;
           db_insertOne env Payments
             (any_payment true session trackingId (Date_now env));;
           mret (res_json
                   (JDoc (any_payment false session trackingId (Date_now env))))
         else mret (res_json (JDoc {[ "success" := VBool false ]}))
     end)
    (λ err, mret (mkResponse 500 (error err))).

(** A session with both metadata keys, and the provider of [Env], seen this
    way. *)
Definition any_of (s : Session) : AnySession :=
  {| any_payment_status := payment_status s;
     any_amount_total := amount_total s;
     any_currency := currency s;
     any_customer_email := customer_email s;
     any_metadata := {[ "parcelId" := parcelId (metadata s);
                        "parcelName" := parcelName (metadata s) ]};
     any_payment_intent := payment_intent s |}.

Definition retrieve_of (env : Env) (sessionId : option string)
  : string + AnySession :=
  match sessionId with
  | None => inl (retrieve_undefined env)
  | Some sid =>
      match sessions_retrieve env sid with
      | inl err => inl err
      | inr s => inr (any_of s)
      end
  end.

(** A paid session created from a body without [_id], and a parcel that
    was posted with its [_id] as a string. *)
Definition paid_no_id : AnySession :=
  {| any_payment_status := "paid";
     any_amount_total := 2000;
     any_currency := VStr "usd";
     any_customer_email := VStr "a@x.com";
     any_metadata := {[ "parcelName" := "Box" ]};
     any_payment_intent := VStr "pi_1" |}.

Definition request_sess_1 : Request := request_of [] [("sessionId", "sess_1")].

Definition parcel_string_id : Doc :=
  {[ "_id" := VStr oid_a; "paymentStatus" := VStr "unpaid";
     "senderEmail" := VStr "a@x.com" ]}.

Definition db_string_id : Db := mkDb [parcel_string_id] [].

(** * Properties *)

(** ** Filters on one field *)

Lemma matches_singleton (k : string) (v : Value) (d : Doc) :
  matches {[ k := v ]} d = true ↔ d !! k = Some v.
Proof.
  unfold matches. rewrite bool_decide_eq_true.
  by rewrite map_Forall_singleton.
Qed.

Lemma matches_empty (d : Doc) : matches ∅ d = true.
Proof.
  unfold matches. rewrite bool_decide_eq_true. apply map_Forall_empty.
Qed.

Lemma findOne_singleton_Some (k : string) (v : Value) (l : list Doc) (d : Doc) :
  findOne {[ k := v ]} l = Some d → d ∈ l ∧ d !! k = Some v.
Proof.
  unfold findOne. intros H. apply find_some in H as [Hin Hm].
  split; [by apply list_elem_of_In | by apply matches_singleton].
Qed.

Lemma findOne_singleton_None (k : string) (v : Value) (l : list Doc) :
  findOne {[ k := v ]} l = None ↔ ∀ d, d ∈ l → d !! k ≠ Some v.
Proof.
  unfold findOne. split.
  - intros H d Hin Hk. apply list_elem_of_In in Hin.
    pose proof (find_none _ _ H d Hin) as Hf.
    apply matches_singleton in Hk. congruence.
  - intros H. induction l as [|d l IH]; [done|]. simpl.
    destruct (matches {[ k := v ]} d) eqn:Hm.
    + apply matches_singleton in Hm. exfalso. eapply H; [left | done].
    + apply IH. intros d' Hin. apply H. by right.
Qed.

Lemma findOne_singleton_is_Some (k : string) (v : Value) (l : list Doc) (d : Doc) :
  d ∈ l → d !! k = Some v → is_Some (findOne {[ k := v ]} l).
Proof.
  intros Hin Hk. destruct (findOne {[ k := v ]} l) eqn:Hf; [by eexists|].
  exfalso. by eapply findOne_singleton_None.
Qed.

(** ** The payment record *)

Lemma payment_of_no_id (s : Session) (t : string) (now : Z) :
  payment_of s t now !! "_id" = None.
Proof. unfold payment_of. by simplify_map_eq. Qed.

Lemma insertOne_payment (fresh : ObjectId) (s : Session) (t : string) (now : Z)
    (l : list Doc) :
  insertOne fresh (payment_of s t now) l
  = (l ++ [<["_id" := VOid fresh]> (payment_of s t now)])%list.
Proof. unfold insertOne, with_id. by rewrite payment_of_no_id. Qed.

Lemma payment_of_fields (s : Session) (t : string) (now : Z) :
  let payment := payment_of s t now in
  payment !! "amount" = Some (VNum (Qred (inject_Z (amount_total s) / 100)))
  ∧ payment !! "currency" = Some (currency s)
  ∧ payment !! "customerEmail" = Some (customer_email s)
  ∧ payment !! "parcelId" = Some (VStr (parcelId (metadata s)))
  ∧ payment !! "parcelName" = Some (VStr (parcelName (metadata s)))
  ∧ payment !! "paymentStatus" = Some (VStr (payment_status s))
  ∧ payment !! "paidAt" = Some (VDate now)
  ∧ payment !! "transactionId" = Some (payment_intent s)
  ∧ payment !! "trackingId" = Some (VStr t).
Proof. unfold payment_of. repeat split; by simplify_map_eq. Qed.

Lemma stored_payment_parcelId (fresh : ObjectId) (s : Session) (t : string) (now : Z) :
  (<["_id" := VOid fresh]> (payment_of s t now)) !! "parcelId"
  = Some (VStr (parcelId (metadata s))).
Proof. unfold payment_of. by simplify_map_eq. Qed.

Lemma findOne_None_filter (f : Doc) (l : list Doc) :
  findOne f l = None → List.filter (matches f) l = [].
Proof.
  unfold findOne. induction l as [|x l IH]; [done|]. simpl.
  destruct (matches f x); [done | exact IH].
Qed.

Lemma findOne_app_new (f : Doc) (l : list Doc) (x : Doc) :
  findOne f l = None → matches f x = true → findOne f (l ++ [x]) = Some x.
Proof.
  unfold findOne. induction l as [|y l IH]; simpl; intros Hn Hm.
  - by rewrite Hm.
  - destruct (matches f y); [done | by apply IH].
Qed.

(** ** What one settlement request does, branch by branch *)

Section Settle.

Variables (c : Call) (d : Db) (sid : string) (s : Session).

Hypothesis Hsid : query (call_req c) !! "sessionId" = Some sid.
Hypothesis Hsession : sessions_retrieve (call_env c) sid = inr s.

Lemma settle_existing (existing : Doc) :
  findOne (by_parcelId s) (paymentsCollection d) = Some existing →
  SettleCheckout c d =
    (res_json (JDoc existing), d,
     [EvSessionsRetrieve (Some sid); EvFindOne Payments (by_parcelId s)]).
Proof.
  intros Hf. destruct d as [ps pays]. unfold by_parcelId in *. simpl in Hf.
  unfold SettleCheckout, serve, patch_payments, try_catch, stripe_retrieve,
    db_findOne, emit, read_coll, mbind, mret, M_bind, M_ret.
  rewrite Hsid, Hsession. simpl.
  rewrite Hf. reflexivity.
Qed.

Lemma settle_not_paid :
  findOne (by_parcelId s) (paymentsCollection d) = None →
  payment_status s ≠ "paid" →
  SettleCheckout c d =
    (res_json (JDoc {[ "success" := VBool false ]}), d,
     [EvSessionsRetrieve (Some sid); EvFindOne Payments (by_parcelId s)]).
Proof.
  intros Hf Hp. destruct d as [ps pays]. unfold by_parcelId in *. simpl in Hf.
  unfold SettleCheckout, serve, patch_payments, try_catch, stripe_retrieve,
    db_findOne, emit, read_coll, mbind, mret, M_bind, M_ret.
  rewrite Hsid, Hsession. simpl.
  rewrite Hf.
  rewrite bool_decide_eq_false_2 by done. reflexivity.
Qed.

Lemma settle_invalid_id :
  findOne (by_parcelId s) (paymentsCollection d) = None →
  payment_status s = "paid" →
  new_ObjectId (parcelId (metadata s)) = None →
  SettleCheckout c d =
    (mkResponse 500 (error ObjectId_error), d,
     [EvSessionsRetrieve (Some sid); EvFindOne Payments (by_parcelId s)]).
Proof.
  intros Hf Hp Ho. destruct d as [ps pays]. unfold by_parcelId in *. simpl in Hf.
  unfold SettleCheckout, serve, patch_payments, try_catch, stripe_retrieve,
    db_findOne, construct_ObjectId, emit, read_coll, mbind, mret, M_bind, M_ret.
  rewrite Hsid, Hsession. simpl.
  rewrite Hf.
  rewrite bool_decide_eq_true_2 by done. rewrite Ho. reflexivity.
Qed.

Lemma settle_paid (o : ObjectId) :
  findOne (by_parcelId s) (paymentsCollection d) = None →
  payment_status s = "paid" →
  new_ObjectId (parcelId (metadata s)) = Some o →
  SettleCheckout c d =
    (res_json (JDoc (payment_in c s)),
     mkDb (updateOne {[ "_id" := VOid o ]}
             (paid_set (generateTrackingId (call_env c)))
             (parcelsCollection d))
          (insertOne (fresh_id (call_env c)) (payment_in c s)
             (paymentsCollection d)),
     [EvSessionsRetrieve (Some sid); EvFindOne Payments (by_parcelId s);
      EvUpdateOne Parcels {[ "_id" := VOid o ]}
        (paid_set (generateTrackingId (call_env c)));
      EvInsertOne Payments (payment_in c s)]).
Proof.
  intros Hf Hp Ho. destruct d as [ps pays]. unfold by_parcelId in *. simpl in Hf.
  unfold SettleCheckout, serve, patch_payments, try_catch, stripe_retrieve,
    db_findOne, db_updateOne, db_insertOne, construct_ObjectId, emit,
    read_coll, write_coll, mbind, mret, M_bind, M_ret.
  rewrite Hsid, Hsession. simpl.
  rewrite Hf.
  rewrite bool_decide_eq_true_2 by done. rewrite Ho. reflexivity.
Qed.

End Settle.

Lemma retrieved_Some (c : Call) (s : Session) :
  retrieved c = Some s ↔
  ∃ sid, query (call_req c) !! "sessionId" = Some sid
         ∧ sessions_retrieve (call_env c) sid = inr s.
Proof.
  unfold retrieved. split.
  - destruct (query (call_req c) !! "sessionId") as [sid|]; [|done].
    destruct (sessions_retrieve (call_env c) sid) eqn:Hr; [done|].
    intros [= <-]. eauto.
  - intros (sid & -> & ->). done.
Qed.

Lemma settle_no_session (c : Call) (d : Db) :
  retrieved c = None →
  ∃ err,
    SettleCheckout c d =
      (mkResponse 500 (error err), d,
       [EvSessionsRetrieve (query (call_req c) !! "sessionId")]).
Proof.
  unfold retrieved. intros Hr. destruct d as [ps pays].
  unfold SettleCheckout, serve, patch_payments, try_catch, stripe_retrieve,
    emit, mbind, mret, M_bind, M_ret.
  destruct (query (call_req c) !! "sessionId") as [sid|]; simpl.
  - destruct (sessions_retrieve (call_env c) sid) as [err|]; [|done].
    simpl. by exists err.
  - by eexists.
Qed.

(** Every settlement request either leaves the store as it is or makes the
    two writes of the paid branch. *)
Lemma settle_db_cases (c : Call) (d : Db) :
  settle_db d c = d
  ∨ ∃ s o,
      retrieved c = Some s
      ∧ payment_status s = "paid"
      ∧ findOne {[ "parcelId" := VStr (parcelId (metadata s)) ]}
          (paymentsCollection d) = None
      ∧ new_ObjectId (parcelId (metadata s)) = Some o
      ∧ settle_db d c =
          mkDb (updateOne {[ "_id" := VOid o ]}
                  (paid_set (generateTrackingId (call_env c)))
                  (parcelsCollection d))
               (insertOne (fresh_id (call_env c))
                  (payment_of s (generateTrackingId (call_env c))
                     (Date_now (call_env c)))
                  (paymentsCollection d)).
Proof.
  unfold settle_db.
  destruct (retrieved c) as [s|] eqn:Hr.
  - pose proof Hr as Hr'. apply retrieved_Some in Hr' as (sid & Hsid & Hs).
    destruct (findOne {[ "parcelId" := VStr (parcelId (metadata s)) ]}
                (paymentsCollection d)) as [e|] eqn:Hf.
    { left. by rewrite (settle_existing c d sid s Hsid Hs e Hf). }
    destruct (decide (payment_status s = "paid")) as [Hp|Hp].
    + destruct (new_ObjectId (parcelId (metadata s))) as [o|] eqn:Ho.
      * right. exists s, o. repeat split; try done.
        by rewrite (settle_paid c d sid s Hsid Hs o Hf Hp Ho).
      * left. by rewrite (settle_invalid_id c d sid s Hsid Hs Hf Hp Ho).
    + left. by rewrite (settle_not_paid c d sid s Hsid Hs Hf Hp).
  - left. destruct (settle_no_session c d Hr) as [err ->]. done.
Qed.

(** ** Updating one parcel *)

Lemma paid_set_status (t : string) (p : Doc) : is_paid (paid_set t ∪ p).
Proof.
  unfold is_paid, paid_set. apply lookup_union_Some_l. by rewrite lookup_insert_eq.
Qed.

Lemma paid_set_tracking (t : string) (p : Doc) :
  (paid_set t ∪ p) !! "trackingId" = Some (VStr t).
Proof.
  unfold paid_set. apply lookup_union_Some_l.
  rewrite lookup_insert_ne by done. by rewrite lookup_singleton_eq.
Qed.

Lemma paid_set_other (t k : string) (p : Doc) :
  k ≠ "paymentStatus" → k ≠ "trackingId" → (paid_set t ∪ p) !! k = p !! k.
Proof.
  intros H1 H2. unfold paid_set. apply lookup_union_r.
  rewrite lookup_insert_ne by done. by rewrite lookup_singleton_ne.
Qed.

Lemma updateOne_length (f set : Doc) (l : list Doc) :
  List.length (updateOne f set l) = List.length l.
Proof.
  induction l as [|x l IH]; [done|]. simpl.
  destruct (matches f x); simpl; by rewrite ?IH.
Qed.

Lemma updateOne_lookup (f set : Doc) (l : list Doc) (i : nat) (p : Doc) :
  l !! i = Some p →
  updateOne f set l !! i = Some p
  ∨ (matches f p = true ∧ updateOne f set l !! i = Some (set ∪ p)).
Proof.
  revert i. induction l as [|x l IH]; intros i Hi; [done|]. simpl.
  destruct (matches f x) eqn:Hm.
  - destruct i as [|i]; simpl in *.
    + injection Hi as ->. by right.
    + by left.
  - destruct i as [|i]; simpl in *.
    + by left.
    + by apply IH.
Qed.

Lemma settle_db_keeps_paid (c : Call) (d : Db) (i : nat) (p : Doc) :
  parcelsCollection d !! i = Some p → is_paid p →
  ∃ p', parcelsCollection (settle_db d c) !! i = Some p'
        ∧ is_paid p' ∧ p' !! "_id" = p !! "_id".
Proof.
  intros Hi Hp.
  destruct (settle_db_cases c d) as [-> | (s & o & _ & _ & _ & _ & ->)].
  - by exists p.
  - simpl.
    destruct (updateOne_lookup {[ "_id" := VOid o ]}
                (paid_set (generateTrackingId (call_env c))) _ _ _ Hi)
      as [H | [_ H]].
    + by exists p.
    + eexists. split; [exact H|]. split; [apply paid_set_status|].
      by apply paid_set_other.
Qed.

Lemma settle_all_keeps_paid (calls : list Call) (d : Db) (i : nat) (p : Doc) :
  parcelsCollection d !! i = Some p → is_paid p →
  ∃ p', parcelsCollection (settle_all calls d) !! i = Some p'
        ∧ is_paid p' ∧ p' !! "_id" = p !! "_id".
Proof.
  revert d p. induction calls as [|c calls IH]; intros d p Hi Hp.
  - by exists p.
  - destruct (settle_db_keeps_paid c d i p Hi Hp) as (p1 & H1 & Hp1 & Hid1).
    destruct (IH _ _ H1 Hp1) as (p2 & H2 & Hp2 & Hid2).
    exists p2. simpl. repeat split; [done | done | congruence].
Qed.

Lemma settle_all_not_paid (calls : list Call) (d : Db) :
  Forall (λ c, ∀ s, retrieved c = Some s → payment_status s ≠ "paid") calls →
  settle_all calls d = d.
Proof.
  induction 1 as [|c calls Hc _ IH]; [done|]. simpl.
  destruct (settle_db_cases c d) as [-> | (s & o & Hr & Hp & _)]; [done|].
  by destruct (Hc s Hr).
Qed.

(** ** The example stores *)

Lemma db_paid_eq :
  db_paid =
    mkDb [paid_set "TRK-1" ∪ stored_parcel oid_a "unpaid"]
         [<["_id" := VOid oid_1]> (payment_of paid_a "TRK-1" 1000)].
Proof. vm_compute. reflexivity. Qed.

Lemma db_paid_A_eq :
  settle_db db0 (call_of paid_A "TRK-1" 1000) =
    mkDb [paid_set "TRK-1" ∪ stored_parcel oid_a "unpaid"]
         [<["_id" := VOid oid_1]> (payment_of paid_A "TRK-1" 1000)].
Proof. vm_compute. reflexivity. Qed.

Lemma stored_parcel_a_matches :
  matches {[ "_id" := VOid oid_of_a ]}
    (paid_set "TRK-1" ∪ stored_parcel oid_a "unpaid") = true.
Proof. vm_compute. reflexivity. Qed.

(** ** Claims about the settlement request *)

(** C8. When a Payment whose [parcelId] is the retrieved session's
    [metadata.parcelId] is already stored, SettleCheckout answers with the
    stored Payment that [findOne] selects and writes nothing: the store is
    unchanged and the only calls made are the session retrieval and the
    payment lookup.  The session's payment status plays no part, so this
    also holds for a session that is not paid. *)
Theorem settle_returns_existing_payment (c : Call) (d : Db) (s : Session) (p : Doc) :
  retrieved c = Some s →
  p ∈ paymentsCollection d →
  p !! "parcelId" = Some (VStr (parcelId (metadata s))) →
  ∃ existing,
    findOne {[ "parcelId" := VStr (parcelId (metadata s)) ]}
      (paymentsCollection d) = Some existing
    ∧ existing ∈ paymentsCollection d
    ∧ existing !! "parcelId" = Some (VStr (parcelId (metadata s)))
    ∧ SettleCheckout c d =
        (res_json (JDoc existing), d,
         retrieve_log c (parcelId (metadata s))).
Proof.
  intros Hr Hin Hp. apply retrieved_Some in Hr as (sid & Hsid & Hs).
  destruct (findOne_singleton_is_Some _ _ _ _ Hin Hp) as [e He].
  exists e. destruct (findOne_singleton_Some _ _ _ _ He) as [Hein Hek].
  repeat split; try done.
  unfold retrieve_log. rewrite Hsid.
  by apply settle_existing.
Qed.

Lemma settle_returns_existing_payment_witness :
  let c := call_of unpaid_a "TRK-2" 2000 in
  ∃ existing,
    findOne {[ "parcelId" := VStr oid_a ]} (paymentsCollection db_paid)
      = Some existing
    ∧ existing ∈ paymentsCollection db_paid
    ∧ existing !! "parcelId" = Some (VStr oid_a)
    ∧ SettleCheckout c db_paid =
        (res_json (JDoc existing), db_paid, retrieve_log c oid_a).
Proof.
  intros c.
  apply (settle_returns_existing_payment c db_paid unpaid_a
           (<["_id" := VOid oid_1]> (payment_of paid_a "TRK-1" 1000))).
  - reflexivity.
  - rewrite db_paid_eq. apply list_elem_of_here.
  - exact (stored_payment_parcelId oid_1 paid_a "TRK-1" 1000).
Defined.

(** ** Sessions with and without a parcel id *)

Lemma first_selected_by_field (k p : string) (l : list Doc) :
  first_selected (ByField k (Some (VStr p))) l = findOne {[ k := VStr p ]} l.
Proof.
  unfold first_selected, findOne. induction l as [|x l IH]; [done|].
  cbn [List.find].
  assert (selects (ByField k (Some (VStr p))) x = matches {[ k := VStr p ]} x)
    as ->.
  { cbn [selects]. apply eq_true_iff_eq.
    by rewrite bool_decide_eq_true, matches_singleton. }
  by rewrite IH.
Qed.

Lemma any_payment_of (as_null : bool) (s : Session) (t : string) (now : Z) :
  any_payment as_null (any_of s) t now = payment_of s t now.
Proof.
  unfold any_payment, any_of, payment_of.
  cbn [any_metadata any_amount_total any_currency any_customer_email
       any_payment_status any_payment_intent].
  rewrite lookup_insert_eq, lookup_insert_ne by done.
  by rewrite lookup_singleton_eq.
Qed.

(** On a session that carries both metadata keys, the settlement request
    modelled on [AnySession] is the one modelled on [Session]. *)
Lemma patch_payments_any_typed (env : Env) (generated : ObjectId)
    (req : Request) (d : Db) :
  serve (patch_payments_any env (retrieve_of env) generated req) d
  = serve (patch_payments env req) d.
Proof.
  destruct d as [ps pays].
  unfold serve, patch_payments_any, patch_payments, try_catch, any_retrieve,
    stripe_retrieve, db_findOne_field, db_findOne, db_updateOne, db_insertOne,
    any_ObjectId, construct_ObjectId, emit, read_coll, write_coll, mbind, mret,
    M_bind, M_ret, retrieve_of.
  destruct (query req !! "sessionId") as [sid|]; [|reflexivity].
  destruct (sessions_retrieve env sid) as [err|s]; [reflexivity|].
  cbn [db log coll set_coll paymentsCollection parcelsCollection app
       any_metadata any_of any_payment_status].
  rewrite lookup_insert_eq. cbn [fmap option_fmap option_map default].
  rewrite first_selected_by_field, !any_payment_of.
  destruct (findOne {[ "parcelId" := VStr (parcelId (metadata s)) ]} pays);
    [reflexivity|].
  destruct (bool_decide (payment_status s = "paid")); [|reflexivity].
  by destruct (new_ObjectId (parcelId (metadata s))).
Qed.

(** C9, as the code has it.  A paid session whose [metadata.parcelId] is a
    string that is not a valid ObjectId string, and for which no Payment is
    stored, makes SettleCheckout fail with a 500 error response:
    [new ObjectId] throws before either write, so the parcels and the
    payments collections are unchanged and no write was issued. *)
Theorem settle_invalid_id_fails (env : Env)
    (retrieve : option string → string + AnySession) (generated : ObjectId)
    (req : Request) (d : Db) (s : AnySession) (P : string) :
  retrieve (query req !! "sessionId") = inr s →
  any_payment_status s = "paid" →
  any_metadata s !! "parcelId" = Some P →
  (∀ p, p ∈ paymentsCollection d → p !! "parcelId" ≠ Some (VStr P)) →
  ObjectId_isValid P = false →
  serve (patch_payments_any env retrieve generated req) d =
    (mkResponse 500 (error ObjectId_error), d,
     [EvSessionsRetrieve (query req !! "sessionId");
      EvFindOne Payments {[ "parcelId" := VStr P ]}]).
Proof.
  intros Hs Hpaid HP Hnone Hv.
  apply findOne_singleton_None in Hnone.
  rewrite <- first_selected_by_field in Hnone.
  unfold ObjectId_isValid in Hv.
  destruct (new_ObjectId P) eqn:Ho; [done|].
  destruct d as [ps pays]. simpl in Hnone.
  unfold serve, patch_payments_any, try_catch, any_retrieve, db_findOne_field,
    any_ObjectId, construct_ObjectId, emit, read_coll, mbind, mret, M_bind,
    M_ret.
  rewrite Hs. simpl. rewrite HP. simpl. rewrite Hnone.
  rewrite bool_decide_eq_true_2 by done. rewrite Ho. reflexivity.
Qed.

Lemma settle_invalid_id_fails_witness :
  serve (patch_payments_any env0 (retrieve_of (env_of paid_P1 "TRK-1" 1000))
           oid_of_b request_sess_1) db0
  = (mkResponse 500 (error ObjectId_error), db0,
     [EvSessionsRetrieve (query request_sess_1 !! "sessionId");
      EvFindOne Payments {[ "parcelId" := VStr "P1" ]}]).
Proof.
  apply (settle_invalid_id_fails env0 (retrieve_of (env_of paid_P1 "TRK-1" 1000))
           oid_of_b request_sess_1 db0 (any_of paid_P1) "P1").
  - reflexivity.
  - reflexivity.
  - reflexivity.
  - intros p Hp. by apply elem_of_nil in Hp.
  - reflexivity.
Defined.

(** C9 as stated fails for a session whose metadata has no [parcelId], as
    [POST /payments] creates it from a body without [_id]: that value is
    not a valid ObjectId string, yet [new ObjectId(undefined)] generates an
    id instead of throwing, [updateOne] matches no parcel, and a Payment is
    inserted, with [parcelId: null], and returned with status 200. *)
Lemma settle_without_parcelId_inserts :
  let run :=
    serve (patch_payments_any env0 (λ _, inr paid_no_id) oid_of_b request_sess_1)
      db0 in
  any_payment_status paid_no_id = "paid"
  ∧ any_metadata paid_no_id !! "parcelId" = None
  ∧ paymentsCollection db0 = []
  ∧ run.1.1 = res_json (JDoc (any_payment false paid_no_id "TRK-1" 1000))
  ∧ run.1.2
    = mkDb (parcelsCollection db0)
        [<["_id" := VOid oid_1]> (any_payment true paid_no_id "TRK-1" 1000)]
  ∧ (<["_id" := VOid oid_1]> (any_payment true paid_no_id "TRK-1" 1000))
      !! "parcelId" = Some VNull
  ∧ paymentsCollection run.1.2 ≠ paymentsCollection db0.
Proof.
  intros run.
  assert (Hrun : run =
    (res_json (JDoc (any_payment false paid_no_id "TRK-1" 1000)),
     mkDb (parcelsCollection db0)
       [<["_id" := VOid oid_1]> (any_payment true paid_no_id "TRK-1" 1000)],
     [EvSessionsRetrieve (Some "sess_1");
      EvFindOne Payments {[ "parcelId" := VNull ]};
      EvUpdateOne Parcels {[ "_id" := VOid oid_of_b ]} (paid_set "TRK-1");
      EvInsertOne Payments (any_payment true paid_no_id "TRK-1" 1000)]))
    by (vm_compute; reflexivity).
  rewrite Hrun. cbn [fst snd paymentsCollection].
  split; [reflexivity|]. split; [reflexivity|]. split; [reflexivity|].
  split; [reflexivity|]. split; [reflexivity|].
  split; [vm_compute; reflexivity | discriminate].
Qed.

(** C4. A session that is not paid moves nothing: with no Payment stored for
    its parcelId the request answers [{success: false}] and the store is
    unchanged, no write being issued; a whole sequence of requests whose
    sessions are not paid leaves the store, hence every parcel's
    [paymentStatus], as it was; and no sequence of requests takes a parcel
    out of [paid]. *)
Theorem unpaid_session_changes_nothing :
  (∀ (c : Call) (d : Db) (s : Session),
     retrieved c = Some s →
     payment_status s ≠ "paid" →
     (∀ p, p ∈ paymentsCollection d →
           p !! "parcelId" ≠ Some (VStr (parcelId (metadata s)))) →
     SettleCheckout c d =
       (res_json (JDoc {[ "success" := VBool false ]}), d,
        retrieve_log c (parcelId (metadata s))))
  ∧ (∀ (calls : list Call) (d : Db),
       Forall (λ c, ∀ s, retrieved c = Some s → payment_status s ≠ "paid") calls →
       settle_all calls d = d)
  ∧ (∀ (calls : list Call) (d : Db) (i : nat) (p : Doc),
       parcelsCollection d !! i = Some p → is_paid p →
       ∃ p', parcelsCollection (settle_all calls d) !! i = Some p'
             ∧ is_paid p' ∧ p' !! "_id" = p !! "_id").
Proof.
  split; [|split].
  - intros c d s Hr Hp Hnone. apply retrieved_Some in Hr as (sid & Hsid & Hs).
    unfold retrieve_log. rewrite Hsid.
    apply settle_not_paid; try done. by apply findOne_singleton_None.
  - apply settle_all_not_paid.
  - apply settle_all_keeps_paid.
Qed.

Lemma unpaid_session_changes_nothing_witness :
  let c := call_of unpaid_a "TRK-1" 1000 in
  SettleCheckout c db0 =
    (res_json (JDoc {[ "success" := VBool false ]}), db0, retrieve_log c oid_a)
  ∧ settle_all [c; c; c] db0 = db0
  ∧ ∃ p', parcelsCollection (settle_all [c; c] db_paid) !! 0%nat = Some p'
          ∧ is_paid p'
          ∧ p' !! "_id"
            = (paid_set "TRK-1" ∪ stored_parcel oid_a "unpaid") !! "_id".
Proof.
  intros c. split; [|split].
  - apply (proj1 unpaid_session_changes_nothing c db0 unpaid_a).
    + reflexivity.
    + discriminate.
    + intros p Hp. by apply elem_of_nil in Hp.
  - apply (proj1 (proj2 unpaid_session_changes_nothing)).
    repeat constructor; intros s [= <-]; discriminate.
  - apply (proj2 (proj2 unpaid_session_changes_nothing) [c; c] db_paid 0%nat
             (paid_set "TRK-1" ∪ stored_parcel oid_a "unpaid")).
    + by rewrite db_paid_eq.
    + apply paid_set_status.
Defined.

(** ** The paid branch *)

Lemma matches_id_paid_set (o : ObjectId) (t : string) (p : Doc) :
  matches {[ "_id" := VOid o ]} (paid_set t ∪ p)
  = matches {[ "_id" := VOid o ]} p.
Proof.
  apply eq_true_iff_eq. rewrite !matches_singleton.
  by rewrite paid_set_other.
Qed.

Lemma findOne_updateOne_same (o : ObjectId) (t : string) (l : list Doc) :
  findOne {[ "_id" := VOid o ]} (updateOne {[ "_id" := VOid o ]} (paid_set t) l)
  = (paid_set t ∪.) <$> findOne {[ "_id" := VOid o ]} l.
Proof.
  unfold findOne. induction l as [|x l IH]; [done|]. simpl.
  destruct (matches {[ "_id" := VOid o ]} x) eqn:Hm; simpl.
  - by rewrite matches_id_paid_set, Hm.
  - by rewrite Hm.
Qed.

Lemma findOne_updateOne_other (o o' : ObjectId) (t : string) (l : list Doc) :
  o ≠ o' →
  findOne {[ "_id" := VOid o ]} (updateOne {[ "_id" := VOid o' ]} (paid_set t) l)
  = findOne {[ "_id" := VOid o ]} l.
Proof.
  intros Hne. unfold findOne. induction l as [|x l IH]; [done|]. simpl.
  destruct (matches {[ "_id" := VOid o' ]} x) eqn:Hm'; simpl.
  - rewrite matches_id_paid_set.
    destruct (matches {[ "_id" := VOid o ]} x) eqn:Hm; [|done].
    apply matches_singleton in Hm, Hm'. congruence.
  - destruct (matches {[ "_id" := VOid o ]} x); [done | apply IH].
Qed.

(** C3, as the code has it.  For a paid session whose [metadata.parcelId]
    is a valid ObjectId string [o] and for which no Payment is stored,
    SettleCheckout first updates the first parcel whose [_id] is [o],
    setting [paymentStatus] to [paid] and [trackingId] to the generated
    tracking id and leaving its other fields and every other parcel as they
    were, and then inserts exactly one Payment: the record it answers with,
    holding the amount, currency, customer email, parcelId, parcel name,
    payment status, paid timestamp, [transactionId = session.payment_intent]
    and the same tracking id, to which the store adds its [_id]. *)
Theorem settle_paid_updates_then_inserts
    (c : Call) (d : Db) (s : Session) (o : ObjectId) :
  retrieved c = Some s →
  payment_status s = "paid" →
  (∀ p, p ∈ paymentsCollection d →
        p !! "parcelId" ≠ Some (VStr (parcelId (metadata s)))) →
  new_ObjectId (parcelId (metadata s)) = Some o →
  let t := generateTrackingId (call_env c) in
  let payment := payment_of s t (Date_now (call_env c)) in
  let d' := settle_db d c in
  SettleCheckout c d =
    (res_json (JDoc payment), d',
     (retrieve_log c (parcelId (metadata s))
        ++ [EvUpdateOne Parcels {[ "_id" := VOid o ]} (paid_set t);
            EvInsertOne Payments payment])%list)
  ∧ paymentsCollection d' =
      (paymentsCollection d
         ++ [<["_id" := VOid (fresh_id (call_env c))]> payment])%list
  ∧ payment !! "amount" = Some (VNum (Qred (inject_Z (amount_total s) / 100)))
  ∧ payment !! "currency" = Some (currency s)
  ∧ payment !! "customerEmail" = Some (customer_email s)
  ∧ payment !! "parcelId" = Some (VStr (parcelId (metadata s)))
  ∧ payment !! "parcelName" = Some (VStr (parcelName (metadata s)))
  ∧ payment !! "paymentStatus" = Some (VStr "paid")
  ∧ payment !! "paidAt" = Some (VDate (Date_now (call_env c)))
  ∧ payment !! "transactionId" = Some (payment_intent s)
  ∧ payment !! "trackingId" = Some (VStr t)
  ∧ List.length (parcelsCollection d') = List.length (parcelsCollection d)
  ∧ (∀ p, parcel_of o d = Some p →
          ∃ p', parcel_of o d' = Some p'
                ∧ is_paid p'
                ∧ p' !! "trackingId" = Some (VStr t)
                ∧ ∀ k, k ≠ "paymentStatus" → k ≠ "trackingId" → p' !! k = p !! k)
  ∧ (∀ i q, parcelsCollection d !! i = Some q →
            q !! "_id" ≠ Some (VOid o) →
            parcelsCollection d' !! i = Some q).
Proof.
  intros Hr Hp Hnone Ho t payment d'.
  apply retrieved_Some in Hr as (sid & Hsid & Hs).
  apply findOne_singleton_None in Hnone.
  pose proof (settle_paid c d sid s Hsid Hs o Hnone Hp Ho) as Hrun.
  cbv zeta in Hrun. fold t in Hrun. fold payment in Hrun.
  assert (Hd' : d' = mkDb (updateOne {[ "_id" := VOid o ]} (paid_set t)
                             (parcelsCollection d))
                          (insertOne (fresh_id (call_env c)) payment
                             (paymentsCollection d))).
  { unfold d', settle_db. by rewrite Hrun. }
  destruct (payment_of_fields s t (Date_now (call_env c)))
    as (Ha & Hcur & Hem & Hpid & Hname & Hst & Hat & Htx & Htr).
  fold payment in Ha, Hcur, Hem, Hpid, Hname, Hst, Hat, Htx, Htr.
  rewrite Hp in Hst.
  split.
  { rewrite Hrun, Hd'. unfold retrieve_log. by rewrite Hsid. }
  split.
  { rewrite Hd'. simpl. apply insertOne_payment. }
  do 9 (split; [done|]).
  rewrite Hd'. simpl. split; [apply updateOne_length|]. split.
  - intros p Hfind. unfold parcel_of in *. simpl.
    rewrite findOne_updateOne_same, Hfind. simpl. eexists. split; [done|].
    split; [apply paid_set_status|]. split; [apply paid_set_tracking|].
    intros k Hk1 Hk2. by apply paid_set_other.
  - intros i q Hi Hq.
    destruct (updateOne_lookup {[ "_id" := VOid o ]} (paid_set t) _ _ _ Hi)
      as [H | [Hm _]]; [done|].
    by apply matches_singleton in Hm.
Qed.

Lemma settle_paid_updates_then_inserts_witness :
  let c := call_of paid_a "TRK-1" 1000 in
  let payment := payment_of paid_a "TRK-1" 1000 in
  SettleCheckout c db0 =
    (res_json (JDoc payment), db_paid,
     (retrieve_log c oid_a
        ++ [EvUpdateOne Parcels {[ "_id" := VOid oid_of_a ]} (paid_set "TRK-1");
            EvInsertOne Payments payment])%list)
  ∧ paymentsCollection db_paid = [<["_id" := VOid oid_1]> payment]
  ∧ payment !! "transactionId" = Some (VStr "pi_1")
  ∧ ∃ p', parcel_of oid_of_a db_paid = Some p'
          ∧ is_paid p' ∧ p' !! "trackingId" = Some (VStr "TRK-1").
Proof.
  intros c payment.
  destruct (settle_paid_updates_then_inserts c db0 paid_a oid_of_a)
    as (Hrun & Hpay & _ & _ & _ & _ & _ & _ & _ & Htx & _ & _ & Hparcel & _).
  - reflexivity.
  - reflexivity.
  - intros p Hp. by apply elem_of_nil in Hp.
  - reflexivity.
  - split; [exact Hrun|]. split; [exact Hpay|]. split; [exact Htx|].
    destruct (Hparcel (stored_parcel oid_a "unpaid")) as (p' & H1 & H2 & H3 & _).
    + vm_compute. reflexivity.
    + exists p'. by repeat split.
Defined.

(** C3 as stated fails on the specification's own scenario: a paid session
    with [metadata.parcelId = "P1"] and no Payment stored.  ["P1"] is not an
    ObjectId string, so the request answers 500, the parcel ["P1"] keeps
    [unpaid] and no Payment is inserted. *)
Lemma settle_paid_P1_inserts_nothing :
  let c := call_of paid_P1 "TRK-1" 1000 in
  retrieved c = Some paid_P1
  ∧ payment_status paid_P1 = "paid"
  ∧ parcelId (metadata paid_P1) = "P1"
  ∧ paymentsCollection db_P1 = []
  ∧ status (SettleCheckout c db_P1).1.1 = 500%nat
  ∧ settle_db db_P1 c = db_P1
  ∧ parcelsCollection (settle_db db_P1 c) !! 0%nat
    = Some (stored_parcel "P1" "unpaid")
  ∧ ¬ ∃ payment, paymentsCollection (settle_db db_P1 c)
                 = (paymentsCollection db_P1 ++ [payment])%list.
Proof.
  intros c. repeat split; try reflexivity.
  intros [payment H]. vm_compute in H. discriminate.
Qed.

(** ** Idempotence of settlement *)

Lemma payments_for_insert (pid : string) (fresh : ObjectId) (s : Session)
    (t : string) (now : Z) (l : list Doc) :
  payments_for pid (insertOne fresh (payment_of s t now) l)
  = (payments_for pid l
       ++ if decide (pid = parcelId (metadata s))
          then [<["_id" := VOid fresh]> (payment_of s t now)] else [])%list.
Proof.
  rewrite insertOne_payment. unfold payments_for. rewrite List.filter_app.
  f_equal. simpl.
  destruct (matches {[ "parcelId" := VStr pid ]}
              (<["_id" := VOid fresh]> (payment_of s t now))) eqn:Hm.
  - apply matches_singleton in Hm. rewrite stored_payment_parcelId in Hm.
    injection Hm as <-. by rewrite decide_True.
  - destruct (decide (pid = parcelId (metadata s))) as [->|]; [|done].
    rewrite <- not_true_iff_false, matches_singleton in Hm.
    by destruct Hm; apply stored_payment_parcelId.
Qed.

Lemma settle_db_at_most_one (pid : string) (c : Call) (d : Db) :
  (List.length (payments_for pid (paymentsCollection d)) ≤ 1)%nat →
  (List.length (payments_for pid (paymentsCollection (settle_db d c))) ≤ 1)%nat.
Proof.
  intros Hle.
  destruct (settle_db_cases c d) as [-> | (s & o & _ & _ & Hnone & _ & ->)];
    [done|].
  simpl. rewrite payments_for_insert, length_app.
  destruct (decide (pid = parcelId (metadata s))) as [->|]; simpl; [|lia].
  unfold payments_for. by rewrite (findOne_None_filter _ _ Hnone).
Qed.

Lemma settle_all_at_most_one (pid : string) (calls : list Call) (d : Db) :
  (List.length (payments_for pid (paymentsCollection d)) ≤ 1)%nat →
  (List.length (payments_for pid (paymentsCollection (settle_all calls d))) ≤ 1)%nat.
Proof.
  revert d. induction calls as [|c calls IH]; intros d Hle; [done|].
  simpl. apply IH. by apply settle_db_at_most_one.
Qed.

Lemma insertOne_neq (fresh : ObjectId) (doc : Doc) (l : list Doc) :
  insertOne fresh doc l ≠ l.
Proof.
  unfold insertOne. intros H. apply (f_equal List.length) in H.
  rewrite length_app in H. simpl in H. lia.
Qed.

(** The second of two requests that retrieve the same session writes
    nothing. *)
Lemma settle_twice_same_store (c1 c2 : Call) (d : Db) :
  retrieved c1 = retrieved c2 →
  settle_db (settle_db d c1) c2 = settle_db d c1.
Proof.
  intros Heq.
  destruct (settle_db_cases c1 d) as [H1 | (s & o & Hr & Hp & Hnone & Ho & H1)];
    rewrite H1.
  - destruct (settle_db_cases c2 d) as [H2 | (s & o & Hr & Hp & Hnone & Ho & _)];
      [done|].
    exfalso. rewrite <- Heq in Hr.
    apply retrieved_Some in Hr as (sid & Hsid & Hs).
    pose proof (settle_paid c1 d sid s Hsid Hs o Hnone Hp Ho) as Hrun.
    unfold settle_db in H1. rewrite Hrun in H1. simpl in H1.
    apply (f_equal paymentsCollection) in H1. simpl in H1.
    by apply insertOne_neq in H1.
  - rewrite Heq in Hr. apply retrieved_Some in Hr as (sid & Hsid & Hs).
    unfold settle_db at 1.
    erewrite (settle_existing c2 _ sid s Hsid Hs); [done|].
    simpl. rewrite insertOne_payment. apply findOne_app_new; [done|].
    apply matches_singleton, stored_payment_parcelId.
Qed.

(** C1, as the code has it.  For any sessionId, the second of two
    SettleCheckout calls in sequence that retrieve the same session leaves
    the store as the first call left it.  When that session is paid, names a
    valid ObjectId and has no Payment stored yet, the two calls create
    exactly one Payment document in total: the first call inserts the
    record it answers with, the second answers with the stored document,
    which is that record with the store's [_id] added.  And for every
    parcelId, a payments collection that holds at most one Payment for it
    still holds at most one after any sequence of SettleCheckout calls. *)
Theorem settle_twice_creates_one_payment :
  (∀ (c1 c2 : Call) (d : Db),
     retrieved c1 = retrieved c2 →
     settle_all [c1; c2] d = settle_db d c1)
  ∧ (∀ (c1 c2 : Call) (d : Db) (s : Session) (o : ObjectId),
     retrieved c1 = Some s →
     retrieved c2 = Some s →
     payment_status s = "paid" →
     new_ObjectId (parcelId (metadata s)) = Some o →
     (∀ p, p ∈ paymentsCollection d →
           p !! "parcelId" ≠ Some (VStr (parcelId (metadata s)))) →
     let payment := payment_in c1 s in
     let stored := <["_id" := VOid (fresh_id (call_env c1))]> payment in
     let d1 := settle_db d c1 in
     (SettleCheckout c1 d).1.1 = res_json (JDoc payment)
     ∧ SettleCheckout c2 d1 =
         (res_json (JDoc stored), d1, retrieve_log c2 (parcelId (metadata s)))
     ∧ (∀ k, k ≠ "_id" → stored !! k = payment !! k)
     ∧ paymentsCollection (settle_all [c1; c2] d)
       = (paymentsCollection d ++ [stored])%list
     ∧ payments_for (parcelId (metadata s))
         (paymentsCollection (settle_all [c1; c2] d)) = [stored])
  ∧ (∀ (pid : string) (calls : list Call) (d : Db),
       (List.length (payments_for pid (paymentsCollection d)) ≤ 1)%nat →
       (List.length
          (payments_for pid (paymentsCollection (settle_all calls d))) ≤ 1)%nat).
Proof.
  split; [|split; [|apply settle_all_at_most_one]].
  { intros c1 c2 d Heq. simpl. by apply settle_twice_same_store. }
  intros c1 c2 d s o Hr1 Hr2 Hp Ho Hnone payment stored d1.
  assert (Hall : settle_all [c1; c2] d = d1).
  { simpl. apply settle_twice_same_store. congruence. }
  apply retrieved_Some in Hr1 as (sid1 & Hsid1 & Hs1).
  apply retrieved_Some in Hr2 as (sid2 & Hsid2 & Hs2).
  apply findOne_singleton_None in Hnone.
  pose proof (settle_paid c1 d sid1 s Hsid1 Hs1 o Hnone Hp Ho) as Hrun1.
  assert (Hd1 : paymentsCollection d1 = (paymentsCollection d ++ [stored])%list).
  { unfold d1, settle_db. rewrite Hrun1. cbn [fst snd paymentsCollection].
    exact (insertOne_payment _ s _ _ _). }
  assert (Hm : matches (by_parcelId s) stored = true).
  { apply matches_singleton.
    exact (stored_payment_parcelId _ s _ _). }
  assert (Hfind : findOne (by_parcelId s) (paymentsCollection d1) = Some stored).
  { rewrite Hd1. by apply findOne_app_new. }
  split; [by rewrite Hrun1|]. split.
  { unfold retrieve_log. rewrite Hsid2. by apply settle_existing. }
  split.
  { intros k Hk. unfold stored. by rewrite lookup_insert_ne. }
  rewrite Hall. split; [done|].
  rewrite Hd1. unfold payments_for. rewrite List.filter_app.
  rewrite (findOne_None_filter _ _ Hnone). simpl.
  unfold by_parcelId in Hm. by rewrite Hm.
Qed.

Lemma settle_twice_creates_one_payment_witness :
  let c1 := call_of paid_a "TRK-1" 1000 in
  let c2 := call_of paid_a "TRK-2" 2000 in
  let payment := payment_of paid_a "TRK-1" 1000 in
  let stored := <["_id" := VOid oid_1]> payment in
  settle_all [c1; c2] db0 = settle_db db0 c1
  ∧ ((SettleCheckout c1 db0).1.1 = res_json (JDoc payment)
     ∧ SettleCheckout c2 db_paid
       = (res_json (JDoc stored), db_paid, retrieve_log c2 oid_a)
     ∧ paymentsCollection (settle_all [c1; c2] db0) = [stored])
  ∧ (List.length
       (payments_for oid_a
          (paymentsCollection (settle_all [c1; c2; c1; c2] db0))) ≤ 1)%nat.
Proof.
  intros c1 c2 payment stored. split; [|split].
  - apply (proj1 settle_twice_creates_one_payment c1 c2 db0).
    vm_compute. reflexivity.
  - destruct (proj1 (proj2 settle_twice_creates_one_payment)
                c1 c2 db0 paid_a oid_of_a)
      as (H1 & H2 & _ & H3 & _).
    + reflexivity.
    + reflexivity.
    + reflexivity.
    + reflexivity.
    + intros p Hp. by apply elem_of_nil in Hp.
    + split; [exact H1|]. split; [exact H2 | exact H3].
  - apply (proj2 (proj2 settle_twice_creates_one_payment)). simpl. lia.
Defined.

(** C1 as stated fails for a session that is not paid: both calls answer
    [{success: false}], which is no Payment record, and no Payment document
    is created. *)
Lemma settle_unpaid_twice_creates_nothing :
  let c := call_of unpaid_a "TRK-1" 1000 in
  retrieved c = Some unpaid_a
  ∧ (SettleCheckout c db0).1.1 = res_json (JDoc {[ "success" := VBool false ]})
  ∧ (SettleCheckout c (settle_db db0 c)).1.1
    = res_json (JDoc {[ "success" := VBool false ]})
  ∧ paymentsCollection (settle_all [c; c] db0) = []
  ∧ List.length (paymentsCollection (settle_all [c; c] db0)) ≠ 1%nat.
Proof.
  intros c. repeat split; try reflexivity. vm_compute. discriminate.
Qed.

(** ** Payment records and the parcel's payment status *)

Lemma has_payment_insert (P : string) (fresh : ObjectId) (s : Session)
    (t : string) (now : Z) (ps pays : list Doc) :
  has_payment P (mkDb ps (insertOne fresh (payment_of s t now) pays))
  ↔ has_payment P (mkDb ps pays) ∨ parcelId (metadata s) = P.
Proof.
  unfold has_payment. simpl. rewrite insertOne_payment. split.
  - intros (p & Hin & Hp). apply elem_of_app in Hin as [Hin | Hin].
    + left. eauto.
    + right. apply list_elem_of_singleton in Hin as ->.
      rewrite stored_payment_parcelId in Hp. congruence.
  - intros [(p & Hin & Hp) | <-].
    + exists p. split; [|done]. apply elem_of_app. by left.
    + eexists. split; [|apply stored_payment_parcelId].
      apply elem_of_app. right. by apply list_elem_of_singleton.
Qed.

Section PaymentIffPaid.

Variables (P : string) (o : ObjectId).
Hypothesis HP : new_ObjectId P = Some o.

Lemma settle_db_payment_iff_paid (c : Call) (d : Db) :
  (∀ s, retrieved c = Some s →
        new_ObjectId (parcelId (metadata s)) = Some o →
        parcelId (metadata s) = P) →
  payment_iff_paid P o d → payment_iff_paid P o (settle_db d c).
Proof.
  intros Hsp [[p0 Hp0] Hiff].
  destruct (settle_db_cases c d) as [-> | (s & o' & Hr & Hpaid & Hnone & Ho' & ->)];
    [done|].
  destruct d as [ps pays]. simpl in *. unfold payment_iff_paid, paid_parcel, parcel_of in *.
  simpl in *. rewrite has_payment_insert.
  destruct (decide (o = o')) as [<- | Hne].
  - rewrite findOne_updateOne_same, Hp0. simpl. split; [by eexists|].
    split; [|intros _; right; by apply Hsp].
    intros _. eexists. split; [done | apply paid_set_status].
  - rewrite findOne_updateOne_other by done. split; [by eexists|].
    rewrite <- Hiff. split; [|by left].
    intros [H | <-]; [done|]. congruence.
Qed.

Lemma settle_all_payment_iff_paid (calls : list Call) (d : Db) :
  spelled P o calls → payment_iff_paid P o d → payment_iff_paid P o (settle_all calls d).
Proof.
  intros Hsp. revert d. induction Hsp as [|c calls Hc _ IH]; intros d Hd;
    [done|].
  simpl. apply IH. by apply settle_db_payment_iff_paid.
Qed.

(** C2, as the code has it.  Let [P] be a valid ObjectId string and let a
    parcel be stored whose [_id] is the ObjectId that [P] denotes (not the
    string [P] itself), [unpaid] and with no Payment of [parcelId = P].
    After any sequence of SettleCheckout calls in which the sessions that
    name this parcel spell its id as [P], the parcel is still stored, and a
    Payment with [parcelId = P] is stored if and only if the parcel's
    [paymentStatus] is [paid]. *)
Theorem settle_payment_iff_paid (calls : list Call) (d : Db) (p0 : Doc) :
  parcel_of o d = Some p0 →
  p0 !! "paymentStatus" = Some (VStr "unpaid") →
  ¬ has_payment P d →
  spelled P o calls →
  is_Some (parcel_of o (settle_all calls d))
  ∧ (has_payment P (settle_all calls d) ↔ paid_parcel o (settle_all calls d)).
Proof.
  intros Hp0 Hunpaid Hnone Hsp.
  apply (settle_all_payment_iff_paid calls d Hsp).
  split; [by eexists|]. split; [done|].
  intros (p & Hp & Hpaid). unfold is_paid in Hpaid. congruence.
Qed.

End PaymentIffPaid.

Lemma has_payment_of_insert (o : ObjectId) (fresh : ObjectId) (s : Session)
    (t : string) (now : Z) (ps pays : list Doc) :
  has_payment_of o (mkDb ps (insertOne fresh (payment_of s t now) pays))
  ↔ has_payment_of o (mkDb ps pays)
    ∨ new_ObjectId (parcelId (metadata s)) = Some o.
Proof.
  unfold has_payment_of. simpl. rewrite insertOne_payment. split.
  - intros (p & pid & Hin & Hp & Ho). apply elem_of_app in Hin as [Hin | Hin].
    + left. eauto.
    + right. apply list_elem_of_singleton in Hin as ->.
      rewrite stored_payment_parcelId in Hp. congruence.
  - intros [(p & pid & Hin & Hp & Ho) | Ho].
    + exists p, pid. split; [|done]. apply elem_of_app. by left.
    + eexists _, _. split; [|split; [apply stored_payment_parcelId | done]].
      apply elem_of_app. right. by apply list_elem_of_singleton.
Qed.

(** Read through [new ObjectId], the way the parcel is selected, the
    equivalence needs no proviso on spelling: the parcel [o] is [paid]
    exactly when a Payment is stored whose [parcelId] denotes [o]. *)
Lemma settle_all_payment_of_iff_paid (o : ObjectId) (calls : list Call) (d : Db) :
  is_Some (parcel_of o d) ∧ (has_payment_of o d ↔ paid_parcel o d) →
  is_Some (parcel_of o (settle_all calls d))
  ∧ (has_payment_of o (settle_all calls d) ↔ paid_parcel o (settle_all calls d)).
Proof.
  revert d. induction calls as [|c calls IH]; intros d Hd; [done|].
  simpl. apply IH. clear IH. destruct Hd as [[p0 Hp0] Hiff].
  destruct (settle_db_cases c d) as [-> | (s & o' & Hr & Hpaid & Hnone & Ho' & ->)];
    [by split; [eexists|]|].
  destruct d as [ps pays]. unfold paid_parcel, parcel_of in *. simpl in *.
  rewrite has_payment_of_insert.
  destruct (decide (o = o')) as [<- | Hne].
  - rewrite findOne_updateOne_same, Hp0. simpl. split; [by eexists|].
    split; [|intros _; by right].
    intros _. eexists. split; [done | apply paid_set_status].
  - rewrite findOne_updateOne_other by done. split; [by eexists|].
    rewrite <- Hiff. split; [|by left].
    intros [H | H]; [done | congruence].
Qed.

Lemma settle_payment_iff_paid_witness :
  let calls := [call_of unpaid_a "TRK-0" 500; call_of paid_a "TRK-1" 1000;
                call_of paid_a "TRK-2" 2000] in
  is_Some (parcel_of oid_of_a (settle_all calls db0))
  ∧ (has_payment oid_a (settle_all calls db0)
     ↔ paid_parcel oid_of_a (settle_all calls db0)).
Proof.
  intros calls.
  apply (settle_payment_iff_paid oid_a oid_of_a eq_refl calls db0
           (stored_parcel oid_a "unpaid")).
  - vm_compute. reflexivity.
  - vm_compute. reflexivity.
  - intros (p & Hin & _). by apply elem_of_nil in Hin.
  - repeat constructor; intros s [= <-] _; reflexivity.
Defined.

(** C2 as stated fails when a session names the parcel by another spelling
    of its ObjectId: hexadecimal digits are read in either case, so the
    upper-case id selects the same parcel, which becomes [paid], while the
    Payment is stored under the upper-case [parcelId]. *)
Lemma settle_other_spelling_breaks_iff :
  let c := call_of paid_A "TRK-1" 1000 in
  let d := settle_all [c] db0 in
  new_ObjectId oid_a = Some oid_of_a
  ∧ parcel_of oid_of_a db0 = Some (stored_parcel oid_a "unpaid")
  ∧ stored_parcel oid_a "unpaid" !! "paymentStatus" = Some (VStr "unpaid")
  ∧ ¬ has_payment oid_a db0
  ∧ paid_parcel oid_of_a d
  ∧ ¬ has_payment oid_a d
  ∧ ¬ (has_payment oid_a d ↔ paid_parcel oid_of_a d).
Proof.
  intros c d.
  assert (Hd : d = mkDb [paid_set "TRK-1" ∪ stored_parcel oid_a "unpaid"]
                        [<["_id" := VOid oid_1]> (payment_of paid_A "TRK-1" 1000)])
    by exact db_paid_A_eq.
  assert (Hpaid : paid_parcel oid_of_a d).
  { exists (paid_set "TRK-1" ∪ stored_parcel oid_a "unpaid").
    split; [|apply paid_set_status].
    rewrite Hd. unfold parcel_of, findOne. cbn [parcelsCollection List.find].
    by rewrite stored_parcel_a_matches. }
  assert (Hno : ¬ has_payment oid_a d).
  { intros (p & Hin & Hp). rewrite Hd in Hin. cbn [paymentsCollection] in Hin.
    apply list_elem_of_singleton in Hin. subst p.
    rewrite (stored_payment_parcelId oid_1 paid_A "TRK-1" 1000) in Hp.
    discriminate. }
  split; [reflexivity|]. split; [reflexivity|].
  split; [reflexivity|]. split.
  { intros (p & Hin & _). by apply elem_of_nil in Hin. }
  split; [exact Hpaid|]. split; [exact Hno|].
  intros [_ H]. by apply Hno, H.
Qed.

(** C2 also fails for a parcel that was posted with the string [P] as its
    [_id]: [new ObjectId(P)] selects no parcel, so the parcel stays [unpaid]
    while the Payment with [parcelId = P] is inserted. *)
Lemma settle_string_id_stays_unpaid :
  let d := settle_all [call_of paid_a "TRK-1" 1000] db_string_id in
  new_ObjectId oid_a = Some oid_of_a
  ∧ parcelsCollection db_string_id = [parcel_string_id]
  ∧ parcel_string_id !! "_id" = Some (VStr oid_a)
  ∧ parcel_string_id !! "paymentStatus" = Some (VStr "unpaid")
  ∧ ¬ has_payment oid_a db_string_id
  ∧ parcelsCollection d = [parcel_string_id]
  ∧ has_payment oid_a d.
Proof.
  intros d.
  assert (Hd : d = mkDb [parcel_string_id]
                        [<["_id" := VOid oid_1]> (payment_of paid_a "TRK-1" 1000)])
    by (vm_compute; reflexivity).
  split; [reflexivity|]. split; [reflexivity|]. split; [reflexivity|].
  split; [reflexivity|]. split.
  { intros (p & Hin & _). by apply elem_of_nil in Hin. }
  rewrite Hd. split; [reflexivity|].
  eexists. split; [apply list_elem_of_here|].
  exact (stored_payment_parcelId oid_1 paid_a "TRK-1" 1000).
Qed.

(** ** The owner-scoped listings *)

Lemma verifyFirebaseToken_next (env : Env) (req : Request)
    (email : option string) (next : Request → M Response) :
  authenticated env req email →
  verifyFirebaseToken env req next
  = next (mkRequest (set_email email (headers req)) (query req) (body req)).
Proof.
  intros (a & token & Ha & Hne & Htok & Hv). unfold verifyFirebaseToken.
  rewrite Ha, bool_decide_eq_false_2 by done. by rewrite Htok, Hv.
Qed.

Lemma build_query_one (field : string) (q : gmap string string) :
  build_query [field] q ∅ =
    match q !! field with
    | Some v => if bool_decide (v = "") then ∅ else {[ field := VStr v ]}
    | None => ∅
    end.
Proof.
  simpl. destruct (q !! field) as [v|]; [|done]. by case_bool_decide.
Qed.

Section Listing.

Variable cursor_sort : string → Z → list Doc → list Doc.
Variables (c : Coll) (field : string) (req : Request) (d : Db).

Lemma listing_forbidden :
(match query req !! field with
 | Some v => if bool_decide (v = "") then None else Some v
 | None => None
 end) ≠ headers req !! "email" →
serve (listing cursor_sort c field req) d = (forbidden, d, []).
Proof.
intros Hne. destruct d as [ps pays].
unfold serve, listing, try_catch. cbv zeta.
rewrite build_query_one.
rewrite bool_decide_eq_true_2; [done|].
intros Heq. apply Hne.
destruct (query req !! field) as [v|].
- case_bool_decide.
  + rewrite lookup_empty in Heq. by destruct (headers req !! "email").
  + rewrite lookup_singleton_eq in Heq.
    destruct (headers req !! "email"); simpl in Heq; congruence.
- rewrite lookup_empty in Heq. by destruct (headers req !! "email").
Qed.

Lemma listing_all :
query req !! field = None →
headers req !! "email" = None →
let sortField := or_else (query req !! "sort") "createdAt" in
let sortOrder := if bool_decide (query req !! "order" = Some "asc") then 1 else -1 in
serve (listing cursor_sort c field req) d =
  (res_json (JDocs (cursor_sort sortField sortOrder (coll c d))), d,
   [EvFind c ∅ sortField sortOrder]).
Proof.
intros Hq He. destruct d as [ps pays].
unfold serve, listing, try_catch. cbv zeta.
rewrite build_query_one, Hq, He.
rewrite bool_decide_eq_false_2 by (rewrite lookup_empty; simpl; naive_solver).
unfold db_find, emit, read_coll, mbind, mret, M_bind, M_ret. simpl.
repeat f_equal.
induction (coll c _) as [|x l IH]; [done|]. simpl.
by rewrite matches_empty, IH.
Qed.

End Listing.

Lemma set_email_lookup (email : option string) (h : gmap string string) :
  set_email email h !! "email" = email.
Proof.
  destruct email; simpl; [apply lookup_insert_eq | apply lookup_delete_eq].
Qed.

Lemma guarded_listing_forbidden (cursor_sort : string → Z → list Doc → list Doc)
    (c : Coll) (field : string) (env : Env) (req : Request) (d : Db)
    (e : string) :
  authenticated env req (Some e) →
  query req !! field ≠ Some e →
  serve (verifyFirebaseToken env req (listing cursor_sort c field)) d
  = (forbidden, d, []).
Proof.
  intros Hauth Hq. rewrite (verifyFirebaseToken_next _ _ _ _ Hauth).
  apply listing_forbidden. cbn [headers query]. rewrite set_email_lookup.
  destruct (query req !! field) as [v|]; [|done].
  case_bool_decide; congruence.
Qed.

Lemma guarded_listing_all (cursor_sort : string → Z → list Doc → list Doc)
    (c : Coll) (field : string) (env : Env) (req : Request) (d : Db) :
  authenticated env req None →
  query req !! field = None →
  let sortField := or_else (query req !! "sort") "createdAt" in
  let sortOrder := if bool_decide (query req !! "order" = Some "asc") then 1 else -1 in
  serve (verifyFirebaseToken env req (listing cursor_sort c field)) d
  = (res_json (JDocs (cursor_sort sortField sortOrder (coll c d))), d,
     [EvFind c ∅ sortField sortOrder]).
Proof.
  intros Hauth Hq. rewrite (verifyFirebaseToken_next _ _ _ _ Hauth).
  apply (listing_all cursor_sort c field
           (mkRequest (set_email None (headers req)) (query req) (body req)) d Hq).
  simpl. apply lookup_delete_eq.
Qed.



(** C6, as the code has it.  An authenticated [GET /payments] or
    [GET /parcels] request that supplies no owner filter, made with a token
    that resolves to an email, is answered 403 Forbidden Access without any
    call to the store, whichever email that is: two runs that differ only
    in the authenticated email give the same result.  All the records of
    the collection are returned only to a token that carries no email. *)
Theorem listing_without_owner_filter
    (cursor_sort : string → Z → list Doc → list Doc) (req : Request) (d : Db) :
  query req !! "customerEmail" = None →
  query req !! "senderEmail" = None →
  (∀ env e, authenticated env req (Some e) →
     serve (get_payments cursor_sort env req) d = (forbidden, d, [])
     ∧ serve (get_parcels cursor_sort env req) d = (forbidden, d, []))
  ∧ (∀ env1 env2 e1 e2,
       authenticated env1 req (Some e1) → authenticated env2 req (Some e2) →
       serve (get_payments cursor_sort env1 req) d
       = serve (get_payments cursor_sort env2 req) d
       ∧ serve (get_parcels cursor_sort env1 req) d
         = serve (get_parcels cursor_sort env2 req) d)
  ∧ (∀ env, authenticated env req None →
       let sortField := or_else (query req !! "sort") "createdAt" in
       let sortOrder :=
         if bool_decide (query req !! "order" = Some "asc") then 1 else -1 in
       serve (get_payments cursor_sort env req) d
       = (res_json (JDocs (cursor_sort sortField sortOrder (paymentsCollection d))),
          d, [EvFind Payments ∅ sortField sortOrder])
       ∧ serve (get_parcels cursor_sort env req) d
         = (res_json (JDocs (cursor_sort sortField sortOrder (parcelsCollection d))),
            d, [EvFind Parcels ∅ sortField sortOrder])).
Proof.
  intros Hpay Hpar.
  assert (H403 : ∀ env e, authenticated env req (Some e) →
     serve (get_payments cursor_sort env req) d = (forbidden, d, [])
     ∧ serve (get_parcels cursor_sort env req) d = (forbidden, d, [])).
  { intros env e Hauth. split.
    - apply guarded_listing_forbidden with (e := e); [done | by rewrite Hpay].
    - apply guarded_listing_forbidden with (e := e); [done | by rewrite Hpar]. }
  split; [exact H403|]. split.
  - intros env1 env2 e1 e2 H1 H2.
    destruct (H403 env1 e1 H1) as [-> ->].
    by destruct (H403 env2 e2 H2) as [-> ->].
  - intros env Hauth. split.
    + by apply (guarded_listing_all cursor_sort Payments "customerEmail").
    + by apply (guarded_listing_all cursor_sort Parcels "senderEmail").
Qed.

Lemma listing_without_owner_filter_witness :
  let req := request_of [("authorization", "Bearer tok_a")] [("order", "asc")] in
  serve (get_payments keep_order env0 req) db_paid = (forbidden, db_paid, [])
  ∧ serve (get_parcels keep_order env0 req) db_paid = (forbidden, db_paid, []).
Proof.
  intros req.
  apply (proj1 (listing_without_owner_filter keep_order req db_paid
                  eq_refl eq_refl) env0 "a@x.com").
  bearer "Bearer tok_a" "tok_a".
Defined.

(** C6 as stated fails: authenticated as [a@x.com] and with no
    [customerEmail] parameter, [GET /payments] on a collection that holds a
    Payment answers 403 Forbidden Access, not the records. *)
Lemma get_payments_without_filter_is_forbidden :
  let req := request_of [("authorization", "Bearer tok_a")] [] in
  authenticated env0 req (Some "a@x.com")
  ∧ query req !! "customerEmail" = None
  ∧ paymentsCollection db_paid ≠ []
  ∧ (serve (get_payments keep_order env0 req) db_paid).1.1 = forbidden
  ∧ (serve (get_payments keep_order env0 req) db_paid).1.1
    ≠ res_json (JDocs (keep_order "createdAt" (-1) (paymentsCollection db_paid))).
Proof.
  intros req. split.
  { bearer "Bearer tok_a" "tok_a". }
  assert (Hrun : serve (get_payments keep_order env0 req) db_paid
                 = (forbidden, db_paid, [])).
  { apply guarded_listing_forbidden with (e := "a@x.com");
      [bearer "Bearer tok_a" "tok_a" | discriminate]. }
  split; [reflexivity|]. split; [by rewrite db_paid_eq|].
  rewrite Hrun. split; [reflexivity | discriminate].
Qed.

(** ** Binary64 arithmetic of the amount *)

(** [Math.ceil(bdtAmount / 110) * 100] rounds twice, in the division and in
    the multiplication.  This section follows the two roundings on a charge
    that is a normal double [m * 2^e] below [2^53].  With [k] the ceiling of
    the exact quotient, the charge is at least one unit of its last place
    above [110 * (k - 1)], which puts the exact quotient more than half a
    unit of the quotient's last place above [k - 1]: rounding to nearest
    cannot bring it down to [k - 1], nor take it above the integer [k].
    The product by 100 stays below [2^53], where every integer is a
    double. *)
Section Binary64.

Local Close Scope string_scope.

(** *** Binary digits *)

Lemma digits2_pos_size p : digits2_pos p = Pos.size p.
Proof. induction p; simpl; congruence. Qed.

Lemma bits_pos n : 1 <= bits n.
Proof. unfold bits. lia. Qed.

Lemma bits_bounds n : 2 ^ (bits n - 1) <= Zpos n < 2 ^ bits n.
Proof.
  unfold bits. rewrite digits2_pos_size. split.
  - pose proof (Pos.size_le n) as H.
    assert (Zpos (2 ^ Pos.size n) <= Zpos n~0) as H' by lia.
    rewrite Pos2Z.inj_pow in H'.
    replace (Zpos (Pos.size n)) with (Z.succ (Zpos (Pos.size n) - 1)) in H' by lia.
    rewrite Z.pow_succ_r in H' by lia. lia.
  - pose proof (Pos.size_gt n) as H.
    assert (Zpos n < Zpos (2 ^ Pos.size n)) as H' by lia.
    now rewrite Pos2Z.inj_pow in H'.
Qed.

Lemma bits_unique n d : 2 ^ (d - 1) <= Zpos n < 2 ^ d -> bits n = d.
Proof.
  intros [Hl Hu]. pose proof (bits_bounds n) as [Hl' Hu']. pose proof (bits_pos n).
  assert (0 < d) as Hd.
  { destruct (Z.lt_trichotomy d 0) as [Hn|[->|Hp]]; [|simpl in Hu; lia|lia].
    rewrite Z.pow_neg_r in Hu by lia. lia. }
  destruct (Z.lt_trichotomy (bits n) d) as [Hlt|[->|Hgt]]; [|reflexivity|].
  - assert (2 ^ bits n <= 2 ^ (d - 1)) by (apply Z.pow_le_mono_r; lia). lia.
  - assert (2 ^ d <= 2 ^ (bits n - 1)) by (apply Z.pow_le_mono_r; lia). lia.
Qed.

Lemma Zpos_mantissa n :
  bits n <= 53 -> Zpos (mantissa n) = Zpos n * 2 ^ (53 - bits n).
Proof.
  intros H. unfold mantissa. rewrite Z2Pos.id; [reflexivity|].
  apply Z.mul_pos_pos; [lia|]. apply Z.pow_pos_nonneg; lia.
Qed.

Lemma bits_mantissa n : bits n <= 53 -> bits (mantissa n) = 53.
Proof.
  intros H. apply bits_unique. rewrite Zpos_mantissa by assumption.
  pose proof (bits_bounds n) as [Hl Hu]. pose proof (bits_pos n).
  assert (0 < 2 ^ (53 - bits n)) as Hp by (apply Z.pow_pos_nonneg; lia).
  replace (2 ^ (53 - 1)) with (2 ^ (bits n - 1) * 2 ^ (53 - bits n))
    by (rewrite <- Z.pow_add_r by lia; f_equal; lia).
  replace (2 ^ 53) with (2 ^ bits n * 2 ^ (53 - bits n))
    by (rewrite <- Z.pow_add_r by lia; f_equal; lia).
  split; [apply Z.mul_le_mono_nonneg_r; lia|apply Z.mul_lt_mono_pos_r; lia].
Qed.

(** *** Rounding a mantissa that needs none *)

Lemma fexp_normal e : -1021 <= e -> fexp 53 1024 e = e - 53.
Proof. intros H. unfold fexp, emin. lia. Qed.

Lemma shr_fexp_canonical m e l :
  bits m = 53 -> -1074 <= e ->
  shr_fexp 53 1024 (Zpos m) e l = (shr_record_of_loc (Zpos m) l, e).
Proof.
  intros Hm He. unfold shr_fexp. cbn [Zdigits2]. fold (bits m). rewrite Hm.
  rewrite fexp_normal by lia. replace (53 + e - 53 - e) with 0 by lia. reflexivity.
Qed.

(** A 53-digit mantissa with an exponent in range is already rounded. *)
Lemma round_canonical s m e :
  bits m = 53 -> -1074 <= e <= 971 ->
  binary_round_aux 53 1024 s (Zpos m) e loc_Exact = S754_finite s m e.
Proof.
  intros Hm He. unfold binary_round_aux.
  rewrite shr_fexp_canonical by (assumption || lia).
  cbn [shr_record_of_loc shr_m loc_of_shr_record round_nearest_even].
  rewrite shr_fexp_canonical by (assumption || lia).
  cbn [shr_record_of_loc shr_m].
  replace (e <=? 1024 - 53) with true by (symmetry; apply Z.leb_le; lia).
  reflexivity.
Qed.

(** *** Shifting out zero bits *)

Lemma iter_pos_comm {A} (f : A -> A) p x :
  SpecFloat.iter_pos f p (f x) = f (SpecFloat.iter_pos f p x).
Proof.
  revert x. induction p as [p IH|p IH|]; intros x; cbn [SpecFloat.iter_pos].
  - now rewrite !IH.
  - now rewrite !IH.
  - reflexivity.
Qed.

Lemma iter_pos_succ {A} (f : A -> A) p x :
  SpecFloat.iter_pos f (Pos.succ p) x = f (SpecFloat.iter_pos f p x).
Proof.
  revert x. induction p as [p IH|p IH|]; intros x.
  - change (Pos.succ p~1) with ((Pos.succ p)~0)%positive.
    cbn [SpecFloat.iter_pos]. rewrite !IH. now rewrite !iter_pos_comm.
  - change (Pos.succ p~0) with (p~1)%positive.
    cbn [SpecFloat.iter_pos]. now rewrite !iter_pos_comm.
  - reflexivity.
Qed.

Lemma shr_1_even m :
  0 <= m -> shr_1 (Build_shr_record (2 * m) false false) = Build_shr_record m false false.
Proof. intros H. destruct m as [|p|p]; [reflexivity|reflexivity|lia]. Qed.

Lemma iter_shr_1_exact p m :
  0 <= m ->
  SpecFloat.iter_pos shr_1 p (Build_shr_record (m * 2 ^ Zpos p) false false)
  = Build_shr_record m false false.
Proof.
  intros Hm. induction p as [|p IH] using Pos.peano_ind.
  - cbn [SpecFloat.iter_pos]. replace (m * 2 ^ 1) with (2 * m) by lia.
    now apply shr_1_even.
  - rewrite iter_pos_succ, <- iter_pos_comm.
    rewrite Pos2Z.inj_succ, Z.pow_succ_r by lia.
    replace (m * (2 * 2 ^ Zpos p)) with (2 * (m * 2 ^ Zpos p)) by lia.
    rewrite shr_1_even; [exact IH|].
    apply Z.mul_nonneg_nonneg; [lia|]. apply Z.pow_nonneg. lia.
Qed.

(** A mantissa that is a 53-digit one followed by zero bits rounds to it,
    exactly. *)
Lemma round_shift s (P m : positive) e p :
  Zpos P = Zpos m * 2 ^ Zpos p -> bits m = 53 ->
  -1074 <= e -> e + Zpos p <= 971 ->
  binary_round_aux 53 1024 s (Zpos P) e loc_Exact = S754_finite s m (e + Zpos p).
Proof.
  intros HP Hm He He'.
  assert (bits P = 53 + Zpos p) as HdP.
  { apply bits_unique. rewrite HP. pose proof (bits_bounds m) as [Hl Hu].
    rewrite Hm in Hl, Hu.
    assert (0 < 2 ^ Zpos p) by (apply Z.pow_pos_nonneg; lia).
    replace (53 + Zpos p - 1) with (52 + Zpos p) by lia.
    rewrite !Z.pow_add_r by lia. change (53 - 1) with 52 in Hl.
    split; [apply Z.mul_le_mono_nonneg_r; lia|apply Z.mul_lt_mono_pos_r; lia]. }
  unfold binary_round_aux.
  assert (shr_fexp 53 1024 (Zpos P) e loc_Exact
          = (Build_shr_record (Zpos m) false false, e + Zpos p)) as ->.
  { unfold shr_fexp. cbn [Zdigits2]. fold (bits P). rewrite HdP.
    rewrite fexp_normal by lia.
    replace (53 + Zpos p + e - 53 - e) with (Zpos p) by lia.
    cbn [shr shr_record_of_loc]. rewrite HP.
    now rewrite iter_shr_1_exact by lia. }
  cbn [shr_m loc_of_shr_record round_nearest_even].
  rewrite shr_fexp_canonical by (assumption || lia).
  cbn [shr_record_of_loc shr_m].
  replace (e + Zpos p <=? 1024 - 53) with true by (symmetry; apply Z.leb_le; lia).
  reflexivity.
Qed.

(** *** Integers as doubles *)

Lemma Zpos_iter_xO n k : Zpos (Pos.iter xO n k) = Zpos n * 2 ^ Zpos k.
Proof.
  rewrite (Pos.iter_swap_gen _ _ Zpos xO (Z.mul 2)) by reflexivity.
  change (Pos.iter (Z.mul 2) (Zpos n) k) with (Z.shiftl (Zpos n) (Zpos k)).
  apply Z.shiftl_mul_pow2. lia.
Qed.

(** The double of a positive integer below [2^53] is the integer itself,
    its mantissa shifted to 53 digits. *)
Lemma number_of_Z_pos n :
  bits n <= 53 -> number_of_Z (Zpos n) = S754_finite false (mantissa n) (bits n - 53).
Proof.
  intros H. pose proof (bits_pos n) as H1.
  unfold number_of_Z, binary_normalize, binary_round. fold (bits n).
  rewrite Z.add_0_r, fexp_normal by lia.
  unfold shl_align. rewrite Z.sub_0_r.
  assert (mantissa n = fst (match bits n - 53 with
                            | Zneg d => (Pos.iter xO n d, bits n - 53)
                            | _ => (n, 0)
                            end)) as Hm.
  { apply Pos2Z.inj. rewrite Zpos_mantissa by assumption.
    destruct (bits n - 53) as [|p|p] eqn:E; cbn [fst].
    - replace (53 - bits n) with 0 by lia. lia.
    - lia.
    - rewrite Zpos_iter_xO. f_equal. f_equal. lia. }
  assert (bits n - 53 = snd (match bits n - 53 with
                             | Zneg d => (Pos.iter xO n d, bits n - 53)
                             | _ => (n, 0)
                             end)) as He.
  { destruct (bits n - 53) as [|p|p] eqn:E; cbn [snd]; lia. }
  destruct (match bits n - 53 with
            | Zneg d => (Pos.iter xO n d, bits n - 53)
            | _ => (n, 0)
            end) as [mz ez].
  cbn [fst snd] in Hm, He. subst mz ez.
  apply round_canonical; [now apply bits_mantissa|lia].
Qed.

Lemma bits_below n : Zpos n < 2 ^ 53 -> bits n <= 53.
Proof.
  intros H. pose proof (bits_bounds n) as [Hl _]. pose proof (bits_pos n).
  destruct (Z_le_gt_dec (bits n) 53) as [|Hgt]; [assumption|].
  assert (2 ^ 53 <= 2 ^ (bits n - 1)) by (apply Z.pow_le_mono_r; lia). lia.
Qed.

(** *** The multiplication by 100 *)

(** A product by 100 that stays below [2^53] is exact. *)
Lemma js_mul_100 k :
  100 * Zpos k < 2 ^ 53 ->
  js_mul (number_of_Z (Zpos k)) (number_of_Z 100) = number_of_Z (100 * Zpos k).
Proof.
  intros H.
  assert (bits (100 * k) <= 53) as H100 by (apply bits_below; lia).
  assert (bits k <= 53) as Hk by (apply bits_below; lia).
  change (100 * Zpos k) with (Zpos (100 * k)).
  rewrite (number_of_Z_pos k), (number_of_Z_pos (100 * k)) by assumption.
  replace (number_of_Z 100) with (S754_finite false 7036874417766400 (-46))
    by reflexivity.
  unfold js_mul, SFmul. cbn [xorb].
  pose proof (bits_bounds k) as [Hkl Hku].
  pose proof (bits_bounds (100 * k)) as [Hl Hu].
  pose proof (bits_pos k) as Hk1.
  assert (bits k + 6 <= bits (100 * k)) as Hs.
  { destruct (Z_le_gt_dec (bits k + 6) (bits (100 * k))) as [|Hgt]; [assumption|].
    assert (2 ^ bits (100 * k) <= 2 ^ (bits k - 1 + 6)) as Hle
      by (apply Z.pow_le_mono_r; lia).
    rewrite Z.pow_add_r in Hle by lia. change (2 ^ 6) with 64 in Hle. lia. }
  set (p := bits (100 * k) - bits k + 46).
  replace (bits (100 * k) - 53) with (bits k - 53 + -46 + Zpos (Z.to_pos p))
    by (rewrite Z2Pos.id by lia; lia).
  apply round_shift.
  - rewrite Z2Pos.id by lia. rewrite Pos2Z.inj_mul, !Zpos_mantissa by assumption.
    rewrite Pos2Z.inj_mul.
    change (Zpos 7036874417766400) with (100 * 2 ^ 46).
    replace (Zpos k * 2 ^ (53 - bits k) * (100 * 2 ^ 46))
      with (100 * Zpos k * (2 ^ (53 - bits k) * 2 ^ 46)) by ring.
    rewrite <- !Z.mul_assoc. f_equal. f_equal.
    rewrite <- !Z.pow_add_r by lia. f_equal. lia.
  - now apply bits_mantissa.
  - lia.
  - rewrite Z2Pos.id by lia. lia.
Qed.

(** *** The ceiling *)

(** [Math.ceil] of a positive double that lies in [(k - 1, k]]. *)
Lemma Math_ceil_finite m e k :
  e < 0 -> 1 <= k < 2 ^ 53 ->
  (k - 1) * 2 ^ (- e) < Zpos m <= k * 2 ^ (- e) ->
  Math_ceil (S754_finite false m e) = number_of_Z k.
Proof.
  intros He Hk [Hl Hu]. unfold Math_ceil.
  replace (0 <=? e) with false by (symmetry; apply Z.leb_gt; lia).
  cbn [cond_Zopp].
  assert (0 < 2 ^ (- e)) as Hp by (apply Z.pow_pos_nonneg; lia).
  assert (- Zpos m / 2 ^ (- e) = - k) as ->.
  { symmetry. apply (Z.div_unique_pos _ _ _ (k * 2 ^ (- e) - Zpos m)); lia. }
  rewrite Z.opp_involutive.
  replace (k =? 0) with false by (symmetry; apply Z.eqb_neq; lia).
  reflexivity.
Qed.

(** *** The division by 110 *)

Lemma div_eucl_pair a b : Z.div_eucl a b = (a / b, a mod b).
Proof. unfold Z.div, Z.modulo. now destruct (Z.div_eucl a b). Qed.

(** The division of a normal double by 110, before rounding: the integer
    quotient of [128 * m] by 110, seven binary places further down, and
    where the remainder lies. *)
Lemma SFdiv_core_110 m e :
  bits m = 53 -> -1067 <= e ->
  SFdiv_core_binary 53 1024 (Zpos m) e (Zpos 7740561859543040) (-46)
  = (128 * Zpos m / 110, e - 7, location_110 (128 * Zpos m)).
Proof.
  intros Hm He. unfold SFdiv_core_binary.
  cbn [Zdigits2]. fold (bits m). rewrite Hm.
  replace (Zpos (digits2_pos 7740561859543040)) with 53 by reflexivity.
  replace (53 + e - (53 + -46)) with (e + 46) by lia.
  rewrite fexp_normal by lia.
  replace (e - -46) with (e + 46) by lia.
  rewrite Z.min_l by lia.
  replace (e + 46 - (e + 46 - 53)) with 53 by lia.
  rewrite div_eucl_pair.
  assert (Z.shiftl (Zpos m) 53 = 128 * Zpos m * 2 ^ 46) as ->.
  { rewrite Z.shiftl_mul_pow2 by lia. change (2 ^ 53) with (128 * 2 ^ 46). ring. }
  change (Zpos 7740561859543040) with (110 * 2 ^ 46).
  rewrite Z.div_mul_cancel_r by lia.
  rewrite Z.mul_mod_distr_r by lia.
  f_equal; [f_equal; lia|].
  unfold new_location. replace (Z.even (110 * 2 ^ 46)) with true by reflexivity.
  unfold new_location_even, location_110.
  assert (0 <= (128 * Zpos m) mod 110 < 110) as Hr by (apply Z.mod_pos_bound; lia).
  destruct (Z.eqb_spec ((128 * Zpos m) mod 110) 0) as [E|E].
  - rewrite E. reflexivity.
  - replace ((128 * Zpos m) mod 110 * 2 ^ 46 =? 0) with false
      by (symmetry; apply Z.eqb_neq; lia).
    f_equal. rewrite Z.mul_assoc. symmetry. apply Zmult_compare_compat_r. lia.
Qed.

(** *** Rounding the quotient *)

Lemma loc_of_shr_record_of_loc m l : loc_of_shr_record (shr_record_of_loc m l) = l.
Proof. destruct l as [|[]]; reflexivity. Qed.

Lemma shr_m_record_of_loc m l : shr_m (shr_record_of_loc m l) = m.
Proof. destruct l as [|[]]; reflexivity. Qed.

(** A rounded mantissa that reached [2^53] is taken back to 53 digits. *)
Lemma renormalise s M e :
  2 ^ 52 <= M <= 2 ^ 53 -> -1074 <= e <= 970 ->
  exists Mf sh,
    (let '(mrs, e') := shr_fexp 53 1024 M e loc_Exact in
     match shr_m mrs with
     | Z0 => S754_zero s
     | Zpos m => if e' <=? 1024 - 53 then S754_finite s m e' else S754_infinity s
     | Zneg _ => S754_nan
     end) = S754_finite s Mf (e + sh)
    /\ Zpos Mf * 2 ^ sh = M /\ 0 <= sh <= 1.
Proof.
  intros HM He. destruct (Z.eq_dec M (2 ^ 53)) as [->|Hne].
  - exists 4503599627370496%positive, 1. split; [|split; [reflexivity|lia]].
    unfold shr_fexp. replace (Zdigits2 (2 ^ 53)) with 54 by reflexivity.
    rewrite fexp_normal by lia. replace (54 + e - 53 - e) with 1 by lia.
    change (2 ^ 53) with 9007199254740992.
    cbn [shr SpecFloat.iter_pos shr_record_of_loc shr_1 shr_m orb].
    replace (e + 1 <=? 1024 - 53) with true by (symmetry; apply Z.leb_le; lia).
    reflexivity.
  - destruct M as [|m|m]; try (change (2 ^ 52) with 4503599627370496 in HM; lia).
    assert (bits m = 53) as Hm by (apply bits_unique; change (53 - 1) with 52; lia).
    exists m, 0. split; [|split; [change (2 ^ 0) with 1; lia|lia]].
    rewrite shr_fexp_canonical by (assumption || lia).
    cbn [shr_record_of_loc shr_m]. rewrite Z.add_0_r.
    replace (e <=? 1024 - 53) with true by (symmetry; apply Z.leb_le; lia).
    reflexivity.
Qed.

Lemma round_nearest_even_cases q l :
  round_nearest_even q l = q
  \/ (round_nearest_even q l = q + 1 /\ l <> loc_Exact).
Proof.
  destruct l as [|[]]; cbn [round_nearest_even]; try (left; reflexivity).
  - destruct (Z.even q); [left; reflexivity|right; split; [reflexivity|discriminate]].
  - right. split; [reflexivity|discriminate].
Qed.

(** Rounding to nearest after one bit was shifted out, on twice the
    result: the quotient itself, or an odd quotient moved by one, downwards
    only when the division was exact. *)
Lemma half_round qp l :
  let mrs := shr_1 (shr_record_of_loc (Zpos qp) l) in
  let M := round_nearest_even (shr_m mrs) (loc_of_shr_record mrs) in
  2 * M = Zpos qp
  \/ (2 * M = Zpos qp + 1 /\ (l <> loc_Exact \/ Z.odd (Zpos qp) = true))
  \/ (2 * M = Zpos qp - 1 /\ l = loc_Exact /\ Z.odd (Zpos qp) = true).
Proof.
  destruct l as [|[]], qp as [p|p|];
    cbn [shr_record_of_loc shr_1 orb shr_m loc_of_shr_record round_nearest_even Z.odd];
    try pose proof (Pos2Z.inj_xI p);
    try pose proof (Pos2Z.inj_xO p);
    try destruct (Z.even (Zpos p));
    try (left; lia);
    try (right; left; split; [lia|]; (left; discriminate) || (right; reflexivity));
    try (right; right; split; [lia|split; reflexivity]);
    try (right; right; split; [reflexivity|split; reflexivity]).
Qed.

(** Rounding a 53- or 54-digit quotient [q] that comes with the location
    [l] of the remainder: in units of the quotient's last place the result
    is [q], or [q + 1] when the division was inexact or [q] is odd, or
    [q - 1] when it was exact and [q] is odd. *)
Lemma round_quotient q e l :
  2 ^ 52 <= q < 2 ^ 54 -> -1074 <= e <= 900 ->
  exists Mf sh,
    binary_round_aux 53 1024 false q e l = S754_finite false Mf (e + sh)
    /\ 0 <= sh <= 2
    /\ (Zpos Mf * 2 ^ sh = q
        \/ (Zpos Mf * 2 ^ sh = q + 1 /\ (l <> loc_Exact \/ Z.odd q = true))
        \/ (Zpos Mf * 2 ^ sh = q - 1 /\ l = loc_Exact /\ Z.odd q = true)).
Proof.
  intros Hq He. change (2 ^ 52) with 4503599627370496 in Hq.
  change (2 ^ 54) with 18014398509481984 in Hq.
  destruct q as [|qp|qp]; try lia.
  destruct (Z_lt_ge_dec (Zpos qp) (2 ^ 53)) as [Hlt|Hge].
  - assert (bits qp = 53) as Hs
      by (apply bits_unique; change (2 ^ (53 - 1)) with 4503599627370496; lia).
    unfold binary_round_aux. rewrite shr_fexp_canonical by (assumption || lia).
    rewrite shr_m_record_of_loc, loc_of_shr_record_of_loc.
    change (2 ^ 53) with 9007199254740992 in Hlt.
    destruct (renormalise false (round_nearest_even (Zpos qp) l) e)
      as (Mf & sh & Heq & HV & Hsh).
    { change (2 ^ 52) with 4503599627370496. change (2 ^ 53) with 9007199254740992.
      destruct (round_nearest_even_cases (Zpos qp) l) as [->|[-> _]]; lia. }
    { lia. }
    exists Mf, sh. split; [exact Heq|]. split; [lia|]. rewrite HV.
    destruct (round_nearest_even_cases (Zpos qp) l) as [->|[-> Hl]];
      [left; reflexivity|right; left; split; [reflexivity|left; exact Hl]].
  - assert (bits qp = 54) as Hs
      by (apply bits_unique; change (2 ^ (54 - 1)) with (2 ^ 53);
          change (2 ^ 54) with 18014398509481984; lia).
    change (2 ^ 53) with 9007199254740992 in Hge.
    unfold binary_round_aux.
    assert (shr_fexp 53 1024 (Zpos qp) e l
            = (shr_1 (shr_record_of_loc (Zpos qp) l), e + 1)) as ->.
    { unfold shr_fexp. cbn [Zdigits2]. fold (bits qp). rewrite Hs.
      rewrite fexp_normal by lia. replace (54 + e - 53 - e) with 1 by lia.
      reflexivity. }
    pose proof (half_round qp l) as Hh. cbv zeta in Hh.
    set (M := round_nearest_even (shr_m (shr_1 (shr_record_of_loc (Zpos qp) l)))
                (loc_of_shr_record (shr_1 (shr_record_of_loc (Zpos qp) l)))) in *.
    destruct (renormalise false M (e + 1)) as (Mf & sh & Heq & HV & Hsh).
    { change (2 ^ 52) with 4503599627370496. change (2 ^ 53) with 9007199254740992.
      lia. }
    { lia. }
    exists Mf, (1 + sh). split; [rewrite Z.add_assoc; exact Heq|]. split; [lia|].
    assert (Zpos Mf * 2 ^ (1 + sh) = 2 * M) as ->.
    { rewrite Z.pow_add_r by lia. change (2 ^ 1) with 2. lia. }
    exact Hh.
Qed.

(** ** The amount of a whole charge *)

Lemma location_110_exact t : location_110 t = loc_Exact <-> t mod 110 = 0.
Proof.
  unfold location_110. destruct (Z.eqb_spec (t mod 110) 0); split; intros;
    congruence || discriminate || reflexivity.
Qed.

(** The quotient by 110 of a normal double [m * 2^e] below [2^53], rounded
    to nearest, still has the ceiling of the exact quotient. *)
Lemma usdAmount_normal m e k :
  bits m = 53 -> -1067 <= e <= 0 ->
  110 * (k - 1) * 2 ^ (- e) < Zpos m <= 110 * k * 2 ^ (- e) ->
  usdAmount (S754_finite false m e) = number_of_Z k.
Proof.
  intros Hm He Hk.
  unfold usdAmount.
  replace (number_of_Z 110) with (S754_finite false 7740561859543040 (-46))
    by reflexivity.
  unfold js_div, SFdiv. rewrite SFdiv_core_110 by (assumption || lia). cbn [xorb].
  pose proof (bits_bounds m) as HT. rewrite Hm in HT.
  change (2 ^ (53 - 1)) with 4503599627370496 in HT.
  change (2 ^ 53) with 9007199254740992 in HT.
  pose proof (Z.div_mod (128 * Zpos m) 110 ltac:(lia)) as Hdm.
  pose proof (Z.mod_pos_bound (128 * Zpos m) 110 ltac:(lia)) as Hr.
  pose proof (location_110_exact (128 * Zpos m)) as Hloc.
  destruct (round_quotient (128 * Zpos m / 110) (e - 7)
              (location_110 (128 * Zpos m)))
    as (Mf & sh & Heq & Hsh & HV).
  { change (2 ^ 52) with 4503599627370496. change (2 ^ 54) with 18014398509481984.
    lia. }
  { lia. }
  rewrite Heq.
  set (q := 128 * Zpos m / 110) in *. set (r := (128 * Zpos m) mod 110) in *.
  set (D0 := 2 ^ (- e)) in *.
  assert (0 < D0) as HD0 by (apply Z.pow_pos_nonneg; lia).
  set (D := 2 ^ (- (e - 7 + sh))).
  assert (0 < D) as HD by (apply Z.pow_pos_nonneg; lia).
  assert (128 * D0 = D * 2 ^ sh) as HN.
  { unfold D, D0. rewrite <- Z.pow_add_r by lia. change 128 with (2 ^ 7).
    rewrite <- Z.pow_add_r by lia. f_equal. lia. }
  assert (1 <= k) as Hk1.
  { destruct (Z_le_gt_dec 1 k) as [|Hgt]; [assumption|].
    assert (110 * k * D0 <= 0) by (apply Z.mul_nonpos_nonneg; lia). lia. }
  assert (110 * (k - 1) < 9007199254740992) as Hk53.
  { assert (110 * (k - 1) * 1 <= 110 * (k - 1) * D0)
      by (apply Z.mul_le_mono_nonneg_l; lia). lia. }
  assert ((k - 1) * (128 * D0) < Zpos Mf * 2 ^ sh <= k * (128 * D0)) as HVb.
  { set (a := k * D0) in *.
    replace (110 * k * D0) with (110 * a) in Hk by (unfold a; ring).
    replace (110 * (k - 1) * D0) with (110 * a - 110 * D0) in Hk by (unfold a; ring).
    replace ((k - 1) * (128 * D0)) with (128 * a - 128 * D0) by (unfold a; ring).
    replace (k * (128 * D0)) with (128 * a) by (unfold a; ring).
    destruct HV as [HV|[[HV [Hl|Ho]]|(HV & Hl & Ho)]]; rewrite HV.
    - lia.
    - assert (r <> 0) by (intros E; apply Hl, Hloc, E). lia.
    - apply Z.odd_spec in Ho. destruct Ho as [q2 Hq2]. lia.
    - apply Hloc in Hl. apply Z.odd_spec in Ho. destruct Ho as [q2 Hq2]. lia. }
  apply Math_ceil_finite.
  - lia.
  - change (2 ^ 53) with 9007199254740992. lia.
  - rewrite HN in HVb. fold D.
    replace ((k - 1) * (D * 2 ^ sh)) with ((k - 1) * D * 2 ^ sh) in HVb by ring.
    replace (k * (D * 2 ^ sh)) with (k * D * 2 ^ sh) in HVb by ring.
    assert (0 < 2 ^ sh) as Hp by (apply Z.pow_pos_nonneg; lia).
    destruct HVb as [H1 H2]. split.
    + now apply Z.mul_lt_mono_pos_r in H1.
    + now apply Z.mul_le_mono_pos_r in H2.
Qed.

(** The unit amount computed for it. *)
Lemma amount_normal m e k :
  bits m = 53 -> -1067 <= e <= 0 ->
  110 * (k - 1) * 2 ^ (- e) < Zpos m <= 110 * k * 2 ^ (- e) ->
  js_mul (usdAmount (S754_finite false m e)) (number_of_Z 100)
  = number_of_Z (k * 100).
Proof.
  intros Hm He Hk. rewrite (usdAmount_normal m e k) by assumption.
  pose proof (bits_bounds m) as HT. rewrite Hm in HT.
  change (2 ^ 53) with 9007199254740992 in HT.
  assert (0 < 2 ^ (- e)) as HD0 by (apply Z.pow_pos_nonneg; lia).
  assert (1 <= k) as Hk1.
  { destruct (Z_le_gt_dec 1 k) as [|Hgt]; [assumption|].
    assert (110 * k * 2 ^ (- e) <= 0) by (apply Z.mul_nonpos_nonneg; lia). lia. }
  assert (110 * (k - 1) * 1 <= 110 * (k - 1) * 2 ^ (- e))
    by (apply Z.mul_le_mono_nonneg_l; lia).
  destruct k as [|kp|kp]; try lia.
  rewrite js_mul_100 by (change (2 ^ 53) with 9007199254740992; lia).
  f_equal. lia.
Qed.

(** *** Whole numbers *)

(** The unit amount of a whole charge below [2^53]. *)
Lemma amount_whole c k :
  0 <= c < 2 ^ 53 -> 110 * (k - 1) < c <= 110 * k ->
  js_mul (usdAmount (number_of_Z c)) (number_of_Z 100) = number_of_Z (k * 100).
Proof.
  intros Hc Hk. destruct c as [|n|n]; [| |lia].
  - assert (k = 0) as -> by lia. reflexivity.
  - assert (bits n <= 53) as Hs by (apply bits_below; lia).
    pose proof (bits_pos n) as Hs1.
    rewrite number_of_Z_pos by assumption.
    apply amount_normal.
    + now apply bits_mantissa.
    + lia.
    + rewrite Zpos_mantissa by assumption.
      replace (- (bits n - 53)) with (53 - bits n) by lia.
      assert (0 < 2 ^ (53 - bits n)) by (apply Z.pow_pos_nonneg; lia).
      split; [apply Z.mul_lt_mono_pos_r; lia|apply Z.mul_le_mono_pos_r; lia].
Qed.

Lemma integer_of_number n :
  0 <= n < 2 ^ 53 -> integer_of (number_of_Z n) = Some n.
Proof.
  intros Hn. destruct n as [|p|p]; [reflexivity| |lia].
  assert (bits p <= 53) as Hs by (apply bits_below; lia).
  pose proof (bits_pos p) as Hs1.
  rewrite number_of_Z_pos by assumption. unfold integer_of. cbn [cond_Zopp].
  rewrite Zpos_mantissa by assumption.
  destruct (Z.leb_spec 0 (bits p - 53)) as [H0|H0].
  - replace (bits p - 53) with 0 by lia. replace (53 - bits p) with 0 by lia.
    f_equal. change (2 ^ 0) with 1. lia.
  - replace (- (bits p - 53)) with (53 - bits p) by lia.
    assert (0 < 2 ^ (53 - bits p)) by (apply Z.pow_pos_nonneg; lia).
    rewrite Z.mod_mul by lia. cbn [Z.eqb]. f_equal. apply Z.div_mul. lia.
Qed.

(** *** The value of a double *)

(** Bounds on the rational a positive double is, in integers. *)
Lemma rational_of_bounds m e (c : Q) (a b : Z) :
  e <= 0 ->
  rational_of (S754_finite false m e) = Some c ->
  (inject_Z a < c)%Q -> (c <= inject_Z b)%Q ->
  a * 2 ^ (- e) < Zpos m <= b * 2 ^ (- e).
Proof.
  intros He Hc Hlt Hle. unfold rational_of in Hc. cbn [cond_Zopp] in Hc.
  injection Hc as <-.
  destruct (Z.leb_spec 0 e) as [H0|H0].
  - assert (e = 0) as -> by lia. change (2 ^ (- 0)) with 1.
    change (2 ^ 0) with 1 in Hlt, Hle. rewrite Z.mul_1_r in Hlt, Hle.
    rewrite <- Zlt_Qlt in Hlt. rewrite <- Zle_Qle in Hle. lia.
  - assert (0 < 2 ^ (- e)) as Hp by (apply Z.pow_pos_nonneg; lia).
    unfold Qlt in Hlt. unfold Qle in Hle. cbn [Qnum Qden inject_Z] in Hlt, Hle.
    rewrite Z2Pos.id in Hlt, Hle by assumption. lia.
Qed.

Lemma ceiling_range (m : positive) (e k : Z) :
  bits m = 53 -> e <= 0 ->
  110 * (k - 1) * 2 ^ (- e) < Zpos m <= 110 * k * 2 ^ (- e) ->
  1 <= k /\ k * 100 < 2 ^ 53.
Proof.
  intros Hm He Hk.
  pose proof (bits_bounds m) as HT. rewrite Hm in HT.
  change (2 ^ 53) with 9007199254740992 in *.
  assert (0 < 2 ^ (- e)) as HD0 by (apply Z.pow_pos_nonneg; lia).
  assert (1 <= k) as Hk1.
  { destruct (Z_le_gt_dec 1 k) as [|Hgt]; [assumption|].
    assert (110 * k * 2 ^ (- e) <= 0) by (apply Z.mul_nonpos_nonneg; lia). lia. }
  assert (110 * (k - 1) * 1 <= 110 * (k - 1) * 2 ^ (- e))
    by (apply Z.mul_le_mono_nonneg_l; lia).
  lia.
Qed.

End Binary64.

(** ** Checkout initiation and the settlement amount *)

(** The ceiling of [c/110], in integers. *)
Lemma ceiling_110 (c : Q) :
  (inject_Z (110 * (Qceiling (c / 110) - 1)) < c)%Q
  ∧ (c <= inject_Z (110 * Qceiling (c / 110)))%Q.
Proof.
  pose proof (Qceiling_lt (c / 110)) as Hlt.
  pose proof (Qle_ceiling (c / 110)) as Hle.
  set (k := Qceiling (c / 110)) in *. destruct c as [n d].
  unfold Qlt, Qle, Qdiv, Qmult, Qinv in *.
  cbn [Qnum Qden inject_Z] in *.
  rewrite Pos2Z.inj_mul in Hlt, Hle. lia.
Qed.

Lemma post_payments_run (env : Env) (req : Request) (d : Db) :
  serve (post_payments env req) d =
    (match sessions_create env (create_params env (body req)) with
     | inr session => res_json (JDoc {[ "url" := VStr (url session) ]})
     | inl err => mkResponse 500 (error err)
     end,
     d, [EvSessionsCreate (create_params env (body req))]).
Proof.
  destruct d as [ps pays].
  unfold serve, post_payments, try_catch, stripe_create, emit, mbind, mret,
    M_bind, M_ret. simpl.
  by destruct (sessions_create env (create_params env (body req))).
Qed.

(** What InitiateCheckout computes for a charge that is a normal double
    [m * 2^e] below [2^53]. *)
Lemma amount_of_charge (m : positive) (e : Z) (c : Q) :
  bits m = 53 → (-1067 ≤ e ≤ 0)%Z →
  rational_of (S754_finite false m e) = Some c →
  let usd := Qceiling (c / 110) in
  usdAmount (S754_finite false m e) = number_of_Z usd
  ∧ js_mul (usdAmount (S754_finite false m e)) (number_of_Z 100)
    = number_of_Z (usd * 100)
  ∧ integer_of (number_of_Z usd) = Some usd
  ∧ integer_of (number_of_Z (usd * 100)) = Some (usd * 100).
Proof.
  intros Hm He Hc usd. destruct (ceiling_110 c) as [Hlo Hhi]. fold usd in Hlo, Hhi.
  pose proof (rational_of_bounds m e c _ _ (proj2 He) Hc Hlo Hhi) as Hk.
  destruct (ceiling_range m e usd Hm (proj2 He) Hk) as [Hk1 Hk2].
  split; [by apply usdAmount_normal|]. split; [by apply amount_normal|].
  change (2 ^ 53) with 9007199254740992 in Hk2.
  split; apply integer_of_number; change (2 ^ 53) with 9007199254740992; lia.
Qed.

(** C5, as the code has it.  For a parcel whose charge [c] is a normal
    double from [2^-1015] up to, but not including, [2^53] (a positive
    double [m * 2^e] with a 53-digit mantissa and [-1067 <= e <= 0]),
    InitiateCheckout computes the settlement amount [ceil(c/110)] and makes
    one call to the provider, with a single line item in currency [usd]
    whose unit amount is the double of the integer [ceil(c/110) * 100], the
    parcel's name as product name and quantity 1, mode [payment], metadata
    [{parcelId, parcelName}] and the parcel's [senderEmail] as customer
    email; the store is not touched.  A charge of 1100 gives 10 units and
    the minor amount 1000; the parcel
    [{_id: "P1", charge: 2200, parcelName: "Box", senderEmail: "a@x.com"}]
    gives the unit amount 2000. *)
Theorem initiate_checkout_request (env : Env) (req : Request) (d : Db)
    (m : positive) (e : Z) (c : Q) :
  let parcel := body req in
  Parcel.charge parcel = S754_finite false m e →
  bits m = 53 →
  (-1067 ≤ e ≤ 0)%Z →
  rational_of (Parcel.charge parcel) = Some c →
  let usd := Qceiling (c / 110) in
  let params :=
    {| line_items :=
         [ {| price_data :=
                {| price_currency := "usd";
                   unit_amount := number_of_Z (usd * 100);
                   product_data_name := Parcel.parcelName parcel |};
              quantity := 1 |} ];
       mode := "payment";
       create_metadata :=
         {| parcelId := Parcel._id parcel;
            parcelName := Parcel.parcelName parcel |};
       create_customer_email := Parcel.senderEmail parcel;
       success_url :=
         SITE_DOMAIN env
           ++ "/dashboard/payment-success?sessionId={CHECKOUT_SESSION_ID}";
       cancel_url := SITE_DOMAIN env ++ "/dashboard/payment-cancelled" |} in
  usdAmount (Parcel.charge parcel) = number_of_Z usd
  ∧ integer_of (number_of_Z usd) = Some usd
  ∧ integer_of (number_of_Z (usd * 100)) = Some (usd * 100)
  ∧ (serve (post_payments env req) d).2 = [EvSessionsCreate params]
  ∧ (serve (post_payments env req) d).1.2 = d
  ∧ (serve (post_payments env req) d).1.1
    = match sessions_create env params with
      | inr session => res_json (JDoc {[ "url" := VStr (url session) ]})
      | inl err => mkResponse 500 (error err)
      end
  ∧ usdAmount (number_of_Z 1100) = number_of_Z 10
  ∧ map (λ i, unit_amount (price_data i))
        (line_items (create_params env parcel_1100)) = [number_of_Z 1000]
  ∧ line_items (create_params env parcel_box)
    = [mkLineItem (mkPriceData "usd" (number_of_Z 2000) "Box") 1]
  ∧ create_metadata (create_params env parcel_box) = mkMetadata "P1" "Box".
Proof.
  intros parcel Hcharge Hm He Hc usd params.
  rewrite Hcharge in Hc |- *.
  destruct (amount_of_charge m e c Hm He Hc) as (Husd & Hamount & Hint & Hint').
  fold usd in Husd, Hamount, Hint, Hint'.
  assert (Hparams : create_params env (body req) = params).
  { unfold create_params, params. fold parcel. by rewrite Hcharge, Hamount. }
  rewrite post_payments_run, Hparams. cbn [fst snd].
  split; [exact Husd|]. split; [exact Hint|]. split; [exact Hint'|].
  split; [reflexivity|]. split; [reflexivity|]. split; [reflexivity|].
  split; [vm_compute; reflexivity|]. split; [vm_compute; reflexivity|].
  split; [vm_compute; reflexivity|]. reflexivity.
Qed.

Lemma initiate_checkout_request_witness :
  (serve (post_payments env0 (request_of [] [])) db0).2
  = [EvSessionsCreate
       {| line_items :=
            [mkLineItem (mkPriceData "usd" (number_of_Z (20 * 100)) "Box") 1];
          mode := "payment";
          create_metadata := mkMetadata "P1" "Box";
          create_customer_email := "a@x.com";
          success_url :=
            SITE_DOMAIN env0
              ++ "/dashboard/payment-success?sessionId={CHECKOUT_SESSION_ID}";
          cancel_url := SITE_DOMAIN env0 ++ "/dashboard/payment-cancelled" |}].
Proof.
  apply (initiate_checkout_request env0 (request_of [] []) db0
           4837851162214400 (-41) (4837851162214400 # 2199023255552)).
  - vm_compute. reflexivity.
  - reflexivity.
  - lia.
  - vm_compute. reflexivity.
Defined.

(** C5 as stated fails for a charge that binary64 division takes to zero:
    the least positive double, which the JSON number [5e-324] denotes, is a
    positive charge [c] with [ceil(c/110) = 1], but [c / 110] rounds to 0,
    so the unit amount sent is 0 and not 100. *)
Lemma initiate_checkout_tiny_charge :
  valid_binary 53 1024 (Parcel.charge parcel_tiny) = true
  ∧ (∃ c, rational_of (Parcel.charge parcel_tiny) = Some c
          ∧ (0 < c)%Q ∧ Qceiling (c / 110) = 1)
  ∧ usdAmount (Parcel.charge parcel_tiny) = S754_zero false
  ∧ map (λ i, unit_amount (price_data i))
        (line_items (create_params env0 parcel_tiny)) = [S754_zero false]
  ∧ integer_of (S754_zero false) = Some 0
  ∧ number_of_Z (1 * 100) ≠ S754_zero false
  ∧ (serve (post_payments env0 (mkRequest ∅ ∅ parcel_tiny)) db0).2
    = [EvSessionsCreate (create_params env0 parcel_tiny)].
Proof.
  split; [reflexivity|]. split.
  { eexists. split; [reflexivity|]. split; [reflexivity|].
    vm_compute. reflexivity. }
  split; [vm_compute; reflexivity|]. split; [vm_compute; reflexivity|].
  split; [reflexivity|]. split; [vm_compute; discriminate|].
  by rewrite post_payments_run.
Qed.

Lemma Qred_cents (k : Z) : Qred (inject_Z (k * 100) / 100) = inject_Z k.
Proof.
  rewrite <- (Qcanon.Qred_identity (inject_Z k)) by apply Z.gcd_1_r.
  apply Qred_complete. unfold Qeq. simpl. lia.
Qed.

(** C10, as the code has it.  Let the charge [c] of a parcel be a normal
    double from [2^-1015] up to, but not including, [2^53].  The line item
    InitiateCheckout sends then has the unit amount [ceil(c/110) * 100];
    when the session's [amount_total] is that amount, quantity 1, the
    payment SettleCheckout builds has [amount = ceil(c/110)], and so has the
    Payment document it stores when the session is paid. *)
Theorem amount_round_trip (env : Env) (parcel : Parcel.t) (s : Session)
    (m : positive) (e : Z) (c : Q) :
  Parcel.charge parcel = S754_finite false m e →
  bits m = 53 →
  (-1067 ≤ e ≤ 0)%Z →
  rational_of (Parcel.charge parcel) = Some c →
  map (λ i, (integer_of (unit_amount (price_data i)), quantity i))
      (line_items (create_params env parcel)) = [(Some (amount_total s), 1)] →
  let usd := Qceiling (c / 110) in
  map (λ i, unit_amount (price_data i))
      (line_items (create_params env parcel)) = [number_of_Z (usd * 100)]
  ∧ amount_total s = usd * 100
  ∧ (∀ t now, payment_of s t now !! "amount" = Some (VNum (inject_Z usd)))
  ∧ (∀ (call : Call) (d : Db) (o : ObjectId),
       retrieved call = Some s →
       payment_status s = "paid" →
       (∀ p, p ∈ paymentsCollection d →
             p !! "parcelId" ≠ Some (VStr (parcelId (metadata s)))) →
       new_ObjectId (parcelId (metadata s)) = Some o →
       ∃ stored,
         paymentsCollection (settle_db d call)
         = (paymentsCollection d ++ [stored])%list
         ∧ stored !! "amount" = Some (VNum (inject_Z usd))).
Proof.
  intros Hcharge Hm He Hc Hsent usd.
  rewrite Hcharge in Hc.
  destruct (amount_of_charge m e c Hm He Hc) as (_ & Hamount & _ & Hint).
  fold usd in Hamount, Hint.
  assert (Hitems : map (λ i, unit_amount (price_data i))
                     (line_items (create_params env parcel))
                   = [number_of_Z (usd * 100)]).
  { unfold create_params. cbn [line_items map price_data unit_amount].
    by rewrite Hcharge, Hamount. }
  assert (Htotal : amount_total s = usd * 100).
  { unfold create_params in Hsent.
    cbn [line_items map price_data unit_amount quantity] in Hsent.
    rewrite Hcharge, Hamount, Hint in Hsent. congruence. }
  assert (Hpayment : ∀ t now,
    payment_of s t now !! "amount" = Some (VNum (inject_Z usd))).
  { intros t now. destruct (payment_of_fields s t now) as [-> _].
    by rewrite Htotal, Qred_cents. }
  split; [exact Hitems|]. split; [exact Htotal|]. split; [exact Hpayment|].
  intros call d o Hr Hp Hnone Ho.
  apply retrieved_Some in Hr as (sid & Hsid & Hs).
  apply findOne_singleton_None in Hnone.
  unfold settle_db. rewrite (settle_paid call d sid s Hsid Hs o Hnone Hp Ho).
  unfold payment_in. simpl. rewrite insertOne_payment. eexists. split; [done|].
  rewrite lookup_insert_ne by done. apply Hpayment.
Qed.

Lemma amount_round_trip_witness :
  map (λ i, unit_amount (price_data i))
      (line_items (create_params env0 parcel_box)) = [number_of_Z (20 * 100)]
  ∧ amount_total paid_a = 20 * 100
  ∧ (∀ t now, payment_of paid_a t now !! "amount" = Some (VNum (inject_Z 20)))
  ∧ ∀ (call : Call) (d : Db) (o : ObjectId),
      retrieved call = Some paid_a →
      payment_status paid_a = "paid" →
      (∀ p, p ∈ paymentsCollection d →
            p !! "parcelId" ≠ Some (VStr (parcelId (metadata paid_a)))) →
      new_ObjectId (parcelId (metadata paid_a)) = Some o →
      ∃ stored,
        paymentsCollection (settle_db d call)
        = (paymentsCollection d ++ [stored])%list
        ∧ stored !! "amount" = Some (VNum (inject_Z 20)).
Proof.
  apply (amount_round_trip env0 parcel_box paid_a
           4837851162214400 (-41) (4837851162214400 # 2199023255552)).
  - vm_compute. reflexivity.
  - reflexivity.
  - lia.
  - vm_compute. reflexivity.
  - vm_compute. reflexivity.
Defined.

(** C10 as stated fails for a charge beyond [2^53]: for the charge [10^18]
    the settlement amount [ceil(c/110)] is 9090909090909091 and the minor
    amount 909090909090909100, but the quotient and the product are rounded
    to doubles and the unit amount sent is 909090909090909056; a session
    with that [amount_total] gives a payment whose amount is not
    [ceil(c/110)]. *)
Lemma amount_round_trip_large_charge :
  rational_of (Parcel.charge parcel_large) = Some (inject_Z (10 ^ 18))
  ∧ Qceiling (inject_Z (10 ^ 18) / 110) = 9090909090909091
  ∧ map (λ i, integer_of (unit_amount (price_data i)))
        (line_items (create_params env0 parcel_large))
    = [Some 909090909090909056]
  ∧ 909090909090909056 ≠ 9090909090909091 * 100
  ∧ payment_of (session_of "paid" oid_a 909090909090909056) "TRK-1" 1000
      !! "amount"
    ≠ Some (VNum (inject_Z 9090909090909091)).
Proof.
  split; [vm_compute; reflexivity|]. split; [vm_compute; reflexivity|].
  split; [vm_compute; reflexivity|]. split; [discriminate|].
  destruct (payment_of_fields (session_of "paid" oid_a 909090909090909056)
              "TRK-1" 1000) as [-> _].
  vm_compute. discriminate.
Qed.

(** * Further properties of the routes *)

(** ** The token guard *)

Lemma verifyFirebaseToken_verified (env : Env) (req : Request)
    (next : Request → M Response) :
  verifyFirebaseToken env req next
  = match verified env req with
    | Some req' => next req'
    | None => mret unauthorized
    end.
Proof.
  unfold verifyFirebaseToken, verified.
  destruct (headers req !! "authorization") as [a|]; [|done].
  case_bool_decide; [done|].
  destruct (split_space a !! 1%nat) as [token|]; [|done].
  by destruct (verifyIdToken env token).
Qed.

Lemma verified_Some (env : Env) (req req' : Request) :
  verified env req = Some req' ↔
  ∃ email, authenticated env req email ∧ req' = handed_on req email.
Proof.
  unfold verified, authenticated, handed_on. split.
  - destruct (headers req !! "authorization") as [a|]; [|done].
    case_bool_decide as Ha; [done|].
    destruct (split_space a !! 1%nat) as [token|] eqn:Ht; [|done].
    destruct (verifyIdToken env token) as [email|] eqn:Hv; [|done].
    intros [= <-]. exists email. split; [|done]. by exists a, token.
  - intros (email & (a & token & -> & Ha & -> & ->) & ->).
    by rewrite bool_decide_eq_false_2.
Qed.

Lemma verified_None (env : Env) (req : Request) :
  verified env req = None ↔ ∀ email, ¬ authenticated env req email.
Proof.
  split.
  - intros Hn email Hauth.
    assert (verified env req = Some (handed_on req email)) as Hs
      by (apply verified_Some; eauto).
    congruence.
  - intros Hn. destruct (verified env req) as [req'|] eqn:Hv; [|done].
    apply verified_Some in Hv as (email & Hauth & _). by destruct (Hn email).
Qed.

(** X1.  [verifyFirebaseToken] lets a request through exactly when its
    [Authorization] header is non-empty, has a second space-separated word
    and the verifier accepts that word.  The handler then sees the token's
    email as [headers.email], whatever [email] header the client sent, and
    every other header, the query and the body unchanged.  Otherwise the
    answer is 401 Unauthorized Access, and the handler does not run: the
    store is untouched and no call is made. *)
Theorem token_guard_decides (env : Env) (req : Request)
    (next : Request → M Response) (d : Db) :
  (∃ email,
     authenticated env req email
     ∧ headers (handed_on req email) !! "email" = email
     ∧ (∀ k, k ≠ "email" →
             headers (handed_on req email) !! k = headers req !! k)
     ∧ query (handed_on req email) = query req
     ∧ body (handed_on req email) = body req
     ∧ verifyFirebaseToken env req next = next (handed_on req email))
  ∨ ((∀ email, ¬ authenticated env req email)
     ∧ serve (verifyFirebaseToken env req next) d = (unauthorized, d, [])).
Proof.
  rewrite verifyFirebaseToken_verified.
  destruct (verified env req) as [req'|] eqn:Hv.
  - left. apply verified_Some in Hv as (email & Hauth & ->).
    exists email. split; [done|]. split; [apply set_email_lookup|].
    split; [|done].
    intros k Hk. unfold handed_on. cbn [headers].
    destruct email; simpl; [by rewrite lookup_insert_ne | by rewrite lookup_delete_ne].
  - right. split; [by apply verified_None|]. by destruct d.
Qed.

Lemma append_cons (a : ascii) (s t : string) :
  String a s ++ t = String a (s ++ t).
Proof. reflexivity. Qed.

Lemma append_empty (s : string) : s ++ "" = s.
Proof.
  induction s as [|a s IH]; [reflexivity|]. by rewrite append_cons, IH.
Qed.

Lemma split_space_word (w rest : string) :
  has_space w = false →
  split_space (w ++ String " " rest) = w :: split_space rest.
Proof.
  induction w as [|a w IH]; [reflexivity|].
  rewrite append_cons. cbn [has_space split_space].
  destruct (Ascii.eqb a " ") eqn:Ha; [done|]. cbn [orb]. intros Hw.
  by rewrite IH.
Qed.

Lemma split_space_head (w : string) :
  has_space w = false → split_space w = [w].
Proof.
  induction w as [|a w IH]; [reflexivity|]. cbn [has_space split_space].
  destruct (Ascii.eqb a " ") eqn:Ha; [done|]. cbn [orb]. intros Hw.
  by rewrite IH.
Qed.

Lemma split_space_second (scheme token rest : string) :
  has_space scheme = false →
  has_space token = false →
  rest = "" ∨ (∃ r, rest = String " " r) →
  split_space (scheme ++ String " " (token ++ rest)) !! 1%nat = Some token.
Proof.
  intros Hs Ht Hrest. rewrite split_space_word by done.
  destruct Hrest as [-> | [r ->]].
  - rewrite append_empty. by rewrite split_space_head.
  - by rewrite split_space_word.
Qed.

(** X2.  The guard never looks at the scheme: the token is the second
    space-separated word of the [Authorization] header, so [Bearer tok],
    [Basic tok], a header that starts with the space, and a header with
    further words after the token are all let through when the verifier
    accepts [tok]. *)
Theorem token_guard_ignores_scheme (env : Env) (req : Request)
    (scheme token rest : string) (email : option string) :
  has_space scheme = false →
  has_space token = false →
  rest = "" ∨ (∃ r, rest = String " " r) →
  headers req !! "authorization" = Some (scheme ++ String " " (token ++ rest)) →
  verifyIdToken env token = Some email →
  authenticated env req email
  ∧ ∀ next, verifyFirebaseToken env req next = next (handed_on req email).
Proof.
  intros Hs Ht Hrest Hh Hv.
  assert (Hauth : authenticated env req email).
  { exists (scheme ++ String " " (token ++ rest)), token.
    split; [done|]. split; [by destruct scheme; rewrite ?append_cons|].
    split; [by apply split_space_second | done]. }
  split; [done|]. intros next. by apply verifyFirebaseToken_next.
Qed.

Lemma token_guard_ignores_scheme_witness :
  let req := request_of [("authorization", "Basic tok_a and more")] [] in
  authenticated env0 req (Some "a@x.com")
  ∧ ∀ next, verifyFirebaseToken env0 req next
            = next (handed_on req (Some "a@x.com")).
Proof.
  intros req.
  apply (token_guard_ignores_scheme env0 req "Basic" "tok_a" " and more").
  - reflexivity.
  - reflexivity.
  - right. by eexists.
  - reflexivity.
  - reflexivity.
Defined.

(** ** The owner-scoped listings, when they answer *)

Lemma listing_own (cursor_sort : string → Z → list Doc → list Doc)
    (c : Coll) (field : string) (req : Request) (d : Db) (e : string) :
  query req !! field = Some e →
  e ≠ "" →
  headers req !! "email" = Some e →
  let sortField := or_else (query req !! "sort") "createdAt" in
  let sortOrder := if bool_decide (query req !! "order" = Some "asc") then 1 else -1 in
  serve (listing cursor_sort c field req) d =
    (res_json (JDocs (cursor_sort sortField sortOrder
                        (List.filter (matches {[ field := VStr e ]}) (coll c d)))),
     d, [EvFind c {[ field := VStr e ]} sortField sortOrder]).
Proof.
  intros Hq Hne He. destruct d as [ps pays].
  unfold serve, listing, try_catch. cbv zeta.
  rewrite build_query_one, Hq, He.
  rewrite (bool_decide_eq_false_2 (e = "")) by done.
  rewrite lookup_singleton_eq. cbn [fmap option_fmap option_map].
  by rewrite (bool_decide_eq_false_2 (Some (VStr e) ≠ Some (VStr e)))
    by naive_solver.
Qed.

Lemma guarded_listing_cases (cursor_sort : string → Z → list Doc → list Doc)
    (c : Coll) (field : string) (env : Env) (req : Request) (d : Db)
    (e : string) :
  authenticated env req (Some e) →
  let sortField := or_else (query req !! "sort") "createdAt" in
  let sortOrder := if bool_decide (query req !! "order" = Some "asc") then 1 else -1 in
  serve (verifyFirebaseToken env req (listing cursor_sort c field)) d =
    if bool_decide (query req !! field = Some e ∧ e ≠ "")
    then (res_json (JDocs (cursor_sort sortField sortOrder
                             (List.filter (matches {[ field := VStr e ]})
                                (coll c d)))),
          d, [EvFind c {[ field := VStr e ]} sortField sortOrder])
    else (forbidden, d, []).
Proof.
  intros Hauth sortField sortOrder.
  rewrite (verifyFirebaseToken_next _ _ _ _ Hauth).
  case_bool_decide as Hcase.
  - destruct Hcase as [Hq Hne].
    apply (listing_own cursor_sort c field
             (mkRequest (set_email (Some e) (headers req)) (query req) (body req))
             d e Hq Hne).
    cbn [headers]. apply set_email_lookup.
  - apply listing_forbidden. cbn [headers query]. rewrite set_email_lookup.
    destruct (query req !! field) as [v|]; [|done].
    case_bool_decide as Hv; [done|]. intros [= ->]. by apply Hcase.
Qed.





(** X4.  With the owner parameter equal to the authenticated email (which
    is not empty), the listing answers 200 with all of the caller's
    documents, as the store sorts them by [sort] (default [createdAt]) in
    the order [order] (ascending for [asc], descending otherwise), and makes
    the one [find] call. *)
Theorem listing_returns_own (cursor_sort : string → Z → list Doc → list Doc)
    (env : Env) (req : Request) (d : Db) (e : string) :
  authenticated env req (Some e) →
  e ≠ "" →
  let sortField := or_else (query req !! "sort") "createdAt" in
  let sortOrder := if bool_decide (query req !! "order" = Some "asc") then 1 else -1 in
  (query req !! "customerEmail" = Some e →
   serve (get_payments cursor_sort env req) d =
     (res_json (JDocs (cursor_sort sortField sortOrder
        (List.filter (matches {[ "customerEmail" := VStr e ]})
           (paymentsCollection d)))),
      d, [EvFind Payments {[ "customerEmail" := VStr e ]} sortField sortOrder]))
  ∧ (query req !! "senderEmail" = Some e →
     serve (get_parcels cursor_sort env req) d =
       (res_json (JDocs (cursor_sort sortField sortOrder
          (List.filter (matches {[ "senderEmail" := VStr e ]})
             (parcelsCollection d)))),
        d, [EvFind Parcels {[ "senderEmail" := VStr e ]} sortField sortOrder])).
Proof.
  intros Hauth Hne sortField sortOrder. split; intros Hq.
  - unfold get_payments. rewrite (guarded_listing_cases _ _ _ _ _ _ _ Hauth).
    by rewrite bool_decide_eq_true_2.
  - unfold get_parcels. rewrite (guarded_listing_cases _ _ _ _ _ _ _ Hauth).
    by rewrite bool_decide_eq_true_2.
Qed.

Lemma listing_returns_own_witness :
  let req := request_of [("authorization", "Bearer tok_a")]
                        [("customerEmail", "a@x.com"); ("order", "asc")] in
  serve (get_payments keep_order env0 req) db_paid =
    (res_json (JDocs (List.filter (matches {[ "customerEmail" := VStr "a@x.com" ]})
                        (paymentsCollection db_paid))),
     db_paid, [EvFind Payments {[ "customerEmail" := VStr "a@x.com" ]} "createdAt" 1]).
Proof.
  intros req.
  apply (proj1 (listing_returns_own keep_order env0 req db_paid "a@x.com"
                  ltac:(bearer "Bearer tok_a" "tok_a") ltac:(discriminate))).
  reflexivity.
Defined.

(** ** Settlement: what it does not check, and what it keeps *)

Lemma updateOne_no_match (f set : Doc) (l : list Doc) :
  findOne f l = None → updateOne f set l = l.
Proof.
  unfold findOne. induction l as [|x l IH]; [done|]. simpl.
  destruct (matches f x); [done|]. intros H. by rewrite IH.
Qed.

(** X5.  SettleCheckout does not check that the parcel exists: for a paid
    session with a valid id that selects no stored parcel and has no
    Payment, [updateOne] matches nothing, the parcels are unchanged, and the
    Payment is inserted and returned all the same. *)
Theorem settle_paid_without_parcel (c : Call) (d : Db) (s : Session) (o : ObjectId) :
  retrieved c = Some s →
  payment_status s = "paid" →
  (∀ p, p ∈ paymentsCollection d →
        p !! "parcelId" ≠ Some (VStr (parcelId (metadata s)))) →
  new_ObjectId (parcelId (metadata s)) = Some o →
  parcel_of o d = None →
  SettleCheckout c d =
    (res_json (JDoc (payment_in c s)),
     mkDb (parcelsCollection d)
          (paymentsCollection d
             ++ [<["_id" := VOid (fresh_id (call_env c))]> (payment_in c s)])%list,
     (retrieve_log c (parcelId (metadata s))
        ++ [EvUpdateOne Parcels {[ "_id" := VOid o ]}
              (paid_set (generateTrackingId (call_env c)));
            EvInsertOne Payments (payment_in c s)])%list).
Proof.
  intros Hr Hp Hnone Ho Hparcel.
  apply retrieved_Some in Hr as (sid & Hsid & Hs).
  apply findOne_singleton_None in Hnone.
  rewrite (settle_paid c d sid s Hsid Hs o Hnone Hp Ho).
  unfold retrieve_log. rewrite Hsid.
  rewrite (updateOne_no_match _ _ _ Hparcel).
  unfold payment_in. by rewrite insertOne_payment.
Qed.

Lemma settle_paid_without_parcel_witness :
  let c := call_of paid_b "TRK-7" 7000 in
  SettleCheckout c db0 =
    (res_json (JDoc (payment_in c paid_b)),
     mkDb (parcelsCollection db0)
          [<["_id" := VOid oid_1]> (payment_in c paid_b)],
     (retrieve_log c oid_b
        ++ [EvUpdateOne Parcels {[ "_id" := VOid oid_of_b ]} (paid_set "TRK-7");
            EvInsertOne Payments (payment_in c paid_b)])%list).
Proof.
  intros c.
  apply (settle_paid_without_parcel c db0 paid_b oid_of_b).
  - reflexivity.
  - reflexivity.
  - intros p Hp. by apply elem_of_nil in Hp.
  - reflexivity.
  - reflexivity.
Defined.

(** X6.  When the provider cannot return the session, SettleCheckout
    answers 500 with the provider's message and makes no call to the store;
    the same holds, with the client library's message, when the request
    has no [sessionId]. *)
Theorem settle_without_session (c : Call) (d : Db) :
  (∀ sid err,
     query (call_req c) !! "sessionId" = Some sid →
     sessions_retrieve (call_env c) sid = inl err →
     SettleCheckout c d =
       (mkResponse 500 (error err), d, [EvSessionsRetrieve (Some sid)]))
  ∧ (query (call_req c) !! "sessionId" = None →
     ∃ err,
       SettleCheckout c d =
         (mkResponse 500 (error err), d, [EvSessionsRetrieve None])).
Proof.
  destruct d as [ps pays]. split.
  - intros sid err Hsid Herr.
    unfold SettleCheckout, serve, patch_payments, try_catch, stripe_retrieve,
      emit, mbind, mret, M_bind, M_ret.
    rewrite Hsid. simpl. by rewrite Herr.
  - intros Hsid.
    unfold SettleCheckout, serve, patch_payments, try_catch, stripe_retrieve,
      emit, mbind, mret, M_bind, M_ret.
    rewrite Hsid. simpl. by eexists.
Qed.

Lemma settle_without_session_witness :
  SettleCheckout call_unknown db_paid =
    (mkResponse 500 (error "No such checkout.session: sess_9"), db_paid,
     [EvSessionsRetrieve (Some "sess_9")]).
Proof.
  apply (proj1 (settle_without_session call_unknown db_paid) "sess_9").
  - reflexivity.
  - reflexivity.
Defined.

Lemma settle_db_frame (c : Call) (d : Db) :
  paymentsCollection d `prefix_of` paymentsCollection (settle_db d c)
  ∧ List.length (parcelsCollection (settle_db d c))
    = List.length (parcelsCollection d)
  ∧ ∀ i p, parcelsCollection d !! i = Some p →
      ∃ p', parcelsCollection (settle_db d c) !! i = Some p'
            ∧ ∀ k, k ≠ "paymentStatus" → k ≠ "trackingId" → p' !! k = p !! k.
Proof.
  destruct (settle_db_cases c d) as [-> | (s & o & _ & _ & _ & _ & ->)].
  - split; [done|]. split; [done|]. intros i p Hi. by exists p.
  - simpl. split; [by apply prefix_app_r|].
    split; [apply updateOne_length|].
    intros i p Hi.
    destruct (updateOne_lookup {[ "_id" := VOid o ]}
                (paid_set (generateTrackingId (call_env c))) _ _ _ Hi)
      as [H | [_ H]].
    + by exists p.
    + eexists. split; [exact H|]. intros k Hk1 Hk2. by apply paid_set_other.
Qed.

(** X7.  No sequence of SettleCheckout calls updates or deletes a Payment:
    the payments collection it starts from is a prefix of the one it ends
    with. *)
Theorem settle_all_payments_append_only (calls : list Call) (d : Db) :
  paymentsCollection d `prefix_of` paymentsCollection (settle_all calls d).
Proof.
  revert d. induction calls as [|c calls IH]; intros d; [done|].
  simpl. etrans; [|apply IH]. apply settle_db_frame.
Qed.

(** X8.  No sequence of SettleCheckout calls adds, removes or reorders a
    parcel, and of a parcel it only ever writes [paymentStatus] and
    [trackingId]: every other field, [_id] included, stays as it was. *)
Theorem settle_all_parcels_frame (calls : list Call) (d : Db) :
  List.length (parcelsCollection (settle_all calls d))
  = List.length (parcelsCollection d)
  ∧ ∀ i p, parcelsCollection d !! i = Some p →
      ∃ p', parcelsCollection (settle_all calls d) !! i = Some p'
            ∧ ∀ k, k ≠ "paymentStatus" → k ≠ "trackingId" → p' !! k = p !! k.
Proof.
  revert d. induction calls as [|c calls IH]; intros d.
  - split; [done|]. intros i p Hi. by exists p.
  - simpl. destruct (IH (settle_db d c)) as [Hlen Hget].
    destruct (settle_db_frame c d) as (_ & Hlen1 & Hget1).
    split; [congruence|]. intros i p Hi.
    destruct (Hget1 i p Hi) as (p1 & Hp1 & Hk1).
    destruct (Hget i p1 Hp1) as (p2 & Hp2 & Hk2).
    exists p2. split; [done|]. intros k Hk Hk'.
    rewrite Hk2 by done. by apply Hk1.
Qed.

(** ** Checkout initiation: the amount *)

(** X9.  InitiateCheckout does not validate the charge: whatever number the
    body carries, one request goes to the provider, with the unit amount
    [Math.ceil(charge / 110) * 100] as binary64 computes it.  For a whole
    charge [c] with [1 <= c < 2^53] this is the whole number
    [100 * ceil(c/110)]: at least 100, a multiple of 100, worth at least the
    charge and less than one settlement unit (110) more.  A charge of 0
    gives the unit amount 0, a charge of -5 gives -0, and NaN (what a body
    without [charge] gives) gives NaN. *)
Theorem unit_amount_of_charge (env : Env) (req : Request) (d : Db) :
  let charge := Parcel.charge (body req) in
  let amount :=
    js_mul (Math_ceil (js_div charge (number_of_Z 110))) (number_of_Z 100) in
  (∃ item,
     line_items (create_params env (body req)) = [item]
     ∧ unit_amount (price_data item) = amount
     ∧ (serve (post_payments env req) d).2
       = [EvSessionsCreate (create_params env (body req))])
  ∧ (∀ c : Z, charge = number_of_Z c → (1 ≤ c < 2 ^ 53)%Z →
       ∃ u, integer_of amount = Some u
            ∧ (100 ≤ u)%Z
            ∧ (u mod 100 = 0)%Z
            ∧ (100 * c ≤ 110 * u < 100 * c + 11000)%Z)
  ∧ map (λ i, unit_amount (price_data i))
        (line_items (create_params env (parcel_with (number_of_Z 0))))
    = [S754_zero false]
  ∧ map (λ i, unit_amount (price_data i))
        (line_items (create_params env (parcel_with (number_of_Z (-5)))))
    = [S754_zero true]
  ∧ map (λ i, unit_amount (price_data i))
        (line_items (create_params env (parcel_with S754_nan)))
    = [S754_nan].
Proof.
  intros charge amount. split.
  { eexists. split; [reflexivity|]. split; [reflexivity|].
    by rewrite post_payments_run. }
  split.
  { intros c Hc Hrange. unfold amount. rewrite Hc.
    change (2 ^ 53)%Z with 9007199254740992%Z in Hrange.
    pose proof (Z.div_mod (c + 109) 110 ltac:(lia)) as Hdm.
    pose proof (Z.mod_pos_bound (c + 109) 110 ltac:(lia)) as Hr.
    set (k := ((c + 109) / 110)%Z) in *.
    fold (usdAmount (number_of_Z c)).
    rewrite (amount_whole c k)
      by (change (2 ^ 53)%Z with 9007199254740992%Z; lia).
    rewrite integer_of_number
      by (change (2 ^ 53)%Z with 9007199254740992%Z; lia).
    exists (k * 100)%Z. split; [reflexivity|]. split; [lia|].
    split; [apply Z.mod_mul; lia | lia]. }
  split; [vm_compute; reflexivity|].
  split; vm_compute; reflexivity.
Qed.

Lemma unit_amount_of_charge_witness :
  ∃ u,
    integer_of
      (js_mul (Math_ceil (js_div (number_of_Z 2200) (number_of_Z 110)))
         (number_of_Z 100)) = Some u
    ∧ (100 ≤ u)%Z
    ∧ (u mod 100 = 0)%Z
    ∧ (100 * 2200 ≤ 110 * u < 100 * 2200 + 11000)%Z.
Proof.
  destruct (unit_amount_of_charge env0 (request_of [] []) db0) as (_ & H & _).
  apply (H 2200%Z).
  - reflexivity.
  - change (2 ^ 53)%Z with 9007199254740992%Z. lia.
Defined.

(** ** Registration of users and riders *)

Lemma new_user_email (env : Env) (body : Doc) :
  new_user env body !! "email" = body !! "email".
Proof. unfold new_user. by rewrite !lookup_insert_ne. Qed.

Lemma new_rider_email (env : Env) (body : Doc) :
  new_rider env body !! "email" = body !! "email".
Proof. unfold new_rider. by rewrite !lookup_insert_ne. Qed.

Lemma post_users_run (env : Env) (body : Doc) (s : Store) :
  answer (post_users env body) s =
    match first_selected (by_email (body !! "email")) (usersCollection s) with
    | Some _ =>
        (mkReply 200 None, s,
         [CallFindOne Users (by_email (body !! "email"))])
    | None =>
        match insert_checked (fresh_id env) (new_user env body)
                (usersCollection s) with
        | inl err =>
            (mkReply 500 (Some (error err)), s,
             [CallFindOne Users (by_email (body !! "email"));
              CallInsertOne Users (new_user env body)])
        | inr (id, l') =>
            (mkReply 201 (Some (insert_result id)), set_docs Users l' s,
             [CallFindOne Users (by_email (body !! "email"));
              CallInsertOne Users (new_user env body)])
        end
    end.
Proof.
  destruct s as [us rs db].
  unfold answer, post_users, h_try, h_findOne, h_insertOne, called, h_read,
    h_write, failed, mbind, mret, H_bind, H_ret.
  fold (new_user env body). rewrite new_user_email. unfold by_email.
  cbn [store calls docs_of usersCollection app].
  destruct (first_selected _ us); [done|].
  cbn [store calls docs_of usersCollection app].
  by destruct (insert_checked _ _ us) as [err|[id l']].
Qed.

Lemma post_riders_run (env : Env) (body : Doc) (s : Store) :
  answer (post_riders env body) s =
    match first_selected (by_email (body !! "email")) (ridersCollection s) with
    | Some _ =>
        (mkReply 409 (Some (message "A rider with this email already exists")),
         s, [CallFindOne Riders (by_email (body !! "email"))])
    | None =>
        match insert_checked (fresh_id env) (new_rider env body)
                (ridersCollection s) with
        | inl err =>
            (mkReply 500 (Some (error err)), s,
             [CallFindOne Riders (by_email (body !! "email"));
              CallInsertOne Riders (new_rider env body)])
        | inr (id, l') =>
            (mkReply 201 (Some (insert_result id)), set_docs Riders l' s,
             [CallFindOne Riders (by_email (body !! "email"));
              CallInsertOne Riders (new_rider env body)])
        end
    end.
Proof.
  destruct s as [us rs db].
  unfold answer, post_riders, h_try, h_findOne, h_insertOne, called, h_read,
    h_write, failed, mbind, mret, H_bind, H_ret.
  fold (new_rider env body). rewrite new_rider_email. unfold by_email.
  cbn [store calls docs_of ridersCollection app].
  destruct (first_selected _ rs); [done|].
  cbn [store calls docs_of ridersCollection app].
  by destruct (insert_checked _ _ rs) as [err|[id l']].
Qed.

Lemma insert_checked_ok (fresh : ObjectId) (doc : Doc) (l : list Doc) :
  has_id (default VNull (prepare_doc fresh doc !! "_id")) l = false →
  insert_checked fresh doc l
  = inr (default VNull (prepare_doc fresh doc !! "_id"),
         (l ++ [prepare_doc fresh doc])%list).
Proof. unfold insert_checked. by intros ->. Qed.

Lemma prepare_doc_other (fresh : ObjectId) (doc : Doc) (k : string) :
  k ≠ "_id" → prepare_doc fresh doc !! k = doc !! k.
Proof.
  intros Hk. unfold prepare_doc.
  destruct (doc !! "_id") as [[]|]; try done; by rewrite lookup_insert_ne.
Qed.

Lemma selects_by_email_string (e : string) (d : Doc) :
  selects (by_email (Some (VStr e))) d = true ↔ d !! "email" = Some (VStr e).
Proof. simpl. by rewrite bool_decide_eq_true. Qed.

(** X10.  [POST /users] registers an email once.  When a user with the
    posted email is stored, the answer is 200 without a body and nothing is
    written.  Otherwise the posted object is stored with [role] set to
    [user], whatever role the client sent, and [createdAt] set to the
    clock, its other fields as posted, and the answer is 201 with the
    inserted id; if the [_id] the object carries is already taken, the
    answer is 500 and nothing is stored. *)
Theorem post_users_registers (env : Env) (body : Doc) (s : Store) :
  let f := by_email (body !! "email") in
  let user := prepare_doc (fresh_id env) (new_user env body) in
  let id := default VNull (user !! "_id") in
  (is_Some (first_selected f (usersCollection s)) →
   answer (post_users env body) s
   = (mkReply 200 None, s, [CallFindOne Users f]))
  ∧ (first_selected f (usersCollection s) = None →
     has_id id (usersCollection s) = false →
     answer (post_users env body) s
     = (mkReply 201 (Some (insert_result id)),
        mkStore (usersCollection s ++ [user]) (ridersCollection s)
          (settlement_db s),
        [CallFindOne Users f; CallInsertOne Users (new_user env body)]))
  ∧ (first_selected f (usersCollection s) = None →
     has_id id (usersCollection s) = true →
     answer (post_users env body) s
     = (mkReply 500 (Some (error duplicate_key)), s,
        [CallFindOne Users f; CallInsertOne Users (new_user env body)]))
  ∧ user !! "role" = Some (VStr "user")
  ∧ user !! "createdAt" = Some (VDate (Date_now env))
  ∧ ∀ k, k ≠ "role" → k ≠ "createdAt" → k ≠ "_id" → user !! k = body !! k.
Proof.
  intros f user id. rewrite post_users_run. fold f.
  split; [|split; [|split]].
  - by intros [u ->].
  - intros -> Hid. by rewrite insert_checked_ok.
  - intros -> Hid. unfold insert_checked. fold user. fold id. by rewrite Hid.
  - unfold user, new_user. split; [|split].
    + rewrite prepare_doc_other by done. by simplify_map_eq.
    + rewrite prepare_doc_other by done. by simplify_map_eq.
    + intros k H1 H2 H3. rewrite prepare_doc_other by done.
      by rewrite !lookup_insert_ne.
Qed.

Lemma post_users_registers_witness :
  let user := <["_id" := VOid oid_1]> (new_user env0 body_ann) in
  answer (post_users env0 body_ann) store0
  = (mkReply 201 (Some (insert_result (VOid oid_1))),
     mkStore [user] [] db0,
     [CallFindOne Users (by_email (Some (VStr "ann@x.com")));
      CallInsertOne Users (new_user env0 body_ann)])
  ∧ user !! "role" = Some (VStr "user")
  ∧ answer (post_users env0 body_ann) (mkStore [user] [] db0)
    = (mkReply 200 None, mkStore [user] [] db0,
       [CallFindOne Users (by_email (Some (VStr "ann@x.com")))]).
Proof.
  intros user.
  destruct (post_users_registers env0 body_ann store0)
    as (_ & Hnew & _ & Hrole & _).
  destruct (post_users_registers env0 body_ann (mkStore [user] [] db0))
    as (Hold & _).
  split; [|split].
  - apply Hnew; reflexivity.
  - exact Hrole.
  - apply Hold. exists user. reflexivity.
Defined.

(** X11.  [POST /riders] registers an email once, and never as approved.
    When a rider with the posted email is stored, the answer is 409 and
    nothing is written.  Otherwise the posted object is stored with
    [status] set to [pending], whatever status the client sent, and
    [createdAt] set to the clock, and the answer is 201; a taken [_id]
    gives 500 and nothing is stored. *)
Theorem post_riders_registers (env : Env) (body : Doc) (s : Store) :
  let f := by_email (body !! "email") in
  let rider := prepare_doc (fresh_id env) (new_rider env body) in
  let id := default VNull (rider !! "_id") in
  (is_Some (first_selected f (ridersCollection s)) →
   answer (post_riders env body) s
   = (mkReply 409 (Some (message "A rider with this email already exists")),
      s, [CallFindOne Riders f]))
  ∧ (first_selected f (ridersCollection s) = None →
     has_id id (ridersCollection s) = false →
     answer (post_riders env body) s
     = (mkReply 201 (Some (insert_result id)),
        mkStore (usersCollection s) (ridersCollection s ++ [rider])
          (settlement_db s),
        [CallFindOne Riders f; CallInsertOne Riders (new_rider env body)]))
  ∧ (first_selected f (ridersCollection s) = None →
     has_id id (ridersCollection s) = true →
     answer (post_riders env body) s
     = (mkReply 500 (Some (error duplicate_key)), s,
        [CallFindOne Riders f; CallInsertOne Riders (new_rider env body)]))
  ∧ rider !! "status" = Some (VStr "pending")
  ∧ rider !! "createdAt" = Some (VDate (Date_now env))
  ∧ ∀ k, k ≠ "status" → k ≠ "createdAt" → k ≠ "_id" → rider !! k = body !! k.
Proof.
  intros f rider id. rewrite post_riders_run. fold f.
  split; [|split; [|split]].
  - by intros [u ->].
  - intros -> Hid. by rewrite insert_checked_ok.
  - intros -> Hid. unfold insert_checked. fold rider. fold id. by rewrite Hid.
  - unfold rider, new_rider. split; [|split].
    + rewrite prepare_doc_other by done. by simplify_map_eq.
    + rewrite prepare_doc_other by done. by simplify_map_eq.
    + intros k H1 H2 H3. rewrite prepare_doc_other by done.
      by rewrite !lookup_insert_ne.
Qed.

Lemma post_riders_registers_witness :
  let rider := <["_id" := VOid oid_1]> (new_rider env0 body_ann) in
  answer (post_riders env0 body_ann) store0
  = (mkReply 201 (Some (insert_result (VOid oid_1))),
     mkStore [] [rider] db0,
     [CallFindOne Riders (by_email (Some (VStr "ann@x.com")));
      CallInsertOne Riders (new_rider env0 body_ann)])
  ∧ rider !! "status" = Some (VStr "pending")
  ∧ answer (post_riders env0 body_ann) (mkStore [] [rider] db0)
    = (mkReply 409 (Some (message "A rider with this email already exists")),
       mkStore [] [rider] db0,
       [CallFindOne Riders (by_email (Some (VStr "ann@x.com")))]).
Proof.
  intros rider.
  destruct (post_riders_registers env0 body_ann store0)
    as (_ & Hnew & _ & Hstatus & _).
  destruct (post_riders_registers env0 body_ann (mkStore [] [rider] db0))
    as (Hold & _).
  split; [|split].
  - apply Hnew; reflexivity.
  - exact Hstatus.
  - apply Hold. exists rider. reflexivity.
Defined.

Lemma first_selected_None_filter (f : Filter) (l : list Doc) :
  first_selected f l = None → List.filter (selects f) l = [].
Proof.
  unfold first_selected. induction l as [|x l IH]; [done|]. simpl.
  destruct (selects f x); [done | exact IH].
Qed.

Lemma with_email_snoc (e : string) (l : list Doc) (d : Doc) :
  first_selected (by_email (d !! "email")) l = None →
  (List.length (with_email e l) ≤ 1)%nat →
  (List.length (with_email e (l ++ [d])) ≤ 1)%nat.
Proof.
  intros Hnone Hle. unfold with_email in *. rewrite List.filter_app, length_app.
  cbn [List.filter].
  destruct (selects (by_email (Some (VStr e))) d) eqn:Hsel;
    cbn [List.length]; [|lia].
  apply selects_by_email_string in Hsel. rewrite Hsel in Hnone.
  by rewrite (first_selected_None_filter _ _ Hnone).
Qed.

Lemma after_post_users_cases (s : Store) (r : Env * Doc) :
  after_post_users s r = s
  ∨ (first_selected (by_email (r.2 !! "email")) (usersCollection s) = None
     ∧ after_post_users s r
       = mkStore (usersCollection s
                    ++ [prepare_doc (fresh_id r.1) (new_user r.1 r.2)])
           (ridersCollection s) (settlement_db s)).
Proof.
  unfold after_post_users. rewrite post_users_run.
  destruct (first_selected _ (usersCollection s)) eqn:Hf; [by left|].
  unfold insert_checked. destruct (has_id _ _); [by left|].
  right. by destruct s.
Qed.

Lemma after_post_riders_cases (s : Store) (r : Env * Doc) :
  after_post_riders s r = s
  ∨ (first_selected (by_email (r.2 !! "email")) (ridersCollection s) = None
     ∧ after_post_riders s r
       = mkStore (usersCollection s)
           (ridersCollection s
              ++ [prepare_doc (fresh_id r.1) (new_rider r.1 r.2)])
           (settlement_db s)).
Proof.
  unfold after_post_riders. rewrite post_riders_run.
  destruct (first_selected _ (ridersCollection s)) eqn:Hf; [by left|].
  unfold insert_checked. destruct (has_id _ _); [by left|].
  right. by destruct s.
Qed.

(** X12.  Registration keeps emails unique: if at most one user (rider) is
    stored under an email, then after any sequence of [POST /users]
    ([POST /riders]) requests still at most one is, and such a sequence
    leaves the other collections as they were. *)
Theorem registrations_keep_email_unique (e : string)
    (reqs : list (Env * Doc)) (s : Store) :
  ((List.length (with_email e (usersCollection s)) ≤ 1)%nat →
   (List.length
      (with_email e (usersCollection (fold_left after_post_users reqs s)))
    ≤ 1)%nat)
  ∧ ((List.length (with_email e (ridersCollection s)) ≤ 1)%nat →
     (List.length
        (with_email e (ridersCollection (fold_left after_post_riders reqs s)))
      ≤ 1)%nat)
  ∧ ridersCollection (fold_left after_post_users reqs s) = ridersCollection s
  ∧ usersCollection (fold_left after_post_riders reqs s) = usersCollection s
  ∧ settlement_db (fold_left after_post_users reqs s) = settlement_db s
  ∧ settlement_db (fold_left after_post_riders reqs s) = settlement_db s.
Proof.
  revert s. induction reqs as [|r reqs IH]; intros s; [done|]. simpl.
  destruct (IH (after_post_users s r)) as (IHu & _ & IHur & _ & IHud & _).
  destruct (IH (after_post_riders s r)) as (_ & IHr & _ & IHru & _ & IHrd).
  destruct (after_post_users_cases s r) as [Hu | [Hnu Hu]];
    destruct (after_post_riders_cases s r) as [Hr | [Hnr Hr]];
    rewrite Hu in *; rewrite Hr in *; simpl in *;
    repeat split; try done.
  - intros Hle. apply IHr, with_email_snoc; [|done].
    by rewrite prepare_doc_other, new_rider_email.
  - intros Hle. apply IHu, with_email_snoc; [|done].
    by rewrite prepare_doc_other, new_user_email.
  - intros Hle. apply IHu, with_email_snoc; [|done].
    by rewrite prepare_doc_other, new_user_email.
  - intros Hle. apply IHr, with_email_snoc; [|done].
    by rewrite prepare_doc_other, new_rider_email.
Qed.

Lemma registrations_keep_email_unique_witness :
  let reqs := [(env0, body_ann); (env0, body_ann); (env0, body_ann)] in
  (List.length
     (with_email "ann@x.com"
        (usersCollection (fold_left after_post_users reqs store0))) ≤ 1)%nat
  ∧ (List.length
       (with_email "ann@x.com"
          (ridersCollection (fold_left after_post_riders reqs store0))) ≤ 1)%nat.
Proof.
  intros reqs.
  destruct (registrations_keep_email_unique "ann@x.com" reqs store0)
    as (Hu & Hr & _).
  split; [apply Hu | apply Hr]; simpl; lia.
Defined.

(** ** Approval of riders *)

Lemma replace_first_self (f : Filter) (l : list Doc) (d : Doc) :
  first_selected f l = Some d → replace_first f d l = l.
Proof.
  unfold first_selected. induction l as [|x l IH]; [done|]. simpl.
  destruct (selects f x); [by intros [= ->]|]. intros H. by rewrite IH.
Qed.

Lemma union_same_id (set d : Doc) (v : Value) :
  set ∪ d = d → set !! "_id" = Some v → d !! "_id" = Some v.
Proof.
  intros Hu Hs. rewrite <- Hu. by apply lookup_union_Some_l.
Qed.

Lemma update_counted_unchanged (f : Filter) (set : Doc) (l : list Doc) :
  (first_selected f l = None
   ∨ ∃ d, first_selected f l = Some d ∧ set ∪ d = d) →
  update_counted f set l = inr (0, l).
Proof.
  unfold update_counted. intros [-> | (d & -> & Hu)]; [done|].
  destruct (set !! "_id") as [v|] eqn:Hid.
  - rewrite bool_decide_eq_true_2 by (by eapply union_same_id).
    by rewrite bool_decide_eq_true_2.
  - by rewrite bool_decide_eq_true_2.
Qed.

Lemma update_counted_changed (f : Filter) (set : Doc) (l : list Doc) (d : Doc) :
  first_selected f l = Some d →
  set !! "_id" = None →
  set ∪ d ≠ d →
  update_counted f set l = inr (1, replace_first f (set ∪ d) l).
Proof.
  unfold update_counted. intros -> -> Hne. by rewrite bool_decide_eq_false_2.
Qed.

Lemma update_counted_role (f : Filter) (l : list Doc) :
  ∃ n,
    update_counted f {[ "role" := VStr "rider" ]} l
    = inr (n, match first_selected f l with
              | Some u => replace_first f (<["role" := VStr "rider"]> u) l
              | None => l
              end).
Proof.
  unfold update_counted. destruct (first_selected f l) as [u|] eqn:Hf; [|by eexists].
  rewrite lookup_singleton_ne by done.
  rewrite <- insert_union_singleton_l.
  case_bool_decide as Hu; eexists; [|done].
  by rewrite Hu, (replace_first_self _ _ _ Hf).
Qed.

Lemma patch_riders_handler_run (id : string) (body : Doc) (req : Request)
    (s : Store) :
  answer (patch_riders_handler id body req) s =
    match new_ObjectId id with
    | None => (mkReply 500 (Some (error ObjectId_error)), s, [])
    | Some o =>
        let find_update :=
          [CallFindOne Riders (ById o); CallUpdateOne Riders (ById o) body] in
        match update_counted (ById o) body (ridersCollection s) with
        | inl err => (mkReply 500 (Some (error err)), s, find_update)
        | inr (modifiedCount, riders') =>
            let s' := mkStore (usersCollection s) riders' (settlement_db s) in
            if bool_decide (modifiedCount = 0)
            then (mkReply 404 (Some (message "Rider not found")), s', find_update)
            else if bool_decide (body !! "status" = Some (VStr "approved"))
            then
              match first_selected (ById o) (ridersCollection s) with
              | Some rider =>
                  let promote :=
                    CallUpdateOne Users (by_email (rider !! "email"))
                      {[ "role" := VStr "rider" ]} in
                  match update_counted (by_email (rider !! "email"))
                          {[ "role" := VStr "rider" ]} (usersCollection s) with
                  | inl err =>
                      (mkReply 500 (Some (error err)), s',
                       find_update ++ [promote])
                  | inr (_, users') =>
                      (mkReply 200 None,
                       mkStore users' riders' (settlement_db s),
                       find_update ++ [promote])
                  end
              | None =>
                  (mkReply 500
                     (Some (error "Cannot read properties of null (reading 'email')")),
                   s', find_update)
              end
            else (mkReply 200 None, s', find_update)
        end
    end%list.
Proof.
  destruct s as [us rs db].
  unfold answer, patch_riders_handler, h_try, h_ObjectId, h_findOne,
    h_updateOne, h_throw, called, h_read, h_write, failed, mbind, mret,
    H_bind, H_ret.
  destruct (new_ObjectId id) as [o|]; [|done].
  cbn [store calls docs_of ridersCollection usersCollection app set_docs
       settlement_db].
  destruct (update_counted (ById o) body rs) as [err|[n rs']]; [done|].
  cbn [store calls docs_of ridersCollection usersCollection app set_docs
       settlement_db].
  case_bool_decide; [done|].
  case_bool_decide; [|done].
  destruct (first_selected (ById o) rs) as [r|]; [|done].
  cbn [store calls docs_of ridersCollection usersCollection app set_docs
       settlement_db].
  unfold by_email.
  by destruct (update_counted _ _ us) as [err|[m us']].
Qed.

Lemma guarded_next (env : Env) (req : Request) (email : option string)
    (next : Request → H Reply) :
  authenticated env req email →
  guarded env req next = next (handed_on req email).
Proof.
  intros Hauth. unfold guarded.
  assert (verified env req = Some (handed_on req email)) as ->
    by (apply verified_Some; eauto).
  done.
Qed.

Lemma guarded_reject (env : Env) (req : Request) (next : Request → H Reply)
    (s : Store) :
  (∀ email, ¬ authenticated env req email) →
  answer (guarded env req next) s
  = (mkReply 401 (Some (message "Unauthorized Access")), s, []).
Proof.
  intros Hn. apply verified_None in Hn. unfold guarded. rewrite Hn.
  by destruct s.
Qed.

(** X13.  Approving a rider promotes the user with the rider's email.
    For a [PATCH /riders/:id] of any authenticated caller, whose id selects
    a stored rider and whose body sets [status] to [approved], carries no
    [_id] and changes the rider, the rider gets the posted fields, the
    first user stored under the email the rider had gets [role = rider], no
    other document changes, and the answer is 200 without a body. *)
Theorem patch_riders_approves (env : Env) (req : Request) (id : string)
    (body : Doc) (s : Store) (email : option string) (o : ObjectId)
    (rider : Doc) :
  authenticated env req email →
  new_ObjectId id = Some o →
  first_selected (ById o) (ridersCollection s) = Some rider →
  body !! "status" = Some (VStr "approved") →
  body !! "_id" = None →
  body ∪ rider ≠ rider →
  let by_rider_email := by_email (rider !! "email") in
  answer (patch_riders env req id body) s =
    (mkReply 200 None,
     mkStore
       match first_selected by_rider_email (usersCollection s) with
       | Some user =>
           replace_first by_rider_email (<["role" := VStr "rider"]> user)
             (usersCollection s)
       | None => usersCollection s
       end
       (replace_first (ById o) (body ∪ rider) (ridersCollection s))
       (settlement_db s),
     [CallFindOne Riders (ById o); CallUpdateOne Riders (ById o) body;
      CallUpdateOne Users by_rider_email {[ "role" := VStr "rider" ]}]).
Proof.
  intros Hauth Ho Hr Hst Hid Hne by_rider_email.
  unfold patch_riders. rewrite (guarded_next _ _ _ _ Hauth).
  rewrite patch_riders_handler_run, Ho. cbv zeta.
  rewrite (update_counted_changed _ _ _ _ Hr Hid Hne).
  rewrite bool_decide_eq_false_2 by done.
  rewrite bool_decide_eq_true_2 by done. rewrite Hr.
  destruct (update_counted_role by_rider_email (usersCollection s)) as [n Hn].
  fold by_rider_email. by rewrite Hn.
Qed.

Lemma patch_riders_approves_witness :
  answer (patch_riders env0 request_a oid_a approve) (store_ann "pending" "user")
  = (mkReply 200 None, store_ann "approved" "rider",
     [CallFindOne Riders (ById oid_of_a);
      CallUpdateOne Riders (ById oid_of_a) approve;
      CallUpdateOne Users (by_email (Some (VStr "ann@x.com")))
        {[ "role" := VStr "rider" ]}]).
Proof.
  assert (Hs : store_ann "approved" "rider"
    = mkStore
        (replace_first (by_email (Some (VStr "ann@x.com")))
           (<["role" := VStr "rider"]> (user_ann "user")) [user_ann "user"])
        (replace_first (ById oid_of_a) (approve ∪ rider_ann "pending")
           [rider_ann "pending"])
        db0) by (vm_compute; reflexivity).
  rewrite Hs.
  apply (patch_riders_approves env0 request_a oid_a approve
           (store_ann "pending" "user") (Some "a@x.com") oid_of_a
           (rider_ann "pending")).
  - bearer "Bearer tok_a" "tok_a".
  - reflexivity.
  - vm_compute. reflexivity.
  - reflexivity.
  - reflexivity.
  - intros H. apply (f_equal (lookup "status")) in H. vm_compute in H.
    discriminate.
Defined.

(** X14.  [PATCH /riders/:id] answers 404 Rider not found not only when no
    rider has the id, but also when the rider is stored and the posted
    fields are the ones it already has: approving an approved rider again
    is answered 404, nothing is written and no user is promoted.  (The body
    is not empty: what the store does with an empty [$set] depends on its
    version.) *)
Theorem patch_riders_unchanged_is_not_found (env : Env) (req : Request)
    (id : string) (body : Doc) (s : Store) (email : option string)
    (o : ObjectId) :
  authenticated env req email →
  new_ObjectId id = Some o →
  body ≠ ∅ →
  (first_selected (ById o) (ridersCollection s) = None
   ∨ ∃ rider, first_selected (ById o) (ridersCollection s) = Some rider
              ∧ body ∪ rider = rider) →
  answer (patch_riders env req id body) s =
    (mkReply 404 (Some (message "Rider not found")), s,
     [CallFindOne Riders (ById o); CallUpdateOne Riders (ById o) body]).
Proof.
  intros Hauth Ho _ Hcase.
  unfold patch_riders. rewrite (guarded_next _ _ _ _ Hauth).
  rewrite patch_riders_handler_run, Ho. cbv zeta.
  rewrite (update_counted_unchanged _ _ _ Hcase).
  rewrite bool_decide_eq_true_2 by done. by destruct s.
Qed.

Lemma patch_riders_unchanged_is_not_found_witness :
  answer (patch_riders env0 request_a oid_a approve) (store_ann "approved" "user")
  = (mkReply 404 (Some (message "Rider not found")),
     store_ann "approved" "user",
     [CallFindOne Riders (ById oid_of_a);
      CallUpdateOne Riders (ById oid_of_a) approve]).
Proof.
  apply (patch_riders_unchanged_is_not_found env0 request_a oid_a approve
           (store_ann "approved" "user") (Some "a@x.com") oid_of_a).
  - bearer "Bearer tok_a" "tok_a".
  - reflexivity.
  - intros H. apply (f_equal (lookup "status")) in H. discriminate.
  - right. exists (rider_ann "approved"). split; vm_compute; reflexivity.
Defined.

Lemma replace_first_length (f : Filter) (d' : Doc) (l : list Doc) :
  List.length (replace_first f d' l) = List.length l.
Proof.
  induction l as [|x l IH]; [done|]. simpl.
  destruct (selects f x); simpl; by rewrite ?IH.
Qed.

Lemma update_counted_length (f : Filter) (set : Doc) (l l' : list Doc) (n : Z) :
  update_counted f set l = inr (n, l') → List.length l' = List.length l.
Proof.
  unfold update_counted. destruct (first_selected f l) as [d|]; [|by intros [= _ <-]].
  destruct (set !! "_id") as [v|]; repeat case_bool_decide;
    intros [= _ <-]; by rewrite ?replace_first_length.
Qed.

Lemma update_counted_immutable (f : Filter) (set : Doc) (l : list Doc)
    (d : Doc) (v : Value) :
  first_selected f l = Some d →
  set !! "_id" = Some v →
  d !! "_id" ≠ Some v →
  update_counted f set l = inl immutable_id.
Proof.
  unfold update_counted. intros -> -> Hne. by rewrite bool_decide_eq_false_2.
Qed.

(** X15.  What [PATCH /riders/:id] refuses and what it never touches.
    Without a valid token the answer is 401 and nothing is read or
    written; with a path id that is no ObjectId string the answer is 500
    before any call to the store; a body whose [_id] differs from the
    rider's is refused by the store with 500 and nothing is written.  No
    request changes the parcels or the payments, nor the number of riders
    or users, and a body that does not set [status] to [approved] leaves
    the users as they were. *)
Theorem patch_riders_refuses (env : Env) (req : Request) (id : string)
    (body : Doc) (s : Store) :
  let r := answer (patch_riders env req id body) s in
  ((∀ email, ¬ authenticated env req email) →
   r = (mkReply 401 (Some (message "Unauthorized Access")), s, []))
  ∧ (∀ email, authenticated env req email → new_ObjectId id = None →
       r = (mkReply 500 (Some (error ObjectId_error)), s, []))
  ∧ (∀ email o rider v,
       authenticated env req email → new_ObjectId id = Some o →
       first_selected (ById o) (ridersCollection s) = Some rider →
       body !! "_id" = Some v → rider !! "_id" ≠ Some v →
       r = (mkReply 500 (Some (error immutable_id)), s,
            [CallFindOne Riders (ById o); CallUpdateOne Riders (ById o) body]))
  ∧ settlement_db r.1.2 = settlement_db s
  ∧ List.length (ridersCollection r.1.2) = List.length (ridersCollection s)
  ∧ List.length (usersCollection r.1.2) = List.length (usersCollection s)
  ∧ (body !! "status" ≠ Some (VStr "approved") →
     usersCollection r.1.2 = usersCollection s).
Proof.
  intros r. split; [|split; [|split]].
  - intros Hn. unfold r, patch_riders. by apply guarded_reject.
  - intros email Hauth Ho. unfold r, patch_riders.
    rewrite (guarded_next _ _ _ _ Hauth).
    by rewrite patch_riders_handler_run, Ho.
  - intros email o rider v Hauth Ho Hr Hv Hne. unfold r, patch_riders.
    rewrite (guarded_next _ _ _ _ Hauth).
    rewrite patch_riders_handler_run, Ho. cbv zeta.
    by rewrite (update_counted_immutable _ _ _ _ _ Hr Hv Hne).
  - unfold r, patch_riders, guarded.
    destruct (verified env req) as [req'|]; [|by destruct s].
    rewrite patch_riders_handler_run.
    destruct (new_ObjectId id) as [o|]; [|done]. cbv zeta.
    destruct (update_counted (ById o) body (ridersCollection s))
      as [err|[n rs']] eqn:Hu; [done|].
    apply update_counted_length in Hu.
    case_bool_decide; [done|].
    case_bool_decide as Happ; [|by repeat split].
    destruct (first_selected (ById o) (ridersCollection s)) as [rider|];
      [|by repeat split].
    destruct (update_counted (by_email (rider !! "email"))
                {[ "role" := VStr "rider" ]} (usersCollection s))
      as [err|[m us']] eqn:Hu'; [by repeat split|].
    apply update_counted_length in Hu'. by repeat split.
Qed.

(** ** Parcels and riders by id *)

Lemma set_docs_same (c : Collection) (s : Store) : set_docs c (docs_of c s) s = s.
Proof. destruct s as [us rs [ps pays]]. by destruct c as [| |[]]. Qed.

Lemma docs_of_set_docs (c : Collection) (l : list Doc) (s : Store) :
  docs_of c (set_docs c l s) = l.
Proof. destruct s as [us rs [ps pays]]. by destruct c as [| |[]]. Qed.

Lemma selects_ById (o : ObjectId) (d : Doc) :
  selects (ById o) d = true ↔ d !! "_id" = Some (VOid o).
Proof. simpl. apply matches_singleton. Qed.

Lemma remove_first_split (f : Filter) (l : list Doc) (d : Doc) :
  first_selected f l = Some d →
  ∃ before after,
    l = (before ++ d :: after)%list
    ∧ Forall (λ x, selects f x = false) before
    ∧ remove_first f l = (before ++ after)%list.
Proof.
  unfold first_selected. induction l as [|x l IH]; [done|]. simpl.
  destruct (selects f x) eqn:Hx.
  - intros [= ->]. by exists [], l.
  - intros Hf. destruct (IH Hf) as (before & after & -> & Hb & ->).
    exists (x :: before), after. split; [done|]. split; [by constructor | done].
Qed.

Lemma delete_by_id_run (c : Collection) (id : string) (s : Store) :
  answer (delete_by_id c id) s =
    match new_ObjectId id with
    | None => (mkReply 500 (Some (error ObjectId_error)), s, [])
    | Some o =>
        match first_selected (ById o) (docs_of c s) with
        | Some _ =>
            (mkReply 200 (Some (delete_result 1)),
             set_docs c (remove_first (ById o) (docs_of c s)) s,
             [CallDeleteOne c (ById o)])
        | None =>
            (mkReply 404 (Some (message "Parcel Not Found")), s,
             [CallDeleteOne c (ById o)])
        end
    end.
Proof.
  unfold answer, delete_by_id, h_try, h_ObjectId, h_deleteOne, h_throw,
    called, h_read, h_write, failed, delete_counted, mbind, mret, H_bind, H_ret.
  destruct (new_ObjectId id) as [o|]; [|done].
  cbn [store calls app].
  destruct (first_selected (ById o) (docs_of c s)); cbn [store calls app]; [done|].
  by rewrite set_docs_same.
Qed.

Lemma get_parcel_run (id : string) (s : Store) :
  answer (get_parcel id) s =
    match new_ObjectId id with
    | None => (mkReply 500 (Some (error ObjectId_error)), s, [])
    | Some o =>
        (match first_selected (ById o) (parcelsCollection (settlement_db s)) with
         | Some parcel => mkReply 200 (Some (JDoc parcel))
         | None => mkReply 404 (Some (message "Parcel Not Found"))
         end, s, [CallFindOne (Stored Parcels) (ById o)])
    end.
Proof.
  unfold answer, get_parcel, h_try, h_ObjectId, h_findOne, h_throw,
    called, h_read, failed, mbind, mret, H_bind, H_ret.
  destruct (new_ObjectId id) as [o|]; [|done].
  cbn [store calls app docs_of coll].
  by destruct (first_selected _ _).
Qed.

(** X16.  [DELETE /riders/:id] and [DELETE /parcels/:id] remove exactly one
    document, the first whose [_id] is the ObjectId the path names, and
    keep every other document, in order; the answer is 200 with
    [deletedCount = 1]. *)
Theorem delete_removes_one (c : Collection) (id : string) (s : Store)
    (o : ObjectId) (d : Doc) :
  new_ObjectId id = Some o →
  first_selected (ById o) (docs_of c s) = Some d →
  ∃ before after,
    docs_of c s = (before ++ d :: after)%list
    ∧ d !! "_id" = Some (VOid o)
    ∧ Forall (λ x, x !! "_id" ≠ Some (VOid o)) before
    ∧ answer (delete_by_id c id) s
      = (mkReply 200 (Some (delete_result 1)),
         set_docs c (before ++ after) s, [CallDeleteOne c (ById o)]).
Proof.
  intros Ho Hd. rewrite delete_by_id_run, Ho, Hd.
  destruct (remove_first_split _ _ _ Hd) as (before & after & Hl & Hb & Hr).
  exists before, after. split; [done|]. split.
  { apply find_some in Hd as [_ Hd]. by apply selects_ById. }
  split; [|by rewrite Hr].
  eapply Forall_impl; [exact Hb|]. intros x Hx Hid.
  apply selects_ById in Hid. congruence.
Qed.

(** X17.  A delete that finds nothing changes nothing: when no document
    of the collection has the id, the answer is 404 with the message
    [Parcel Not Found], for riders as well, and when the path id is no
    ObjectId string the answer is 500 before any call to the store. *)
Theorem delete_misses (c : Collection) (id : string) (s : Store) :
  (new_ObjectId id = None →
   answer (delete_by_id c id) s
   = (mkReply 500 (Some (error ObjectId_error)), s, []))
  ∧ (∀ o, new_ObjectId id = Some o →
       (∀ d, d ∈ docs_of c s → d !! "_id" ≠ Some (VOid o)) →
       answer (delete_by_id c id) s
       = (mkReply 404 (Some (message "Parcel Not Found")), s,
          [CallDeleteOne c (ById o)])).
Proof.
  rewrite delete_by_id_run. split; [by intros ->|].
  intros o -> Hnone.
  destruct (first_selected (ById o) (docs_of c s)) as [d|] eqn:Hd; [|done].
  apply find_some in Hd as [Hin Hd]. apply selects_ById in Hd.
  apply list_elem_of_In in Hin. by destruct (Hnone d Hin).
Qed.

Lemma first_selected_none_after_remove (f : Filter) (l : list Doc) :
  (List.length (List.filter (selects f) l) ≤ 1)%nat →
  first_selected f (remove_first f l) = None.
Proof.
  unfold first_selected. induction l as [|x l IH]; [done|]. simpl.
  destruct (selects f x) eqn:Hx; simpl.
  - intros Hle. destruct (find (selects f) l) as [y|] eqn:Hy; [|done].
    apply find_some in Hy as [Hin Hy].
    assert (In y (List.filter (selects f) l)) as Hin' by by apply filter_In.
    destruct (List.filter (selects f) l); [done | simpl in Hle; lia].
  - intros Hle. rewrite Hx. by apply IH.
Qed.

(** X18.  Deleting is final when ids are unique: if at most one document
    of the collection has the id, then after a successful delete a second
    delete of the same id answers 404 and changes nothing, and
    [GET /parcels/:id] of a deleted parcel answers 404. *)
Theorem delete_then_not_found (c : Collection) (id : string) (s : Store)
    (o : ObjectId) (d : Doc) :
  new_ObjectId id = Some o →
  first_selected (ById o) (docs_of c s) = Some d →
  (List.length (List.filter (selects (ById o)) (docs_of c s)) ≤ 1)%nat →
  let s' := (answer (delete_by_id c id) s).1.2 in
  answer (delete_by_id c id) s'
  = (mkReply 404 (Some (message "Parcel Not Found")), s',
     [CallDeleteOne c (ById o)])
  ∧ (c = Stored Parcels →
     answer (get_parcel id) s'
     = (mkReply 404 (Some (message "Parcel Not Found")), s',
        [CallFindOne (Stored Parcels) (ById o)])).
Proof.
  intros Ho Hd Hle s'.
  assert (Hs' : s' = set_docs c (remove_first (ById o) (docs_of c s)) s).
  { unfold s'. by rewrite delete_by_id_run, Ho, Hd. }
  assert (Hnone : first_selected (ById o) (docs_of c s') = None).
  { rewrite Hs', docs_of_set_docs. by apply first_selected_none_after_remove. }
  split.
  - by rewrite delete_by_id_run, Ho, Hnone.
  - intros ->. rewrite get_parcel_run, Ho. simpl in Hnone. by rewrite Hnone.
Qed.

Lemma delete_removes_one_witness :
  ∃ before after,
    ridersCollection (store_ann "pending" "user")
    = (before ++ rider_ann "pending" :: after)%list
    ∧ rider_ann "pending" !! "_id" = Some (VOid oid_of_a)
    ∧ Forall (λ x, x !! "_id" ≠ Some (VOid oid_of_a)) before
    ∧ answer (delete_riders oid_A) (store_ann "pending" "user")
      = (mkReply 200 (Some (delete_result 1)),
         set_docs Riders (before ++ after) (store_ann "pending" "user"),
         [CallDeleteOne Riders (ById oid_of_a)]).
Proof.
  apply (delete_removes_one Riders oid_A (store_ann "pending" "user")
           oid_of_a (rider_ann "pending")).
  - reflexivity.
  - vm_compute. reflexivity.
Defined.

Lemma delete_misses_witness :
  answer (delete_parcels "P1") store0
  = (mkReply 500 (Some (error ObjectId_error)), store0, [])
  ∧ answer (delete_riders oid_b) (store_ann "pending" "user")
    = (mkReply 404 (Some (message "Parcel Not Found")),
       store_ann "pending" "user", [CallDeleteOne Riders (ById oid_of_b)]).
Proof.
  split.
  - apply (proj1 (delete_misses (Stored Parcels) "P1" store0)). reflexivity.
  - apply (proj2 (delete_misses Riders oid_b (store_ann "pending" "user"))
             oid_of_b).
    + reflexivity.
    + intros d Hd. apply list_elem_of_singleton in Hd as ->. discriminate.
Defined.

Lemma delete_then_not_found_witness :
  let s' := (answer (delete_parcels oid_a) store0).1.2 in
  answer (delete_parcels oid_a) s'
  = (mkReply 404 (Some (message "Parcel Not Found")), s',
     [CallDeleteOne (Stored Parcels) (ById oid_of_a)])
  ∧ answer (get_parcel oid_a) s'
    = (mkReply 404 (Some (message "Parcel Not Found")), s',
       [CallFindOne (Stored Parcels) (ById oid_of_a)]).
Proof.
  intros s'.
  destruct (delete_then_not_found (Stored Parcels) oid_a store0 oid_of_a
              (stored_parcel oid_a "unpaid")) as [H1 H2].
  - reflexivity.
  - reflexivity.
  - vm_compute. lia.
  - split; [exact H1 | by apply H2].
Defined.

Lemma has_id_false (v : Value) (l : list Doc) :
  has_id v l = false ↔ ∀ d, d ∈ l → d !! "_id" ≠ Some v.
Proof.
  unfold has_id. induction l as [|x l IH]; simpl.
  - split; [|done]. intros _ d Hd. by apply elem_of_nil in Hd.
  - rewrite orb_false_iff, IH, bool_decide_eq_false. split.
    + intros [Hx Hl] d Hd. apply elem_of_cons in Hd as [->|Hd]; [done|].
      by apply Hl.
    + intros Hall. split; [apply Hall; by left|].
      intros d Hd. apply Hall. by right.
Qed.

Lemma first_selected_snoc_new (f : Filter) (l : list Doc) (x : Doc) :
  (∀ d, d ∈ l → selects f d = false) → selects f x = true →
  first_selected f (l ++ [x]) = Some x.
Proof.
  unfold first_selected. induction l as [|y l IH]; simpl; intros Hn Hx.
  - by rewrite Hx.
  - rewrite (Hn y) by by left. apply IH; [|done].
    intros d Hd. apply Hn. by right.
Qed.

Lemma post_parcels_run (env : Env) (body : Doc) (s : Store) :
  answer (post_parcels env body) s =
    let parcel := <["createdAt" := VDate (Date_now env)]> body in
    match insert_checked (fresh_id env) parcel
            (parcelsCollection (settlement_db s)) with
    | inl err =>
        (mkReply 500 (Some (error err)), s,
         [CallInsertOne (Stored Parcels) parcel])
    | inr (id, l') =>
        (mkReply 201 (Some (insert_result id)),
         set_docs (Stored Parcels) l' s,
         [CallInsertOne (Stored Parcels) parcel])
    end.
Proof.
  unfold answer, post_parcels, h_try, h_insertOne, h_throw, called, h_read,
    h_write, failed, mbind, mret, H_bind, H_ret.
  cbn [store calls app docs_of coll].
  by destruct (insert_checked _ _ _) as [err|[id l']].
Qed.

(** X19.  A posted parcel can be read back.  [POST /parcels] with an
    object that carries no [_id] stores it under the [_id] the driver
    draws, with [createdAt] set to the clock, whatever [createdAt] the
    client sent, and every other field as posted, and answers 201 with
    that id; [GET /parcels/:id] with any spelling of the id then answers
    200 with the stored parcel. *)
Theorem post_then_get_parcel (env : Env) (body : Doc) (s : Store) (id : string) :
  body !! "_id" = None →
  has_id (VOid (fresh_id env)) (parcelsCollection (settlement_db s)) = false →
  new_ObjectId id = Some (fresh_id env) →
  let parcel :=
    <["_id" := VOid (fresh_id env)]>
      (<["createdAt" := VDate (Date_now env)]> body) in
  let s' :=
    mkStore (usersCollection s) (ridersCollection s)
      (mkDb (parcelsCollection (settlement_db s) ++ [parcel])
         (paymentsCollection (settlement_db s))) in
  answer (post_parcels env body) s
  = (mkReply 201 (Some (insert_result (VOid (fresh_id env)))), s',
     [CallInsertOne (Stored Parcels)
        (<["createdAt" := VDate (Date_now env)]> body)])
  ∧ answer (get_parcel id) s'
    = (mkReply 200 (Some (JDoc parcel)), s',
       [CallFindOne (Stored Parcels) (ById (fresh_id env))])
  ∧ parcel !! "createdAt" = Some (VDate (Date_now env))
  ∧ ∀ k, k ≠ "_id" → k ≠ "createdAt" → parcel !! k = body !! k.
Proof.
  intros Hid Hfresh Ho parcel s'.
  assert (Hprep : prepare_doc (fresh_id env)
                    (<["createdAt" := VDate (Date_now env)]> body) = parcel).
  { unfold prepare_doc. by rewrite lookup_insert_ne, Hid. }
  split; [|split; [|split]].
  - assert (Hpid : parcel !! "_id" = Some (VOid (fresh_id env)))
      by (unfold parcel; apply lookup_insert_eq).
    rewrite post_parcels_run. cbv zeta. unfold insert_checked.
    rewrite Hprep, Hpid. simpl (default _ _). rewrite Hfresh.
    unfold s'. by destruct s as [us rs [ps pays]].
  - rewrite get_parcel_run, Ho. unfold s'. cbn [settlement_db parcelsCollection].
    rewrite first_selected_snoc_new; [done| |].
    + intros d Hd. apply not_true_iff_false. rewrite selects_ById.
      by apply (proj1 (has_id_false _ _) Hfresh).
    + apply selects_ById. unfold parcel. by rewrite lookup_insert_eq.
  - unfold parcel. by simplify_map_eq.
  - intros k H1 H2. unfold parcel. by rewrite !lookup_insert_ne.
Qed.

Lemma post_then_get_parcel_witness :
  let parcel := <["_id" := VOid oid_of_b]> (<["createdAt" := VDate 9000]> body_box) in
  let s' := mkStore [] [] (mkDb (parcelsCollection db0 ++ [parcel]) []) in
  answer (post_parcels env_b body_box) store0
  = (mkReply 201 (Some (insert_result (VOid oid_of_b))), s',
     [CallInsertOne (Stored Parcels) (<["createdAt" := VDate 9000]> body_box)])
  ∧ answer (get_parcel oid_b) s'
    = (mkReply 200 (Some (JDoc parcel)), s',
       [CallFindOne (Stored Parcels) (ById oid_of_b)])
  ∧ parcel !! "createdAt" = Some (VDate 9000).
Proof.
  intros parcel s'.
  destruct (post_then_get_parcel env_b body_box store0 oid_b)
    as (H1 & H2 & H3 & _).
  - reflexivity.
  - vm_compute. reflexivity.
  - reflexivity.
  - split; [exact H1|]. split; [exact H2 | exact H3].
Defined.

Lemma remove_first_keeps (f : Filter) (l : list Doc) (d : Doc) :
  d ∈ l → selects f d = false → d ∈ remove_first f l.
Proof.
  induction l as [|x l IH]; [done|]. simpl. intros Hin Hd.
  apply elem_of_cons in Hin as [<- | Hin].
  - rewrite Hd. by left.
  - destruct (selects f x); [done|]. right. by apply IH.
Qed.

(** X20.  The routes that take an id only ever reach documents whose [_id]
    is an ObjectId.  [POST /parcels] stores an object that brings its own
    string [_id] under that string; but [GET /parcels/:id] never answers
    with a document whose [_id] is not an ObjectId, no delete by id removes
    such a document, and no SettleCheckout call writes to such a parcel. *)
Theorem string_ids_are_out_of_reach :
  (∀ (env : Env) (body : Doc) (s : Store) (x : string),
     body !! "_id" = Some (VStr x) →
     has_id (VStr x) (parcelsCollection (settlement_db s)) = false →
     answer (post_parcels env body) s
     = (mkReply 201 (Some (insert_result (VStr x))),
        set_docs (Stored Parcels)
          (parcelsCollection (settlement_db s)
             ++ [<["createdAt" := VDate (Date_now env)]> body]) s,
        [CallInsertOne (Stored Parcels)
           (<["createdAt" := VDate (Date_now env)]> body)]))
  ∧ (∀ (id : string) (s : Store) (p : Doc),
       (answer (get_parcel id) s).1.1 = mkReply 200 (Some (JDoc p)) →
       ∃ o, new_ObjectId id = Some o ∧ p !! "_id" = Some (VOid o))
  ∧ (∀ (c : Collection) (id : string) (s : Store) (d : Doc),
       d ∈ docs_of c s → (∀ o, d !! "_id" ≠ Some (VOid o)) →
       d ∈ docs_of c (answer (delete_by_id c id) s).1.2)
  ∧ (∀ (c : Call) (d : Db) (i : nat) (p : Doc),
       parcelsCollection d !! i = Some p → (∀ o, p !! "_id" ≠ Some (VOid o)) →
       parcelsCollection (settle_db d c) !! i = Some p).
Proof.
  split; [|split; [|split]].
  - intros env body s x Hid Hfresh. rewrite post_parcels_run. cbv zeta.
    assert (Hprep : prepare_doc (fresh_id env)
                      (<["createdAt" := VDate (Date_now env)]> body)
                    = <["createdAt" := VDate (Date_now env)]> body).
    { unfold prepare_doc. by rewrite lookup_insert_ne, Hid. }
    unfold insert_checked. rewrite Hprep, lookup_insert_ne, Hid by done.
    simpl (default _ _). by rewrite Hfresh.
  - intros id s p. rewrite get_parcel_run.
    destruct (new_ObjectId id) as [o|]; [|done]. simpl.
    destruct (first_selected _ _) as [q|] eqn:Hq; [|done].
    intros [= ->]. exists o. split; [done|].
    apply find_some in Hq as [_ Hq]. by apply selects_ById.
  - intros c id s d Hin Hd. rewrite delete_by_id_run.
    destruct (new_ObjectId id) as [o|]; [|done].
    destruct (first_selected _ _); [|done]. simpl.
    rewrite docs_of_set_docs. apply remove_first_keeps; [done|].
    apply not_true_iff_false. rewrite selects_ById. apply Hd.
  - intros c d i p Hi Hp.
    destruct (settle_db_cases c d) as [-> | (s & o & _ & _ & _ & _ & ->)];
      [done|].
    simpl.
    destruct (updateOne_lookup {[ "_id" := VOid o ]}
                (paid_set (generateTrackingId (call_env c))) _ _ _ Hi)
      as [H | [Hm _]]; [done|].
    apply matches_singleton in Hm. by destruct (Hp o).
Qed.

Lemma string_ids_are_out_of_reach_witness :
  let parcel := <["createdAt" := VDate 9000]> body_P1 in
  let s' := mkStore [] [] (mkDb (parcelsCollection db0 ++ [parcel]) []) in
  answer (post_parcels env_b body_P1) store0
  = (mkReply 201 (Some (insert_result (VStr "P1"))), s',
     [CallInsertOne (Stored Parcels) parcel])
  ∧ parcel ∈ parcelsCollection
               (settlement_db (answer (delete_parcels "P1") s').1.2)
  ∧ parcelsCollection
      (settle_db (settlement_db s') (call_of paid_P1 "TRK-1" 1000)) !! 1%nat
    = Some parcel.
Proof.
  intros parcel s'.
  destruct string_ids_are_out_of_reach as (Hpost & _ & Hdel & Hsettle).
  assert (Hstr : ∀ o, parcel !! "_id" ≠ Some (VOid o)) by (intros o; discriminate).
  split; [|split].
  - apply (Hpost env_b body_P1 store0 "P1"); [reflexivity|].
    vm_compute. reflexivity.
  - apply (Hdel (Stored Parcels) "P1" s' parcel); [|exact Hstr].
    apply elem_of_app. right. by apply list_elem_of_singleton.
  - apply Hsettle; [reflexivity | exact Hstr].
Defined.

(** ** Listing riders *)

Lemma get_riders_handler_run (cursor_sort : string → Z → list Doc → list Doc)
    (req : Request) (s : Store) :
  let query_ := build_query ["status"] (query req) ∅ in
  let sortField := or_else (query req !! "sort") "createdAt" in
  let sortOrder := if bool_decide (query req !! "order" = Some "asc") then 1 else -1 in
  answer (get_riders_handler cursor_sort req) s
  = (mkReply 200
       (Some (JDocs (cursor_sort sortField sortOrder
                       (List.filter (matches query_) (ridersCollection s))))),
     s, [CallFind Riders query_ sortField sortOrder]).
Proof. by destruct s. Qed.

(** X21.  [GET /riders] asks for a valid token and for nothing else: no
    email is compared and no role is checked.  Every authenticated caller,
    whatever the email of the token and even without one, gets the same
    answer: the riders whose [status] is the [status] parameter when it is
    given and not empty, all riders otherwise, as the store sorts them.
    Without a valid token the answer is 401 and the store is not read. *)
Theorem get_riders_lists (cursor_sort : string → Z → list Doc → list Doc)
    (env : Env) (req : Request) (s : Store) :
  let query_ : Doc :=
    match query req !! "status" with
    | Some v => if bool_decide (v = "") then ∅ else {[ "status" := VStr v ]}
    | None => ∅
    end in
  let sortField := or_else (query req !! "sort") "createdAt" in
  let sortOrder := if bool_decide (query req !! "order" = Some "asc") then 1 else -1 in
  ((∀ email, ¬ authenticated env req email) →
   answer (get_riders cursor_sort env req) s
   = (mkReply 401 (Some (message "Unauthorized Access")), s, []))
  ∧ (∀ email, authenticated env req email →
       answer (get_riders cursor_sort env req) s
       = (mkReply 200
            (Some (JDocs (cursor_sort sortField sortOrder
                            (List.filter (matches query_) (ridersCollection s))))),
          s, [CallFind Riders query_ sortField sortOrder]))
  ∧ (query_ = ∅ →
     List.filter (matches query_) (ridersCollection s) = ridersCollection s).
Proof.
  intros query_ sortField sortOrder. split; [|split].
  - intros Hn. unfold get_riders. by apply guarded_reject.
  - intros email Hauth. unfold get_riders.
    rewrite (guarded_next _ _ _ _ Hauth), get_riders_handler_run.
    cbn [query handed_on]. by rewrite build_query_one.
  - intros ->. induction (ridersCollection s) as [|x l IH]; [done|].
    simpl. by rewrite matches_empty, IH.
Qed.

Lemma get_riders_lists_witness :
  let req := request_of [("authorization", "Bearer tok_anon")]
                        [("status", "pending")] in
  answer (get_riders keep_order env0 req) (store_ann "pending" "user")
  = (mkReply 200
       (Some (JDocs (List.filter (matches {[ "status" := VStr "pending" ]})
                       [rider_ann "pending"]))),
     store_ann "pending" "user",
     [CallFind Riders {[ "status" := VStr "pending" ]} "createdAt" (-1)]).
Proof.
  intros req.
  apply (proj1 (proj2 (get_riders_lists keep_order env0 req
                         (store_ann "pending" "user"))) None).
  bearer "Bearer tok_anon" "tok_anon".
Defined.

Lemma patch_riders_refuses_witness :
  answer (patch_riders env0 (request_of [] []) oid_a approve)
    (store_ann "pending" "user")
  = (mkReply 401 (Some (message "Unauthorized Access")),
     store_ann "pending" "user", [])
  ∧ answer (patch_riders env0 request_a "P1" approve) (store_ann "pending" "user")
    = (mkReply 500 (Some (error ObjectId_error)), store_ann "pending" "user", []).
Proof.
  destruct (patch_riders_refuses env0 (request_of [] []) oid_a approve
              (store_ann "pending" "user")) as (H401 & _).
  destruct (patch_riders_refuses env0 request_a "P1" approve
              (store_ann "pending" "user")) as (_ & H500 & _).
  split.
  - apply H401. intros email (a & t & Ha & _). discriminate.
  - apply (H500 (Some "a@x.com")); [bearer "Bearer tok_a" "tok_a" | reflexivity].
Defined.

(** ** From posting a parcel to its settlement *)

(** X22.  A parcel posted without an [_id] and then settled is paid.  When
    the session of a SettleCheckout call is paid, names the id the parcel
    was stored under (in any spelling) and has no Payment yet, the stored
    parcel gets [paymentStatus = paid] and the generated tracking id, keeps
    every other posted field, and a Payment with the session's parcelId is
    stored. *)
Theorem posted_parcel_gets_paid (env : Env) (body : Doc) (s : Store)
    (c : Call) (session : Session) :
  body !! "_id" = None →
  has_id (VOid (fresh_id env)) (parcelsCollection (settlement_db s)) = false →
  retrieved c = Some session →
  payment_status session = "paid" →
  new_ObjectId (parcelId (metadata session)) = Some (fresh_id env) →
  (∀ p, p ∈ paymentsCollection (settlement_db s) →
        p !! "parcelId" ≠ Some (VStr (parcelId (metadata session)))) →
  let posted := (answer (post_parcels env body) s).1.2 in
  let settled := settle_db (settlement_db posted) c in
  ∃ parcel,
    parcel_of (fresh_id env) settled = Some parcel
    ∧ is_paid parcel
    ∧ parcel !! "trackingId" = Some (VStr (generateTrackingId (call_env c)))
    ∧ (∀ k, k ≠ "paymentStatus" → k ≠ "trackingId" → k ≠ "createdAt" →
            k ≠ "_id" → parcel !! k = body !! k)
    ∧ has_payment (parcelId (metadata session)) settled.
Proof.
  intros Hid Hfresh Hr Hpaid Ho Hnone posted settled.
  set (parcel := <["_id" := VOid (fresh_id env)]>
                   (<["createdAt" := VDate (Date_now env)]> body)).
  assert (Hposted : settlement_db posted
                    = mkDb (parcelsCollection (settlement_db s) ++ [parcel])
                        (paymentsCollection (settlement_db s))).
  { unfold posted. rewrite post_parcels_run. cbv zeta. unfold insert_checked.
    assert (prepare_doc (fresh_id env)
              (<["createdAt" := VDate (Date_now env)]> body) = parcel) as ->.
    { unfold prepare_doc. by rewrite lookup_insert_ne, Hid. }
    assert (parcel !! "_id" = Some (VOid (fresh_id env))) as ->
      by apply lookup_insert_eq.
    simpl (default _ _). rewrite Hfresh.
    by destruct s as [us rs [ps pays]]. }
  assert (Hfound : parcel_of (fresh_id env) (settlement_db posted) = Some parcel).
  { rewrite Hposted. unfold parcel_of. cbn [parcelsCollection].
    apply findOne_app_new.
    - apply findOne_singleton_None. by apply has_id_false.
    - apply matches_singleton, lookup_insert_eq. }
  apply retrieved_Some in Hr as (sid & Hsid & Hs).
  assert (Hnone' : findOne (by_parcelId session)
                     (paymentsCollection (settlement_db posted)) = None).
  { rewrite Hposted. by apply findOne_singleton_None. }
  pose proof (settle_paid c (settlement_db posted) sid session Hsid Hs
                (fresh_id env) Hnone' Hpaid Ho) as Hrun.
  assert (Hsettled : settled
    = mkDb (updateOne {[ "_id" := VOid (fresh_id env) ]}
              (paid_set (generateTrackingId (call_env c)))
              (parcelsCollection (settlement_db posted)))
           (insertOne (fresh_id (call_env c)) (payment_in c session)
              (paymentsCollection (settlement_db posted)))).
  { unfold settled, settle_db. by rewrite Hrun. }
  exists (paid_set (generateTrackingId (call_env c)) ∪ parcel).
  split.
  { rewrite Hsettled. unfold parcel_of in *. cbn [parcelsCollection].
    by rewrite findOne_updateOne_same, Hfound. }
  split; [apply paid_set_status|]. split; [apply paid_set_tracking|]. split.
  { intros k H1 H2 H3 H4. rewrite paid_set_other by done.
    unfold parcel. by rewrite !lookup_insert_ne. }
  rewrite Hsettled. unfold payment_in. apply has_payment_insert. by right.
Qed.

Lemma posted_parcel_gets_paid_witness :
  let posted := (answer (post_parcels env_b body_box) store0).1.2 in
  let settled := settle_db (settlement_db posted) (call_of paid_b "TRK-7" 7000) in
  ∃ parcel,
    parcel_of oid_of_b settled = Some parcel
    ∧ is_paid parcel
    ∧ parcel !! "trackingId" = Some (VStr "TRK-7")
    ∧ (∀ k, k ≠ "paymentStatus" → k ≠ "trackingId" → k ≠ "createdAt" →
            k ≠ "_id" → parcel !! k = body_box !! k)
    ∧ has_payment oid_b settled.
Proof.
  apply (posted_parcel_gets_paid env_b body_box store0
           (call_of paid_b "TRK-7" 7000) paid_b).
  - reflexivity.
  - vm_compute. reflexivity.
  - reflexivity.
  - reflexivity.
  - reflexivity.
  - intros p Hp. by apply elem_of_nil in Hp.
Defined.
